(** * CourtListener bulk-data exporter and California judge importer

    A shallow embedding of

    - [alert/api/management/commands/cl_make_bulk_data.py]
      (the bulk-data export command), and
    - [cl/people_db/management/commands/import_ca_judges.py]
      (the judge importer),

    together with the properties their specification states about them.

    Modelling conventions.

    - The file system below [settings.BULK_DATA_DIR] is a tree of [node]s;
      the root of the tree is [BULK_DATA_DIR] itself, which is taken to be
      an existing directory.  A path is the list of its components, so
      [os.path.join(settings.BULK_DATA_DIR, 'tmp', t, x)] is
      [["tmp"; t; x]].  Components are file names: non-empty, without
      ['/'], and different from ['.'] and ['..'].  Court keys are used by
      the exporter as directory names; they are such components and hold
      no glob metacharacter.  A property that depends on this says so,
      with [plain_name].
    - The operating system is taken at its simplest: no permissions, no
      links, no limits on names or space.  [os.makedirs] fails with
      [EEXIST] or [ENOTDIR] only, and then before it has created
      anything; [getattr] reads stored attributes; [tarfile.add] adds the
      named entry as one member.
    - Python exceptions are the [Raise] outcomes of a state-and-exception
      monad; the state that an exception leaves behind is kept, because an
      aborted run does not clean up.
    - Progress lines written to [self.stdout] and [logging] calls have no
      influence on the file system or the database and are left out.
    - Collaborators that live outside the two commands (the API
      serializer, [queryset_generator], the judge helpers, the model
      constants) are parameters of the sections that use them.
    - Of [do_everything] the loop over the object types is embedded
      ([do_everything_loop], with its body [do_everything_body]);
      [make_citation_data], a shell pipeline that writes outside
      [BULK_DATA_DIR], is not.  The compressor behind [gzip.open] is a
      parameter of [compress_all_archives]. *)

From Stdlib Require Import ZArith Lia Ascii.
From stdpp Require Import gmap strings list fin_maps pretty.

#[local] Open Scope string_scope.

(** ** Exceptions and the state-and-exception monad *)

(** [errno] values are the integers of [errno.h]. *)
Definition ENOENT : Z := 2.
Definition EEXIST : Z := 17.
Definition ENOTDIR : Z := 20.
Definition EISDIR : Z := 21.

Inductive exn :=
  | OSError (errno : Z)
  | IOError (errno : Z)
  | ShutilError
  | ReadError
  | IndexError
  | KeyError (key : string)
  | AttributeError (name : string)
  | TypeError
  | ExternalError (what : string).

Inductive outcome (A : Type) :=
  | Ok (a : A)
  | Raise (e : exn).
Arguments Ok {A} a.
Arguments Raise {A} e.

Definition M (S A : Type) : Type := S → outcome A * S.

Definition ret {S A} (a : A) : M S A := λ s, (Ok a, s).
Definition raise {S A} (e : exn) : M S A := λ s, (Raise e, s).
Definition bind {S A B} (m : M S A) (k : A → M S B) : M S B :=
  λ s, match m s with
       | (Ok a, s') => k a s'
       | (Raise e, s') => (Raise e, s')
       end.
Definition get {S} : M S S := λ s, (Ok s, s).
Definition lift {S A} (o : outcome A) : M S A := λ s, (o, s).

Declare Scope monad_scope.
Notation "x <- c ;; k" := (bind c (λ x, k))
  (at level 100, c at next level, k at level 200, right associativity)
  : monad_scope.
Notation "c ;; k" := (bind c (λ _, k))
  (at level 100, k at level 200, right associativity) : monad_scope.
#[local] Open Scope monad_scope.

(** A Python [for] loop whose body may raise. *)
Fixpoint for_each {S A} (l : list A) (body : A → M S unit) : M S unit :=
  match l with
  | [] => ret tt
  | x :: l' => body x ;; for_each l' body
  end.

(** ** The file system *)

Definition path := list string.

(** A regular file holds raw bytes, an archive (a list of members under
    their archive names; [compresslevel] is [None] for a plain tar), or is
    [Partial]: created by an [open] for writing whose stream has not been
    closed. *)
#[warnings="-register-all"]
Inductive node :=
  | File (c : content)
  | Dir (kids : gmap string node)
with content :=
  | Bytes (s : string)
  | Partial
  | Tar (compresslevel : option nat) (members : list (string * node)).

Definition FS (A : Type) : Type := M node A.

Fixpoint lookup_path (p : path) (n : node) : option node :=
  match p with
  | [] => Some n
  | x :: p' =>
      match n with
      | Dir kids => kids !! x ≫= lookup_path p'
      | File _ => None
      end
  end.

(** [os.path.isdir] and [os.path.exists]. *)
Definition isdir (p : path) (s : node) : bool :=
  match lookup_path p s with Some (Dir _) => true | _ => false end.

Definition lexists (p : path) (s : node) : bool :=
  match lookup_path p s with Some _ => true | None => false end.

(** [os.listdir].  The order of the names is the directory's own: here
    the order in which the map enumerates them; the proofs below use only
    that every name of the directory is listed once. *)
Definition listdir (p : path) (s : node) : option (list string) :=
  match lookup_path p s with
  | Some (Dir kids) => Some (map_to_list kids).*1
  | _ => None
  end.

(** [os.path.basename] *)
Definition basename (p : path) : string := List.last p "".

(** Replace ([Some v]) or remove ([None]) the entry at a path whose parent
    is an existing directory. *)
Fixpoint put_path (p : path) (v : option node) (n : node) : option node :=
  match p, n with
  | [], _ => None
  | _ :: _, File _ => None
  | [x], Dir kids =>
      Some (Dir (match v with Some v => <[x := v]> kids | None => delete x kids end))
  | x :: p', Dir kids =>
      k ← kids !! x; k' ← put_path p' v k; Some (Dir (<[x := k']> kids))
  end.

(** *** [os.makedirs] *)

Fixpoint fresh_dirs (p : path) : node :=
  match p with
  | [] => Dir ∅
  | x :: p' => Dir {[ x := fresh_dirs p' ]}
  end.

(** [os.makedirs(path)]: missing ancestors are created, then the leaf;
    [EEXIST] when the leaf is there already (file or directory),
    [ENOTDIR] when an ancestor is a regular file.  A failing call changes
    nothing. *)
Fixpoint makedirs (p : path) (n : node) : Z + node :=
  match p, n with
  | [], _ => inl EEXIST
  | _ :: _, File _ => inl ENOTDIR
  | x :: p', Dir kids =>
      match kids !! x with
      | None => inr (Dir (<[x := fresh_dirs p']> kids))
      | Some k =>
          match makedirs p' k with
          | inl e => inl e
          | inr k' => inr (Dir (<[x := k']> kids))
          end
      end
  end.

Definition os_makedirs (p : path) : FS unit :=
  λ s, match makedirs p s with
       | inl e => (Raise (OSError e), s)
       | inr s' => (Ok tt, s')
       end.

(** *** [open(path, 'wb')], written and closed *)

(** [IOError]: [ENOENT] for a missing directory, [ENOTDIR] when a
    component is a regular file, [EISDIR] when the path is a directory. *)
Fixpoint open_wb (p : path) (c : content) (n : node) : Z + node :=
  match p, n with
  | [], _ => inl EISDIR
  | _ :: _, File _ => inl ENOTDIR
  | [x], Dir kids =>
      match kids !! x with
      | Some (Dir _) => inl EISDIR
      | _ => inr (Dir (<[x := File c]> kids))
      end
  | x :: p', Dir kids =>
      match kids !! x with
      | None => inl ENOENT
      | Some k =>
          match open_wb p' c k with
          | inl e => inl e
          | inr k' => inr (Dir (<[x := k']> kids))
          end
      end
  end.

Definition write_file (p : path) (c : content) : FS unit :=
  λ s, match open_wb p c s with
       | inl e => (Raise (IOError e), s)
       | inr s' => (Ok tt, s')
       end.

(** ** [fnmatch] and [glob] *)

(** [fnmatch.fnmatch(name, pat)] for patterns made of ['*'], ['?'] and
    literal characters, which is all the exporter uses (['*'],
    ['*.tar*'], ['*.tar'], ['*.json']). *)
Fixpoint wild (pat : list ascii) : list ascii → bool :=
  match pat with
  | [] => λ s, match s with [] => true | _ => false end
  | c :: pat' =>
      if Ascii.eqb c "*"%char then
        fix star (s : list ascii) : bool :=
          wild pat' s || match s with [] => false | _ :: s' => star s' end
      else if Ascii.eqb c "?"%char then
        λ s, match s with [] => false | _ :: s' => wild pat' s' end
      else
        λ s, match s with
             | [] => false
             | d :: s' => Ascii.eqb c d && wild pat' s'
             end
  end.

Definition fnmatch (name pat : string) : bool :=
  wild (String.list_ascii_of_string pat) (String.list_ascii_of_string name).

Definition starts_with_dot (x : string) : bool :=
  match x with
  | String c _ => Ascii.eqb c "."%char
  | EmptyString => false
  end.

(** [glob.glob1(dirname, pattern)]: names that begin with a dot are only
    matched by a pattern that begins with a dot. *)
Definition glob1 (names : list string) (pattern : string) : list string :=
  let names :=
    if starts_with_dot pattern then names
    else filter (λ x, starts_with_dot x = false) names in
  filter (λ x, fnmatch x pattern = true) names.

(** [glob.glob(os.path.join(dir, pattern))] where only the last component
    holds metacharacters: a directory that cannot be listed gives no
    match. *)
Definition glob (dir : path) (pattern : string) (s : node) : list path :=
  match listdir dir s with
  | Some names => (λ x, (dir ++ [x])%list) <$> glob1 names pattern
  | None => []
  end.

(** ** [shutil.move] *)

(** [os.rename(src, dst)] on one file system.  [None] stands for the
    [OSError] it raises; [shutil.move] does not look at the [errno]. *)
Definition os_rename (src dst : path) (s : node) : option node :=
  n ← lookup_path src s;
  if bool_decide (src = dst) then Some s
  else if bool_decide (src `prefix_of` dst) then None
  else
    let mv := s' ← put_path src None s; put_path dst (Some n) s' in
    match n, lookup_path dst s with
    | File _, Some (Dir _) => None
    | Dir _, Some (File _) => None
    | Dir _, Some (Dir k) => if bool_decide (size k = 0) then mv else None
    | _, _ => mv
    end.

(** The copy-and-delete fall-back of [shutil.move], entered when
    [os.rename] raised: [copytree] then [rmtree] for a directory, [copy2]
    then [os.unlink] for a file. *)
Definition move_fallback (src dst real_dst : path) : FS unit :=
  λ s, match lookup_path src s with
       | Some (Dir kids) =>
           if bool_decide (src `prefix_of` dst) then (Raise ShutilError, s)
           else
             match makedirs real_dst s with
             | inl e => (Raise (OSError e), s)
             | inr s1 =>
                 match put_path real_dst (Some (Dir kids)) s1 ≫= put_path src None with
                 | Some s2 => (Ok tt, s2)
                 | None => (Raise (OSError ENOENT), s1)
                 end
             end
       | Some (File c) =>
           match open_wb real_dst c s with
           | inl e => (Raise (IOError e), s)
           | inr s1 =>
               match put_path src None s1 with
               | Some s2 => (Ok tt, s2)
               | None => (Raise (OSError ENOENT), s1)
               end
           end
       | None => (Raise (IOError ENOENT), s)
       end.

Definition shutil_move (src dst : path) : FS unit :=
  λ s,
    if isdir dst s then
      if bool_decide (src = dst) then (Ok tt, s)
      else
        let real_dst := (dst ++ [basename src])%list in
        if lexists real_dst s then (Raise ShutilError, s)
        else
          match os_rename src real_dst s with
          | Some s' => (Ok tt, s')
          | None => move_fallback src dst real_dst s
          end
    else
      match os_rename src dst s with
      | Some s' => (Ok tt, s')
      | None => move_fallback src dst dst s
      end.

(** ** The export command: file-system helpers *)

(** [mkdir_p] over any implementation of [os.makedirs]: the handler
    catches [OSError] only, and lets it go when its [errno] is [EEXIST]
    and the path is a directory. *)
Definition mkdir_p_with (os_makedirs : path → FS unit) (p : path) : FS unit :=
  λ s, match os_makedirs p s with
       | (Raise (OSError errno), s') =>
           if bool_decide (errno = EEXIST) && isdir p s' then (Ok tt, s')
           else (Raise (OSError errno), s')
       | r => r
       end.

Definition mkdir_p : path → FS unit := mkdir_p_with os_makedirs.

Definition test_if_old_bulk_files_exist (obj_type_str : string) : FS bool :=
  λ s, match glob ["tmp"; obj_type_str] "*" s with
       | _ :: _ => (Ok true, s)
       | [] => (Ok false, s)
       end.

Definition swap_archives (obj_type_str : string) : FS unit :=
  mkdir_p [obj_type_str] ;;
  s <- get ;;
  for_each (glob ["tmp"; obj_type_str] "*.tar*" s)
    (λ f, shutil_move f [obj_type_str; basename f]).

(** *** [compress_all_archives] *)

(** [open(path, 'rb')] and the bytes read from the file. *)
Fixpoint open_rb (p : path) (n : node) : Z + content :=
  match p, n with
  | [], File c => inr c
  | [], Dir _ => inl EISDIR
  | _ :: _, File _ => inl ENOTDIR
  | x :: p', Dir kids =>
      match kids !! x with
      | None => inl ENOENT
      | Some k => open_rb p' k
      end
  end.

Definition read_file (p : path) : FS content :=
  λ s, match open_rb p s with
       | inl e => (Raise (IOError e), s)
       | inr c => (Ok c, s)
       end.

(** ['%s.gz' % path], for a path with a last component (as [glob] returns
    them). *)
Definition gz_path (p : path) : path :=
  (removelast p ++ [(basename p ++ ".gz")%string])%list.

Section Gzip.
(** What [gzip.open(name, 'wb')] leaves in the file once the lines of the
    input are written and the stream is closed. *)
Variable gzip_compress : content → content.

(** The input is opened for reading before the output is created. *)
Definition compress_all_archives (obj_type_str : string) : FS unit :=
  s <- get ;;
  for_each (glob ["tmp"; obj_type_str] "*.tar" s) (λ tar_path,
    tar_file_in <- read_file tar_path ;;
    write_file (gz_path tar_path) (gzip_compress tar_file_in)).
End Gzip.

(** ** Python values *)

(** Model instances are [PyObject]s (attribute name to value), dictionaries
    are [PyDict]s; a [PyDatetime] counts microseconds. *)
#[warnings="-register-all"]
Inductive pyval :=
  | PyNone
  | PyBool (b : bool)
  | PyInt (z : Z)
  | PyStr (s : string)
  | PyDatetime (us : Z)
  | PyList (l : list pyval)
  | PyDict (items : gmap string pyval)
  | PyObject (attrs : gmap string pyval).

(** [bool(v)], as an [if v:] tests it. *)
Definition truthy (v : pyval) : bool :=
  match v with
  | PyNone => false
  | PyBool b => b
  | PyInt z => negb (z =? 0)%Z
  | PyStr s => negb (String.eqb s "")
  | PyDatetime _ => true
  | PyList l => match l with [] => false | _ => true end
  | PyDict d => negb (size d =? 0)%nat
  | PyObject _ => true
  end.

Definition getattr (o : pyval) (a : string) : outcome pyval :=
  match o with
  | PyObject attrs =>
      match attrs !! a with
      | Some v => Ok v
      | None => Raise (AttributeError a)
      end
  | _ => Raise (AttributeError a)
  end.

(** ['%s' % v] for the values a primary key can be. *)
Definition format_s (v : pyval) : outcome string :=
  match v with
  | PyInt z => Ok (pretty z)
  | PyStr s => Ok s
  | PyNone => Ok "None"
  | PyBool b => Ok (if b then "True" else "False")
  | _ => Raise (ExternalError "str")
  end.

(** A value used as a component of [os.path.join] has to be a string. *)
Definition as_str (v : pyval) : outcome string :=
  match v with
  | PyStr s => Ok s
  | _ => Raise TypeError
  end.

(** [s.split('.')] *)
Fixpoint split_dot (s : string) : list string :=
  match s with
  | EmptyString => [""]
  | String c s' =>
      if Ascii.eqb c "."%char then "" :: split_dot s'
      else
        match split_dot s' with
        | h :: t => String c h :: t
        | [] => [String c ""]
        end
  end.

(** [reduce(getattr, attr.split('.'), obj)] *)
Definition deepgetattr (obj : pyval) (attr : string) : outcome pyval :=
  foldl (λ acc a, match acc with Ok o => getattr o a | Raise e => Raise e end)
        (Ok obj) (split_dot attr).

(** ** The ORM, as far as the exporter uses it *)

(** A table is the list of its rows; [objects.all()] is the table. *)
Definition timedelta_days (n : Z) : Z := (n * 86400 * 1000000)%Z.

Definition date_modified__gt (t : Z) (row : pyval) : bool :=
  match getattr row "date_modified" with
  | Ok (PyDatetime d) => bool_decide (t < d)%Z
  | _ => false
  end.

Definition objects_filter_date_modified__gt (t : Z) (objects : list pyval)
  : list pyval :=
  filter (λ row, date_modified__gt t row = true) objects.

(** [qs[0]] *)
Definition qs_first (qs : list pyval) : outcome pyval :=
  match qs with
  | q :: _ => Ok q
  | [] => Raise IndexError
  end.

(** ** [tarfile] *)

Record TarFile := mkTarFile {
  tar_name : path;
  tar_level : option nat;
  tar_members : list (string * node);
}.

(** [tarfile.open(name, 'w')] and [tarfile.open(name, 'w:gz')] create or
    truncate the file. *)
Definition tarfile_open_w (name : path) (level : option nat) : FS TarFile :=
  write_file name Partial ;;
  ret (mkTarFile name level []).

(** [tarfile.open(name, mode='a')]: an existing plain archive is read and
    extended, a missing file is created. *)
Definition tarfile_open_a (name : path) : FS TarFile :=
  λ s, match lookup_path name s with
       | Some (File (Tar None ms)) => (Ok (mkTarFile name None ms), s)
       | Some (File _) => (Raise ReadError, s)
       | Some (Dir _) => (Raise (IOError EISDIR), s)
       | None =>
           (write_file name Partial ;; ret (mkTarFile name None [])) s
       end.

(** [tar.add(name, arcname=arcname)] *)
Definition tar_add (tar : TarFile) (name : path) (arcname : string)
  : FS TarFile :=
  λ s, match lookup_path name s with
       | Some n =>
           (Ok (mkTarFile (tar_name tar) (tar_level tar)
                          (tar_members tar ++ [(arcname, n)])), s)
       | None => (Raise (OSError ENOENT), s)
       end.

(** [tar.addfile(tarinfo, StringIO(data))] *)
Definition tar_addfile (tar : TarFile) (arcname data : string) : TarFile :=
  mkTarFile (tar_name tar) (tar_level tar)
            (tar_members tar ++ [(arcname, File (Bytes data))]).

(** [tar.close()]: the members reach the file when the archive is
    closed. *)
Definition tar_close (tar : TarFile) : FS unit :=
  write_file (tar_name tar) (Tar (tar_level tar) (tar_members tar)).

Fixpoint fold_each {S A B} (l : list A) (acc : B) (body : B → A → M S B)
  : M S B :=
  match l with
  | [] => ret acc
  | x :: l' => acc' <- body acc x ;; fold_each l' acc' body
  end.

Definition tar_and_compress_all_json_files (obj_type_str : string)
    (courts : list pyval) : FS unit :=
  for_each courts (λ court,
    pk <- lift (getattr court "pk") ;;
    stem <- lift (format_s pk) ;;
    tar <- tarfile_open_w ["tmp"; obj_type_str; stem ++ ".tar.gz"] (Some 6) ;;
    dir <- lift (as_str pk) ;;
    s <- get ;;
    tar <- fold_each (glob ["tmp"; obj_type_str; dir] "*.json" s) tar
             (λ tar name, tar_add tar name (basename name)) ;;
    tar_close tar) ;;
  tar <- tarfile_open_w ["tmp"; obj_type_str; "all.tar"] None ;;
  tar <- fold_each courts tar (λ tar court,
           pk <- lift (getattr court "pk") ;;
           stem <- lift (format_s pk) ;;
           let targz := ["tmp"; obj_type_str; stem ++ ".tar.gz"] in
           tar_add tar targz (basename targz)) ;;
  tar_close tar.

(** ** The export command: [Command] *)

(** A key of the [tar_files] dictionary.  Primary keys are integers or
    strings; other values are not used as keys by the exporter. *)
Definition dict_key (v : pyval) : outcome (Z + string) :=
  match v with
  | PyInt z => Ok (inl z)
  | PyStr s => Ok (inr s)
  | _ => Raise TypeError
  end.

Definition key_repr (k : Z + string) : string :=
  match k with inl z => pretty z | inr s => s end.

(** [tar_files[key]] *)
Definition dict_get {St : Type} (d : gmap (Z + string) TarFile)
    (k : Z + string) : M St TarFile :=
  match d !! k with
  | Some v => ret v
  | None => raise (KeyError (key_repr k))
  end.

Section Command.

(** [alert.lib.db_tools.queryset_generator]: iterates over a queryset in
    chunks. *)
Variable queryset_generator : list pyval → list pyval.

(** The selection [qs] of [write_json_to_disk] and [make_archive]:
    [now] is the value of [now()]. *)
Definition select_qs (incremental : bool) (now : Z) (obj_type : list pyval)
  : list pyval :=
  if incremental then
    let thirty_two_days_ago := (now - timedelta_days 32)%Z in
    objects_filter_date_modified__gt thirty_two_days_ago obj_type
  else obj_type.

(** [if type(qs[0].pk) == int: ... else: ...] *)
Definition item_list_of (qs : list pyval) : outcome (list pyval) :=
  match qs_first qs with
  | Ok q =>
      match getattr q "pk" with
      | Ok (PyInt _) => Ok (queryset_generator qs)
      | Ok _ => Ok qs
      | Raise e => Raise e
      end
  | Raise e => Raise e
  end.

(** [api_resource_obj] stands for the serialization
    [item_resource.serialize(None, item_resource.full_dehydrate(
    item_resource.build_bundle(obj=item)), 'application/json')
    .encode('utf-8')] of the resource class handed in. *)
Definition write_json_to_disk (now : Z) (obj_type_str : string)
    (obj_type : list pyval) (court_attr : string)
    (api_resource_obj : pyval → outcome string) (courts : list pyval)
  : FS unit :=
  incremental <- test_if_old_bulk_files_exist obj_type_str ;;
  for_each courts (λ court,
    pk <- lift (getattr court "pk") ;;
    dir <- lift (as_str pk) ;;
    mkdir_p ["tmp"; obj_type_str; dir]) ;;
  let qs := select_qs incremental now obj_type in
  item_list <- lift (item_list_of qs) ;;
  for_each item_list (λ item,
    json_str <- lift (api_resource_obj item) ;;
    court <- lift (deepgetattr item court_attr) ;;
    dir <- lift (as_str court) ;;
    pk <- lift (getattr item "pk") ;;
    stem <- lift (format_s pk) ;;
    write_file ["tmp"; obj_type_str; dir; stem ++ ".json"] (Bytes json_str)).

Definition make_archive (now : Z) (obj_type_str : string)
    (obj_type : list pyval) (court_attr : string)
    (api_resource_obj : pyval → outcome string) (courts : list pyval)
  : FS unit :=
  mkdir_p ["tmp"; obj_type_str] ;;
  incremental <- test_if_old_bulk_files_exist obj_type_str ;;
  tar_files <- fold_each courts (∅ : gmap (Z + string) TarFile)
    (λ tar_files court,
      pk <- lift (getattr court "pk") ;;
      key <- lift (dict_key pk) ;;
      stem <- lift (format_s pk) ;;
      tar <- tarfile_open_a ["tmp"; obj_type_str; stem ++ ".tar"] ;;
      ret (<[key := tar]> tar_files)) ;;
  tar <- tarfile_open_a ["tmp"; obj_type_str; "all.tar"] ;;
  let tar_files := <[inr "all" := tar]> tar_files in
  let qs := select_qs incremental now obj_type in
  item_list <- lift (item_list_of qs) ;;
  tar_files <- fold_each item_list tar_files
    (λ tar_files item,
      json_str <- lift (api_resource_obj item) ;;
      pk <- lift (getattr item "pk") ;;
      stem <- lift (format_s pk) ;;
      _ <- lift (getattr item "date_modified") ;;
      court <- lift (deepgetattr item court_attr) ;;
      key <- lift (dict_key court) ;;
      tar <- dict_get tar_files key ;;
      let tar_files :=
        <[key := tar_addfile tar (stem ++ ".json") json_str]> tar_files in
      tar <- dict_get tar_files (inr "all") ;;
      ret (<[inr "all" := tar_addfile tar (stem ++ ".json") json_str]>
             tar_files)) ;;
  for_each courts (λ court,
    pk <- lift (getattr court "pk") ;;
    key <- lift (dict_key pk) ;;
    tar <- dict_get tar_files key ;;
    tar_close tar) ;;
  tar <- dict_get tar_files (inr "all") ;;
  tar_close tar.

(** The body of the loop of [do_everything], for one entry
    [(obj_type_str, obj_type, court_attr, api_resource_obj)] of
    [arg_tuples]. *)
Definition do_everything_body (now : Z) (courts : list pyval)
    (obj_type_str : string) (obj_type : list pyval) (court_attr : string)
    (api_resource_obj : pyval → outcome string) : FS unit :=
  write_json_to_disk now obj_type_str obj_type court_attr api_resource_obj
                     courts ;;
  tar_and_compress_all_json_files obj_type_str courts ;;
  swap_archives obj_type_str.

(** [arg_tuples]: the four object types with their table, the attribute
    chain that leads to the jurisdiction, and their API resource. *)
Definition arg_tuples (Document Audio Docket Court : list pyval)
    (DocumentResource AudioResource DocketResource JurisdictionResource
       : pyval → outcome string)
  : list (string * list pyval * string * (pyval → outcome string)) :=
  [ ("document", Document, "docket.court_id", DocumentResource);
    ("audio", Audio, "docket.court_id", AudioResource);
    ("docket", Docket, "court_id", DocketResource);
    ("jurisdiction", Court, "pk", JurisdictionResource) ].

(** The loop of [do_everything] over [arg_tuples], with
    [courts = Court.objects.all()]; [now t] is the value of [now()] while
    the object type [t] is exported. *)
Definition do_everything_loop (now : string → Z)
    (Document Audio Docket Court : list pyval)
    (DocumentResource AudioResource DocketResource JurisdictionResource
       : pyval → outcome string) : FS unit :=
  let courts := Court in
  for_each (arg_tuples Document Audio Docket Court DocumentResource
                       AudioResource DocketResource JurisdictionResource)
    (λ '(obj_type_str, obj_type, court_attr, api_resource_obj),
      do_everything_body (now obj_type_str) courts
        obj_type_str obj_type court_attr api_resource_obj).

End Command.

(** ** The judge importer *)

(** [d[k]] on a value read from JSON. *)
Definition getitem (d : pyval) (k : string) : outcome pyval :=
  match d with
  | PyDict items =>
      match items !! k with
      | Some v => Ok v
      | None => Raise (KeyError k)
      end
  | _ => Raise TypeError
  end.

(** [for x in v]: a list gives its elements, a dictionary its keys, a
    string its characters. *)
Definition iterate (v : pyval) : outcome (list pyval) :=
  match v with
  | PyList l => Ok l
  | PyDict items => Ok (PyStr <$> (map_to_list items).*1)
  | PyStr s => Ok ((λ c, PyStr (String c "")) <$> String.list_ascii_of_string s)
  | _ => Raise TypeError
  end.

(** The dictionary [pos] is updated in place: the statements on it run in
    the monad whose state is that dictionary. *)
Abbreviation kwargs := (gmap string pyval).

Definition pos_get (k : string) : M kwargs pyval :=
  λ pos, match pos !! k with
         | Some v => (Ok v, pos)
         | None => (Raise (KeyError k), pos)
         end.

Definition pos_del (k : string) : M kwargs unit :=
  λ pos, match pos !! k with
         | Some _ => (Ok tt, delete k pos)
         | None => (Raise (KeyError k), pos)
         end.

Definition pos_set (k : string) (v : pyval) : M kwargs unit :=
  λ pos, (Ok tt, <[k := v]> pos).

Definition when {St} (b : bool) (m : M St unit) : M St unit :=
  if b then m else ret tt.

Record database := mkDatabase {
  Person_objects : list pyval;
  Position_objects : list kwargs;
}.

Section ImportCaJudges.

(** [cl.people_db.import_judges]: the helpers work on the parsed JSON;
    [find_or_create_judge] reads and extends the table of people. *)
Variable load_json_file : string → outcome pyval.
Variable find_or_create_judge : pyval → pyval → nat → M (list pyval) pyval.
Variable process_positions : pyval → pyval → outcome (list kwargs).
Variable convert_date_to_gran_format : pyval → outcome pyval.

(** [cl.people_db.models.GRANULARITY_DAY] *)
Variable GRANULARITY_DAY : pyval.

(** What the [Position] model and the database accept on [save()]. *)
Variable Position_full_clean : kwargs → outcome unit.

(** The statements of the loop over [processed] that come before the
    [create] call. *)
Definition prepare_position : M kwargs unit :=
  pos_del "pending_status" ;;
  pos_del "inactive_status" ;;
  court <- pos_get "court" ;;
  when (truthy court) (pos_del "organization_name") ;;
  position_type <- pos_get "position_type" ;;
  when (truthy position_type) (pos_del "job_title") ;;
  date_start <- pos_get "date_start" ;;
  when (truthy date_start) (
    date_start <- pos_get "date_start" ;;
    d <- lift (convert_date_to_gran_format date_start) ;;
    pos_set "date_start" d ;;
    pos_set "date_granularity_start" GRANULARITY_DAY) ;;
  date_termination <- pos_get "date_termination" ;;
  if truthy date_termination then
    date_termination <- pos_get "date_termination" ;;
    d <- lift (convert_date_to_gran_format date_termination) ;;
    pos_set "date_termination" d ;;
    pos_set "date_granularity_termination" GRANULARITY_DAY
  else
    pos_del "date_termination" ;;
    pos_del "termination_reason".

(** [Position.objects.create], called with the keywords of [pos] and
    [person=judge]: a keyword given twice is a [TypeError]. *)
Definition Position_objects_create (pos : kwargs) (person : pyval)
  : M database unit :=
  λ db, match pos !! "person" with
        | Some _ => (Raise TypeError, db)
        | None =>
            let row := <["person" := person]> pos in
            match Position_full_clean row with
            | Ok _ =>
                (Ok tt, mkDatabase (Person_objects db)
                                   (Position_objects db ++ [row]))
            | Raise e => (Raise e, db)
            end
        end.

Definition on_people {A} (m : M (list pyval) A) : M database A :=
  λ db, match m (Person_objects db) with
        | (r, people) => (r, mkDatabase people (Position_objects db))
        end.

Definition import_position (judge : pyval) (pos : kwargs) : M database unit :=
  λ db, match prepare_position pos with
        | (Ok _, pos') => Position_objects_create pos' judge db
        | (Raise e, _) => (Raise e, db)
        end.

Definition import_judge (counties : pyval) (entry : nat * pyval)
  : M database unit :=
  let '(i, info) := entry in
  fullname <- lift (getitem info "fullName") ;;
  positions <- lift (getitem info "positions") ;;
  judge <- on_people (find_or_create_judge info counties i) ;;
  processed <- lift (process_positions positions counties) ;;
  for_each processed (import_position judge).

(** [file] is the document [json.load(file)] returns. *)
Definition import_ca_judges (log : bool) (file : pyval) : M database unit :=
  counties <- lift (load_json_file "ca_counties.json") ;;
  let all_judges_json := file in
  count <- lift (getitem all_judges_json "count") ;;
  judge_info <- lift (getitem all_judges_json "judges") ;;
  judge_info <- lift (iterate judge_info) ;;
  for_each (imap (λ i info, (i, info)) judge_info) (import_judge counties).

End ImportCaJudges.

(** * Vocabulary of the properties *)

(** ** Directories as maps *)

(** The directory at [p] holds an entry; it holds one that [glob] sees
    with ['*']. *)
Definition has_entry (p : path) (s : node) : Prop :=
  ∃ kids name, lookup_path p s = Some (Dir kids) ∧ is_Some (kids !! name).

Definition has_visible_entry (p : path) (s : node) : Prop :=
  ∃ kids name, lookup_path p s = Some (Dir kids) ∧ is_Some (kids !! name) ∧
               starts_with_dot name = false.

Definition is_file (n : node) : bool :=
  match n with File _ => true | Dir _ => false end.

(** The entries of a directory (none when there is no such directory);
    the staging directory and the published directory of an object
    type. *)
Definition dir_entries (p : path) (s : node) : gmap string node :=
  match lookup_path p s with Some (Dir kids) => kids | _ => ∅ end.
Definition staged (t : string) : node → gmap string node :=
  dir_entries ["tmp"; t].
Definition published (t : string) : node → gmap string node :=
  dir_entries [t].

(** A name that [glob] returns for a pattern, and the staged names the
    publisher moves. *)
Definition glob_match (pattern x : string) : bool :=
  (starts_with_dot pattern || negb (starts_with_dot x)) && fnmatch x pattern.

Definition archive_names (stg : gmap string node) : list string :=
  glob1 (map_to_list stg).*1 "*.tar*".

(** ** The publisher on the two directories *)

(** A state whose staging directory holds [stg] and whose published
    directory holds [pub]. *)
Definition assemble (top tmpk : gmap string node) (t : string)
    (stg pub : gmap string node) : node :=
  Dir (<[t := Dir pub]> (<["tmp" := Dir (<[t := Dir stg]> tmpk)]> top)).
Arguments assemble : simpl never.

(** What [put_path] does to the directory that holds the entry. *)
Definition upd (x : string) (v : option node) (m : gmap string node)
  : gmap string node :=
  match v with Some v => <[x := v]> m | None => delete x m end.

(** Where [shutil.move] puts a staged entry [n] named [x], given what is
    published under that name. *)
Definition landing (x : string) (n : node) (old : option node) : outcome node :=
  match old with
  | Some (Dir k) =>
      match k !! x with
      | Some _ => Raise ShutilError
      | None => Ok (Dir (<[x := n]> k))
      end
  | Some (File _) =>
      match n with
      | File _ => Ok n
      | Dir _ => Raise (OSError EEXIST)
      end
  | None => Ok n
  end.

(** One [shutil.move] of the publisher, and the loop over the matched
    names, on the staging and the published directory. *)
Definition publish_entry (x : string) (n : node) (pub : gmap string node)
  : outcome (gmap string node) :=
  match landing x n (pub !! x) with
  | Ok v => Ok (<[x := v]> pub)
  | Raise e => Raise e
  end.

Fixpoint publish_all (names : list string) (stg pub : gmap string node)
  : outcome unit * (gmap string node * gmap string node) :=
  match names with
  | [] => (Ok tt, (stg, pub))
  | x :: names' =>
      match stg !! x with
      | Some n =>
          match publish_entry x n pub with
          | Ok pub' => publish_all names' (delete x stg) pub'
          | Raise e => (Raise e, (stg, pub))
          end
      | None => (Raise (IOError ENOENT), (stg, pub))
      end
  end.

(** ** The export run *)

(** The mode [test_if_old_bulk_files_exist] decides in a state. *)
Definition incremental_at (obj_type_str : string) (s : node) : bool :=
  match test_if_old_bulk_files_exist obj_type_str s with
  | (Ok b, _) => b
  | (Raise _, _) => false
  end.

(** The loop of [write_json_to_disk] that makes a directory for every
    jurisdiction. *)
Definition make_court_dirs (obj_type_str : string) (courts : list pyval)
  : FS unit :=
  for_each courts (λ court,
    pk <- lift (getattr court "pk") ;;
    dir <- lift (as_str pk) ;;
    mkdir_p ["tmp"; obj_type_str; dir]).

(** The statements of [make_archive] that come before the selection: the
    staging directory is made and the tar files are opened. *)
Definition open_tar_files (obj_type_str : string) (courts : list pyval)
  : FS (bool * gmap (Z + string) TarFile) :=
  mkdir_p ["tmp"; obj_type_str] ;;
  incremental <- test_if_old_bulk_files_exist obj_type_str ;;
  tar_files <- fold_each courts (∅ : gmap (Z + string) TarFile)
    (λ tar_files court,
      pk <- lift (getattr court "pk") ;;
      key <- lift (dict_key pk) ;;
      stem <- lift (format_s pk) ;;
      tar <- tarfile_open_a ["tmp"; obj_type_str; stem ++ ".tar"] ;;
      ret (<[key := tar]> tar_files)) ;;
  tar <- tarfile_open_a ["tmp"; obj_type_str; "all.tar"] ;;
  ret (incremental, <[inr "all" := tar]> tar_files).

(** A property of the state that a computation keeps. *)
Definition preserves {A} (P : node → Prop) (m : FS A) : Prop :=
  ∀ s, P s → P (m s).2.

(** No regular file of [s'] is new with respect to [s]. *)
Definition no_new_file (s s' : node) : Prop :=
  ∀ q c, lookup_path q s' = Some (File c) → lookup_path q s = Some (File c).

(** No archive of [s'] is new with respect to [s]. *)
Definition no_new_archive (s s' : node) : Prop :=
  ∀ q lvl ms, lookup_path q s' = Some (File (Tar lvl ms)) →
              lookup_path q s = Some (File (Tar lvl ms)).

(** ** Archives and their records *)

(** The number of members of an archive. *)
Definition archive_records (n : node) : nat :=
  match n with
  | File (Tar _ ms) => length ms
  | _ => 0
  end.

(** For the aggregate of [tar_and_compress_all_json_files], whose members
    are the archives of the jurisdictions: the records in its members. *)
Definition aggregate_records (n : node) : nat :=
  match n with
  | File (Tar _ ms) => sum_list (archive_records <$> ms.*2)
  | _ => 0
  end.

(** The archive of a jurisdiction in the staging directory. *)
Definition court_archive (t : string) (s : node) (court : pyval)
  : option node :=
  match getattr court "pk" with
  | Ok pk =>
      match format_s pk with
      | Ok stem => lookup_path ["tmp"; t; stem ++ ".tar.gz"] s
      | Raise _ => None
      end
  | Raise _ => None
  end.

(** The number of records in the archive of a jurisdiction. *)
Definition court_records (t : string) (s : node) (court : pyval) : nat :=
  match court_archive t s court with
  | Some n => archive_records n
  | None => 0
  end.

(** [m] is the member of the aggregate for [court]: the court's archive,
    under its file name. *)
Definition court_member (t : string) (s : node) (court : pyval)
    (m : string * node) : Prop :=
  ∃ pk stem recs,
    getattr court "pk" = Ok pk ∧ format_s pk = Ok stem ∧
    m = (stem ++ ".tar.gz", File (Tar (Some 6) recs)) ∧
    lookup_path ["tmp"; t; stem ++ ".tar.gz"] s = Some (File (Tar (Some 6) recs)).

(** The statements of the first loop of [tar_and_compress_all_json_files]
    for one jurisdiction. *)
Definition archive_court (t : string) (court : pyval) : FS unit :=
  pk <- lift (getattr court "pk") ;;
  stem <- lift (format_s pk) ;;
  tar <- tarfile_open_w ["tmp"; t; stem ++ ".tar.gz"] (Some 6) ;;
  dir <- lift (as_str pk) ;;
  s <- get ;;
  tar <- fold_each (glob ["tmp"; t; dir] "*.json" s) tar
           (λ tar name, tar_add tar name (basename name)) ;;
  tar_close tar.

(** The file at [p] is an archive written with [compresslevel=6]. *)
Definition is_gz_archive (p : path) (s : node) : Prop :=
  ∃ recs, lookup_path p s = Some (File (Tar (Some 6) recs)).

(** The number of members of the archive at a path (none when there is no
    archive there). *)
Definition tar_records (p : path) (s : node) : nat :=
  match lookup_path p s with
  | Some n => archive_records n
  | None => 0
  end.

(** [keys] are the primary keys of [courts]: strings. *)
Definition court_keys (courts : list pyval) (keys : list string) : Prop :=
  Forall2 (λ court k, getattr court "pk" = Ok (PyStr k)) courts keys.

(** The number of members a handle of the dictionary holds. *)
Definition handle_records (d : gmap (Z + string) TarFile) (key : Z + string)
  : nat :=
  match d !! key with
  | Some h => length (tar_members h)
  | None => 0
  end.

(** After the tar files are opened, the dictionary holds for the
    jurisdiction [k] a handle on its tar file, with the members the file
    had in [s]. *)
Definition holds_handle (t : string) (s : node) (d : gmap (Z + string) TarFile)
    (k : string) : Prop :=
  ∃ h, d !! inr k = Some h ∧ tar_name h = ["tmp"; t; k ++ ".tar"] ∧
       tar_level h = None ∧
       length (tar_members h) = tar_records ["tmp"; t; k ++ ".tar"] s.

(** The members that the handles of the jurisdictions hold, in all. *)
Definition total_records (d : gmap (Z + string) TarFile) (keys : list string)
  : nat :=
  sum_list ((λ k, handle_records d (inr k)) <$> keys).

(** The keys of the dictionary are ['all'] and keys of jurisdictions. *)
Definition known_keys (d : gmap (Z + string) TarFile) (keys : list string)
  : Prop :=
  ∀ key, is_Some (d !! key) → key = inr "all" ∨ ∃ k, k ∈ keys ∧ key = inr k.

(** The two dictionaries have the same keys, with handles on the same
    files. *)
Definition same_handles (d d' : gmap (Z + string) TarFile) : Prop :=
  ∀ key, match d !! key, d' !! key with
         | Some h, Some h' =>
             tar_name h' = tar_name h ∧ tar_level h' = tar_level h
         | None, None => True
         | _, _ => False
         end.

(** ** The state of staging after a run, as the specification words it *)


(** ** The mode decision as the specification words it *)

(** Incremental exactly when the staging directory holds any entry at
    all. *)
Definition incremental_iff_any_staged_entry : Prop :=
  ∀ (obj_type_str : string) (s : node),
    (test_if_old_bulk_files_exist obj_type_str s).1 = Ok true ↔
    has_entry ["tmp"; obj_type_str] s.

(** ** Rows created by the importer *)

(** [row] is what [Position.objects.create] stores for the processed
    position [pos]: the prepared dictionary with the judge as [person]. *)
Definition created_from (prepare : M kwargs unit) (pos row : kwargs) : Prop :=
  ∃ pos' judge, prepare pos = (Ok tt, pos') ∧ pos' !! "person" = None ∧
                row = <["person" := judge]> pos'.

(** [pos] is one of the dictionaries [process_positions] returns. *)
Definition processed (process_positions : pyval → pyval → outcome (list kwargs))
    (pos : kwargs) : Prop :=
  ∃ positions counties l,
    process_positions positions counties = Ok l ∧ pos ∈ l.

(** The table of positions of [db'] is that of [db] followed by rows that
    satisfy [P]. *)
Definition extends_with (P : kwargs → Prop) (db db' : database) : Prop :=
  ∃ rows, Position_objects db' = (Position_objects db ++ rows)%list ∧
          Forall P rows.

(** The termination fields of the row stored for the processed position
    [pos], as the loop body leaves them: with a termination date (one that
    [if] takes as true) the row has the [termination_reason] entry of
    [pos] and the granularity [GRANULARITY_DAY]; without one it has no
    [termination_reason], no [date_termination], and the
    [date_granularity_termination] entry that [pos] came with, if any. *)
Definition termination_fields (GRANULARITY_DAY : pyval) (pos row : kwargs)
  : Prop :=
  ∃ d, pos !! "date_termination" = Some d ∧
       if truthy d then
         row !! "termination_reason" = pos !! "termination_reason" ∧
         row !! "date_granularity_termination" = Some GRANULARITY_DAY
       else
         row !! "termination_reason" = None ∧
         row !! "date_termination" = None ∧
         row !! "date_granularity_termination"
         = pos !! "date_granularity_termination".

(** ** The termination fields as the specification words them *)

(** Every created row comes from a processed position; when that position
    has a termination date the row retains the termination reason and has
    the granularity of the day, and when it has none the row has neither a
    [termination_reason] nor a [date_granularity_termination] key. *)
Definition termination_fields_as_specified : Prop :=
  ∀ (load_json_file : string → outcome pyval)
    (find_or_create_judge : pyval → pyval → nat → M (list pyval) pyval)
    (process_positions : pyval → pyval → outcome (list kwargs))
    (convert_date_to_gran_format : pyval → outcome pyval)
    (GRANULARITY_DAY : pyval) (Position_full_clean : kwargs → outcome unit)
    (log : bool) (file : pyval) (db : database),
    ∃ rows,
      Position_objects
        (import_ca_judges load_json_file find_or_create_judge
           process_positions convert_date_to_gran_format GRANULARITY_DAY
           Position_full_clean log file db).2
      = (Position_objects db ++ rows)%list ∧
      Forall (λ row,
        ∃ pos d, processed process_positions pos ∧
                 pos !! "date_termination" = Some d ∧
                 if truthy d then
                   row !! "termination_reason" = pos !! "termination_reason" ∧
                   row !! "date_granularity_termination"
                   = Some GRANULARITY_DAY
                 else
                   row !! "termination_reason" = None ∧
                   row !! "date_granularity_termination" = None) rows.

(** ** Publishing twice as the specification words it *)

(** Publishing, staging the same content again ([s2] has the staging
    directory of [s] and the published directory of the first run) and
    publishing once more gives the published directory of the first
    run. *)
Definition swap_twice_unchanged : Prop :=
  ∀ (t : string) (s s1 s2 : node),
    t ≠ "tmp" →
    swap_archives t s = (Ok tt, s1) →
    lookup_path ["tmp"; t] s2 = lookup_path ["tmp"; t] s →
    lookup_path [t] s2 = lookup_path [t] s1 →
    published t (swap_archives t s2).2 = published t s1.

(** ** Example states *)

(** A staging directory that holds a dot-file only. *)
Definition dotfile_only_fs : node :=
  Dir {[ "tmp" := Dir {[ "document" := Dir {[ ".DS_Store" := File (Bytes "") ]} ]} ]}.

(** A staging area with a directory and a regular file. *)
Definition mkdir_p_example_fs : node :=
  Dir {[ "tmp" := Dir {[ "audio" := Dir ∅; "docket" := File (Bytes "x") ]} ]}.

(** The archive of a jurisdiction with one record. *)
Definition swap_example_targz : node :=
  File (Tar (Some 6) [("1.json", File (Bytes "{}"))]).

(** Staged: a court directory with one record, the court's archive and the
    aggregate; published: an older aggregate and an unrelated file. *)
Definition swap_example_fs : node :=
  Dir {[ "document" :=
           Dir {[ "all.tar" := File (Tar None []);
                  "README" := File (Bytes "bulk data") ]};
         "tmp" :=
           Dir {[ "document" :=
                    Dir {[ "scotus" := Dir {[ "1.json" := File (Bytes "{}") ]};
                           "scotus.tar.gz" := swap_example_targz;
                           "all.tar" :=
                             File (Tar None [("scotus.tar.gz", swap_example_targz)])
                        ]} ]} ]}.

(** A processed position without a termination date, a helper that
    returns it, and a document with one judge. *)
Definition example_position : kwargs :=
  list_to_map
    [ ("pending_status", PyBool false); ("inactive_status", PyBool false);
      ("court", PyStr "CA-Super"); ("organization_name", PyNone);
      ("position_type", PyStr "jud"); ("job_title", PyStr "");
      ("date_start", PyStr "2001-05-01"); ("date_termination", PyNone);
      ("termination_reason", PyNone) ].

Definition example_process_positions (positions counties : pyval)
  : outcome (list kwargs) :=
  Ok [example_position].

Definition example_find_or_create_judge (info counties : pyval) (i : nat)
  : M (list pyval) pyval :=
  λ people, (Ok (PyInt (Z.of_nat i)), (people ++ [info])%list).

Definition example_judges_json : pyval :=
  PyDict (list_to_map
    [ ("count", PyInt 1);
      ("judges",
       PyList [PyDict (list_to_map
                 [ ("fullName", PyStr "Jane Roe");
                   ("positions", PyList [PyDict ∅]) ])]) ]).

Definition example_import : outcome unit * database :=
  import_ca_judges (λ _, Ok (PyDict ∅)) example_find_or_create_judge
    example_process_positions (λ d, Ok d) (PyStr "%Y-%m-%d") (λ _, Ok tt)
    false example_judges_json (mkDatabase [] []).

(** A processed position with a termination date and a reason, a helper
    that returns a position of each kind, and the import with it. *)
Definition example_position_terminated : kwargs :=
  <["date_termination" := PyStr "2010-06-30"]>
    (<["termination_reason" := PyStr "retire_vol"]> example_position).

Definition example_process_two_positions (positions counties : pyval)
  : outcome (list kwargs) :=
  Ok [example_position; example_position_terminated].

Definition example_import_two : outcome unit * database :=
  import_ca_judges (λ _, Ok (PyDict ∅)) example_find_or_create_judge
    example_process_two_positions (λ d, Ok d) (PyStr "%Y-%m-%d") (λ _, Ok tt)
    false example_judges_json (mkDatabase [] []).

(** A processed position without a termination date that comes with a
    granularity of its own, and a helper that returns it. *)
Definition example_position_year : kwargs :=
  <["date_granularity_termination" := PyStr "%Y"]> example_position.

Definition example_process_position_year (positions counties : pyval)
  : outcome (list kwargs) :=
  Ok [example_position_year].

(** A staged directory with the name of an archive, and the state in which
    it is staged again after it was published. *)
Definition staged_directory_fs : node :=
  Dir {[ "tmp" :=
           Dir {[ "jurisdiction" :=
                    Dir {[ "a.tar" := Dir {[ "1.json" := File (Bytes "{}") ]} ]} ]} ]}.

Definition staged_directory_again_fs : node :=
  Dir {[ "jurisdiction" :=
           Dir {[ "a.tar" := Dir {[ "1.json" := File (Bytes "{}") ]} ]};
         "tmp" :=
           Dir {[ "jurisdiction" :=
                    Dir {[ "a.tar" := Dir {[ "1.json" := File (Bytes "{}") ]} ]} ]} ]}.

(** The archives of [swap_example_fs] staged again after they were
    published. *)
Definition swap_example_again_fs : node :=
  Dir {[ "document" := Dir (published "document" (swap_archives "document" swap_example_fs).2);
         "tmp" := Dir {[ "document" := Dir (staged "document" swap_example_fs) ]} ]}.

(** Rows of the [Court] and [Document] tables, and a serializer. *)
Definition court_row (key : string) (modified : Z) : pyval :=
  PyObject (list_to_map
    [ ("pk", PyStr key); ("date_modified", PyDatetime modified) ]).

Definition document_row (pk : Z) (court : string) (modified : Z) : pyval :=
  PyObject (list_to_map
    [ ("pk", PyInt pk); ("date_modified", PyDatetime modified);
      ("docket", PyObject (list_to_map [ ("court_id", PyStr court) ])) ]).

Definition example_api (item : pyval) : outcome string := Ok "{}".

Definition example_courts : list pyval :=
  [ court_row "scotus" 0; court_row "ca9" 0 ].

Definition example_documents : list pyval :=
  [ document_row 1 "scotus" 10; document_row 2 "ca9" 20;
    document_row 3 "scotus" 30 ].

(** The records of the three documents on disk, after a first run of
    [write_json_to_disk] in an empty [BULK_DATA_DIR]. *)
Definition example_json_on_disk : node :=
  (write_json_to_disk (λ qs, qs) 100 "document" example_documents
     "docket.court_id" example_api example_courts (Dir ∅)).2.

(** A later time, at which no document was modified within 32 days. *)
Definition example_later : Z := 100 + timedelta_days 40.


(** ** Vocabulary of the further properties *)

(** A plain name: not empty, neither ['.'] nor ['..'], and without a
    ['/'], a NUL or one of the characters ['*'], ['?'] and ['['] that
    [glob] gives a meaning to.  [os.path.join] and [glob] take such a
    name for one component of a path, as it is written. *)
Definition plain_char (c : ascii) : bool :=
  negb (bool_decide (c ∈ ["/"; "*"; "?"; "["; "000"]%char)).

Definition plain_name (x : string) : bool :=
  negb (bool_decide (x ∈ [""; "."; ".."]))
  && forallb plain_char (String.list_ascii_of_string x).

(** A regular file at the path, or at an ancestor of it. *)
Definition file_on_path (p : path) (s : node) : Prop :=
  ∃ q c, q `prefix_of` p ∧ lookup_path q s = Some (File c).

(** The key of the jurisdiction, when it is a string, is a plain name. *)
Definition plain_court (court : pyval) : bool :=
  match getattr court "pk" with
  | Ok (PyStr k) => plain_name k
  | _ => true
  end.

(** The names an item gives to the path of its record are plain: the key
    of its jurisdiction, when it is a string, and the file name made of
    its [pk]. *)
Definition plain_item (court_attr : string) (item : pyval) : bool :=
  match deepgetattr item court_attr with
  | Ok (PyStr k) => plain_name k
  | _ => true
  end
  && match getattr item "pk" with
     | Ok pk =>
         match format_s pk with
         | Ok stem => plain_name (stem ++ ".json")
         | Raise _ => true
         end
     | Raise _ => true
     end.

(** The names an export of the object type [t] makes its paths of are
    plain: the object type, the keys of the jurisdictions and, for every
    row of the table, the key of its jurisdiction and the name of its
    record; and [queryset_generator] hands out rows of the query set
    only. *)
Definition plain_export (queryset_generator : list pyval → list pyval)
    (t : string) (courts : list pyval) (court_attr : string)
    (obj_type : list pyval) : Prop :=
  plain_name t = true ∧ forallb plain_court courts = true ∧
  forallb (plain_item court_attr) obj_type = true ∧
  ∀ qs item, item ∈ queryset_generator qs → item ∈ qs.

(** In the staged directory of every jurisdiction, the entries that
    [glob] matches against ['*.json'] are regular files. *)
Definition json_entries_are_files (t : string) (courts : list pyval)
    (s : node) : bool :=
  forallb (λ court,
    match getattr court "pk" with
    | Ok (PyStr k) =>
        forallb (λ '(x, n), implb (glob_match "*.json" x) (is_file n))
                (map_to_list (dir_entries ["tmp"; t; k] s))
    | _ => true
    end) courts.

(** A path outside the staging directory of [t]. *)
Definition outside_staging (t : string) (q : path) : Prop :=
  ∀ rest, ¬ q `prefix_of` ("tmp" :: t :: rest).

(** The chain holds no dot: it is a single attribute name. *)
Definition has_no_dot (attr : string) : bool :=
  forallb (λ c, negb (Ascii.eqb c "."%char)) (String.list_ascii_of_string attr).

(** One evaluation after another, the first exception being that of the
    whole. *)
Definition and_then {A B} (o : outcome A) (k : A → outcome B) : outcome B :=
  match o with Ok a => k a | Raise e => Raise e end.

(** The keys that the statements on [pos] delete or set. *)
Definition touched_keys : list string :=
  [ "pending_status"; "inactive_status"; "organization_name"; "job_title";
    "date_start"; "date_granularity_start"; "date_termination";
    "date_granularity_termination"; "termination_reason" ].

(** The keys that the statements on [pos] read in every run. *)
Definition required_keys : list string :=
  [ "pending_status"; "inactive_status"; "court"; "position_type";
    "date_start"; "date_termination" ].

(** [row] is stored for the processed position [pos] of [judge]. *)
Definition row_of (prepare : M kwargs unit) (judge : pyval) (pos row : kwargs)
  : Prop :=
  ∃ pos', prepare pos = (Ok tt, pos') ∧ pos' !! "person" = None ∧
          row = <["person" := judge]> pos'.

(** [rows] are the rows of the judge entry [entry.2], the [entry.1]-th of
    the document: one for each processed position, in their order, all
    attached to the judge that [find_or_create_judge] returned. *)
Definition judge_rows
    (find_or_create_judge : pyval → pyval → nat → M (list pyval) pyval)
    (process_positions : pyval → pyval → outcome (list kwargs))
    (prepare : M kwargs unit) (counties : pyval) (entry : nat * pyval)
    (rows : list kwargs) : Prop :=
  ∃ positions judge people people' l,
    getitem entry.2 "positions" = Ok positions ∧
    find_or_create_judge entry.2 counties entry.1 people = (Ok judge, people') ∧
    process_positions positions counties = Ok l ∧
    Forall2 (row_of prepare judge) l rows.

(** The staging directory of another object type, or an entry of
    [BULK_DATA_DIR] other than ['tmp'] and the published directory of
    [t]. *)
Definition other_directory (t : string) (q : path) : Prop :=
  (∃ t', t' ≠ t ∧ q = ["tmp"; t']) ∨ (∃ x, x ≠ t ∧ x ≠ "tmp" ∧ q = [x]).

(** The names the exports of the four object types make their paths of
    are plain. *)
Definition plain_tables (queryset_generator : list pyval → list pyval)
    (Document Audio Docket Court : list pyval) : Prop :=
  plain_export queryset_generator "document" Court "docket.court_id" Document ∧
  plain_export queryset_generator "audio" Court "docket.court_id" Audio ∧
  plain_export queryset_generator "docket" Court "court_id" Docket ∧
  plain_export queryset_generator "jurisdiction" Court "pk" Court.

(** The file [write_json_to_disk] writes for an item:
    [tmp/<obj_type_str>/<court>/<pk>.json]. *)
Definition record_path (t court_attr : string) (item : pyval) : outcome path :=
  and_then (deepgetattr item court_attr) (λ court,
  and_then (as_str court) (λ dir,
  and_then (getattr item "pk") (λ pk,
  and_then (format_s pk) (λ stem,
  Ok ["tmp"; t; dir; stem ++ ".json"])))).

(** A regular file is at the path. *)
Definition file_at (q : path) (s : node) : Prop :=
  ∃ c, lookup_path q s = Some (File c).

(** [ms] are the entries of the directory [kids] that [glob] matches
    against ['*.json'], each once, under its name. *)
Definition json_members (kids : gmap string node) (ms : list (string * node))
  : Prop :=
  NoDup ms.*1 ∧
  ∀ x n, (x, n) ∈ ms ↔ kids !! x = Some n ∧ glob_match "*.json" x = true.

(** The archive of the jurisdiction [k] holds the JSON entries of [kids]. *)
Definition archive_of (t k : string) (kids : gmap string node) (s : node)
  : Prop :=
  ∃ ms, lookup_path ["tmp"; t; k ++ ".tar.gz"] s = Some (File (Tar (Some 6) ms)) ∧
        json_members kids ms.

(** The members of the plain tar file at a path (none when there is no
    such file). *)
Definition old_members (p : path) (s : node) : list (string * node) :=
  match lookup_path p s with
  | Some (File (Tar None ms)) => ms
  | _ => []
  end.

(** The member that [make_archive] adds for an item. *)
Definition tar_record (api : pyval → outcome string) (item : pyval)
  : outcome (string * node) :=
  and_then (api item) (λ json_str,
  and_then (getattr item "pk") (λ pk,
  and_then (format_s pk) (λ stem,
  Ok (stem ++ ".json", File (Bytes json_str))))).

(** The item is attached to the jurisdiction [k]. *)
Definition in_court (court_attr k : string) (item : pyval) : bool :=
  match deepgetattr item court_attr with
  | Ok (PyStr k') => String.eqb k' k
  | _ => false
  end.

(** [ms] are the members added for [items], in their order. *)
Definition records_of (api : pyval → outcome string) (items : list pyval)
    (ms : list (string * node)) : Prop :=
  Forall2 (λ item m, tar_record api item = Ok m) items ms.

(** The members a handle of the dictionary holds. *)
Definition handle_members (d : gmap (Z + string) TarFile) (key : Z + string)
  : list (string * node) :=
  match d !! key with
  | Some h => tar_members h
  | None => []
  end.

(** Two states hold the same published directory and the same staging
    directory for the object type [t]. *)
Definition same_directories (t : string) (s1 s2 : node) : Prop :=
  lookup_path [t] s1 = lookup_path [t] s2 ∧
  lookup_path ["tmp"; t] s1 = lookup_path ["tmp"; t] s2.

(** ** Further example states *)

(** A table of dockets with one row. *)
Definition example_dockets : list pyval :=
  [ PyObject (list_to_map
      [ ("pk", PyInt 5); ("date_modified", PyDatetime 10);
        ("court_id", PyStr "ca9") ]) ].

(** A first export of everything in an empty [BULK_DATA_DIR]: three
    documents, an audio file, a docket and the two jurisdictions. *)
Definition example_loop : outcome unit * node :=
  do_everything_loop (λ qs, qs) (λ _, 100%Z) example_documents
    [document_row 9 "scotus" 5] example_dockets example_courts
    example_api example_api example_api example_api (Dir ∅).

(** The plain tar files of the three documents, after a first run of
    [make_archive] in an empty [BULK_DATA_DIR]. *)
Definition example_tars_on_disk : node :=
  (make_archive (λ qs, qs) 100 "document" example_documents "docket.court_id"
     example_api example_courts (Dir ∅)).2.

(** A compressor that keeps track of the members of a tar file. *)
Definition example_gzip (c : content) : content :=
  match c with
  | Tar None ms => Tar (Some 9) ms
  | _ => Bytes "gz"
  end.

(** A first export of the documents in an empty [BULK_DATA_DIR]. *)
Definition example_export : outcome unit * node :=
  do_everything_body (λ qs, qs) 100 example_courts "document"
    example_documents "docket.court_id" example_api (Dir ∅).

(** A staging directory that holds a record of an earlier run. *)
Definition example_stale_fs : node :=
  Dir {[ "tmp" :=
           Dir {[ "document" :=
                    Dir {[ "scotus" :=
                             Dir {[ "99.json" := File (Bytes "old") ]} ]} ]} ]}.

(** An export of the documents over that staging directory. *)
Definition example_second_export : outcome unit * node :=
  do_everything_body (λ qs, qs) 100 example_courts "document"
    example_documents "docket.court_id" example_api example_stale_fs.

(** * Properties *)

(** ** Paths and directories *)

Lemma makedirs_existing p s :
  lexists p s = true → makedirs p s = inl EEXIST.
Proof.
  revert s. induction p as [|x p IH]; intros s; [done|].
  unfold lexists. destruct s as [c|kids]; simpl; [done|].
  destruct (kids !! x) as [k|] eqn:Hk; simpl; [|done].
  intros H. rewrite IH; [done|]. unfold lexists. by destruct (lookup_path p k).
Qed.

Lemma isdir_lexists p s : isdir p s = true → lexists p s = true.
Proof. unfold isdir, lexists. by destruct (lookup_path p s) as [[]|]. Qed.

(** ** C8: [mkdir_p] *)

(** C8.  Whatever [os.makedirs] does: when it succeeds, so does [mkdir_p];
    when it raises [OSError] with [errno] [EEXIST] and the path is a
    directory, the error is swallowed, [mkdir_p] succeeds and the state
    (with the directory in it) is left as it is; every other exception of
    the directory creation reaches the caller.  With the [os.makedirs] of
    this file system, a call on an existing directory succeeds and changes
    nothing, and a call on an existing regular file raises. *)
Theorem mkdir_p_swallows_only_directory_exists
    (makedirs_impl : path → FS unit) (p : path) (s : node) :
  (∀ s', makedirs_impl p s = (Ok tt, s') →
         mkdir_p_with makedirs_impl p s = (Ok tt, s')) ∧
  (∀ s', makedirs_impl p s = (Raise (OSError EEXIST), s') →
         isdir p s' = true →
         mkdir_p_with makedirs_impl p s = (Ok tt, s')) ∧
  (∀ e s', makedirs_impl p s = (Raise e, s') →
           ¬ (e = OSError EEXIST ∧ isdir p s' = true) →
           mkdir_p_with makedirs_impl p s = (Raise e, s')) ∧
  (isdir p s = true → mkdir_p p s = (Ok tt, s)) ∧
  (lexists p s = true → isdir p s = false →
   mkdir_p p s = (Raise (OSError EEXIST), s)).
Proof.
  repeat split.
  - intros s' H. unfold mkdir_p_with. by rewrite H.
  - intros s' H Hd. unfold mkdir_p_with. rewrite H, Hd. done.
  - intros e s' H Hn. unfold mkdir_p_with. rewrite H.
    destruct e as [errno| | | | | | | |]; try done.
    destruct (bool_decide (errno = EEXIST)) eqn:He; simpl; [|done].
    apply bool_decide_eq_true in He as ->.
    destruct (isdir p s') eqn:Hd; [|done].
    exfalso. apply Hn. done.
  - intros Hd. unfold mkdir_p, mkdir_p_with, os_makedirs.
    rewrite (makedirs_existing p s (isdir_lexists _ _ Hd)). by rewrite Hd.
  - intros Hx Hd. unfold mkdir_p, mkdir_p_with, os_makedirs.
    rewrite (makedirs_existing p s Hx). by rewrite Hd.
Qed.

Lemma mkdir_p_swallows_only_directory_exists_witness :
  mkdir_p ["tmp"; "audio"] mkdir_p_example_fs = (Ok tt, mkdir_p_example_fs) ∧
  mkdir_p ["tmp"; "docket"] mkdir_p_example_fs
    = (Raise (OSError EEXIST), mkdir_p_example_fs) ∧
  mkdir_p_with (λ _, raise (OSError 13)) ["tmp"; "audio"] mkdir_p_example_fs
    = (Raise (OSError 13), mkdir_p_example_fs).
Proof.
  split; [|split].
  - apply (mkdir_p_swallows_only_directory_exists os_makedirs).
    vm_compute; reflexivity.
  - apply (mkdir_p_swallows_only_directory_exists os_makedirs);
      vm_compute; reflexivity.
  - apply (mkdir_p_swallows_only_directory_exists (λ _, raise (OSError 13))).
    + reflexivity.
    + intros [H _]. discriminate H.
Defined.

(** ** [fnmatch] and [glob] *)

Lemma wild_star_any s : wild ["*"%char] s = true.
Proof. induction s as [|c s IH]; [done|]. simpl in *. by rewrite IH. Qed.

Lemma fnmatch_star x : fnmatch x "*" = true.
Proof. apply wild_star_any. Qed.

Lemma glob1_star names :
  glob1 names "*" = filter (λ x, starts_with_dot x = false) names.
Proof.
  unfold glob1. simpl. apply list_filter_filter_r.
  intros x _. apply fnmatch_star.
Qed.

Lemma elem_of_glob1 names pattern x :
  starts_with_dot pattern = false →
  x ∈ glob1 names pattern ↔
  x ∈ names ∧ starts_with_dot x = false ∧ fnmatch x pattern = true.
Proof.
  intros Hp. unfold glob1. rewrite Hp.
  rewrite !list_elem_of_filter. tauto.
Qed.

Lemma NoDup_glob1 names pattern : NoDup names → NoDup (glob1 names pattern).
Proof.
  intros H. unfold glob1. apply NoDup_filter.
  destruct (starts_with_dot pattern); [done|]. by apply NoDup_filter.
Qed.

Lemma elem_of_listing (kids : gmap string node) x :
  x ∈ (map_to_list kids).*1 ↔ is_Some (kids !! x).
Proof.
  rewrite list_elem_of_fmap. split.
  - intros [[y n] [-> H]]. apply elem_of_map_to_list in H. by exists n.
  - intros [n H]. exists (x, n). split; [done|]. by apply elem_of_map_to_list.
Qed.

(** ** C1: the selection *)

(** C1.  In incremental mode the selection holds exactly the rows of the
    table whose [date_modified] is strictly later than [now()] minus 32
    days (2 764 800 000 000 microseconds), each as often and in the order
    the table has it; in full mode the selection is the whole table. *)
Theorem select_qs_incremental_window (now : Z) (objects : list pyval) :
  (∀ row, row ∈ select_qs true now objects ↔
          row ∈ objects ∧
          ∃ d, getattr row "date_modified" = Ok (PyDatetime d) ∧
               (now - 2764800000000 < d)%Z) ∧
  select_qs true now objects `sublist_of` objects ∧
  select_qs false now objects = objects.
Proof.
  split; [|split]; [| apply sublist_filter | done].
  intros row. unfold select_qs, objects_filter_date_modified__gt.
  rewrite list_elem_of_filter. unfold date_modified__gt, timedelta_days.
  split.
  - intros [H Hin]. split; [done|].
    destruct (getattr row "date_modified") as [[]|]; try done.
    eexists. split; [done|]. apply bool_decide_eq_true in H. lia.
  - intros [Hin (d & -> & Hd)]. split; [|done].
    apply bool_decide_eq_true. lia.
Qed.

(** ** C2: the mode decision *)

Lemma glob_star_nonempty p s :
  glob p "*" s ≠ [] ↔ has_visible_entry p s.
Proof.
  unfold glob, listdir, has_visible_entry.
  destruct (lookup_path p s) as [[c|kids]|] eqn:Hl.
  - split; [done|]. intros (? & ? & ? & _). done.
  - rewrite glob1_star. split.
    + intros H.
      destruct (filter _ _) as [|x l] eqn:Hf; [done|].
      assert (Hx : x ∈ filter (λ x, starts_with_dot x = false)
                             (map_to_list kids).*1) by (rewrite Hf; left).
      apply list_elem_of_filter in Hx as [Hd Hx].
      apply elem_of_listing in Hx. by exists kids, x.
    + intros (kids' & x & [= <-] & Hx & Hd) Hnil.
      apply fmap_nil_inv in Hnil.
      assert (Hin : x ∈ filter (λ x, starts_with_dot x = false)
                              (map_to_list kids).*1).
      { apply list_elem_of_filter. split; [done|]. by apply elem_of_listing. }
      rewrite Hnil in Hin. by apply elem_of_nil in Hin.
  - split; [done|]. intros (? & ? & ? & _). done.
Qed.

(** C2, as amended.  The mode decision reads the state without changing
    it, and it is incremental exactly when the staging directory of the
    object type is a directory that holds an entry whose name does not
    begin with a dot. *)
Theorem incremental_iff_visible_staged_entry (obj_type_str : string) (s : node) :
  (test_if_old_bulk_files_exist obj_type_str s).2 = s ∧
  ((test_if_old_bulk_files_exist obj_type_str s).1 = Ok true ↔
   has_visible_entry ["tmp"; obj_type_str] s) ∧
  ((test_if_old_bulk_files_exist obj_type_str s).1 = Ok false ↔
   ¬ has_visible_entry ["tmp"; obj_type_str] s).
Proof.
  pose proof (glob_star_nonempty ["tmp"; obj_type_str] s) as H.
  unfold test_if_old_bulk_files_exist.
  destruct (glob ["tmp"; obj_type_str] "*" s) as [|x l]; simpl.
  - split; [done|]. split.
    + split; [done|]. intros Hv. apply H in Hv. done.
    + split; [|done]. intros _ Hv. apply H in Hv. done.
  - split; [done|]. split.
    + split; [|done]. intros _. by apply H.
    + split; [done|]. intros Hn. exfalso. apply Hn, H. done.
Qed.

(** A staging directory that holds nothing but a dot-file is not empty,
    and the export still runs in full mode. *)
Lemma incremental_iff_any_staged_entry_fails :
  ¬ incremental_iff_any_staged_entry.
Proof.
  intros H. specialize (H "document" dotfile_only_fs).
  assert (Hent : has_entry ["tmp"; "document"] dotfile_only_fs).
  { eexists _, ".DS_Store". split; [reflexivity|]. by eexists. }
  apply H in Hent. vm_compute in Hent. discriminate Hent.
Qed.

(** ** The publisher: views of the two directories *)

Section Publisher.

Lemma assemble_intro s t stg pub :
t ≠ "tmp" →
lookup_path ["tmp"; t] s = Some (Dir stg) →
lookup_path [t] s = Some (Dir pub) →
∃ top tmpk, s = assemble top tmpk t stg pub.
Proof.
intros Ht Hs Hp. destruct s as [c|top]; [done|]. simpl in *.
destruct (top !! "tmp") as [[c|tmpk]|] eqn:Htmp; simpl in Hs; try done.
destruct (tmpk !! t) as [n|] eqn:Hst; simpl in Hs; [|done].
destruct (top !! t) as [m|] eqn:Hpub; simpl in Hp; [|done].
simplify_eq. exists top, tmpk. unfold assemble. f_equal.
rewrite (insert_id tmpk t) by done. rewrite (insert_id top "tmp") by done.
by rewrite insert_id.
Qed.

Section view.
Context (top tmpk : gmap string node) (t : string) (Ht : t ≠ "tmp").
Implicit Types stg pub : gmap string node.

Lemma lookup_staging_dir stg pub :
  lookup_path ["tmp"; t] (assemble top tmpk t stg pub) = Some (Dir stg).
Proof.
  unfold assemble. cbn [lookup_path].
  rewrite lookup_insert_ne by done. rewrite lookup_insert_eq. cbn.
  by rewrite lookup_insert_eq.
Qed.

Lemma lookup_staging_entry stg pub x :
  lookup_path ["tmp"; t; x] (assemble top tmpk t stg pub) = stg !! x.
Proof.
  unfold assemble. cbn [lookup_path].
  rewrite lookup_insert_ne by done. rewrite lookup_insert_eq. cbn.
  rewrite lookup_insert_eq. cbn. by destruct (stg !! x).
Qed.

Lemma lookup_published_dir stg pub :
  lookup_path [t] (assemble top tmpk t stg pub) = Some (Dir pub).
Proof. unfold assemble. cbn [lookup_path]. by rewrite lookup_insert_eq. Qed.

Lemma lookup_published_entry stg pub x :
  lookup_path [t; x] (assemble top tmpk t stg pub) = pub !! x.
Proof.
  unfold assemble. cbn [lookup_path]. rewrite lookup_insert_eq. cbn.
  by destruct (pub !! x).
Qed.

Lemma lookup_published_in stg pub x y k :
  pub !! x = Some (Dir k) →
  lookup_path [t; x; y] (assemble top tmpk t stg pub) = k !! y.
Proof.
  intros Hk. unfold assemble. cbn [lookup_path]. rewrite lookup_insert_eq.
  cbn. rewrite Hk. cbn. by destruct (k !! y).
Qed.

Lemma put_staging stg pub x v :
  put_path ["tmp"; t; x] v (assemble top tmpk t stg pub)
  = Some (assemble top tmpk t (upd x v stg) pub).
Proof.
  unfold assemble. cbn [put_path].
  rewrite lookup_insert_ne by done. rewrite lookup_insert_eq. cbn.
  rewrite lookup_insert_eq. cbn. f_equal. f_equal.
  rewrite insert_insert_eq.
  rewrite (insert_insert_ne _ "tmp" t) by done.
  rewrite insert_insert_eq. rewrite (insert_insert_ne _ t "tmp") by done.
  unfold upd. apply insert_insert_ne. done.
Qed.

Lemma put_published stg pub x v :
  put_path [t; x] v (assemble top tmpk t stg pub)
  = Some (assemble top tmpk t stg (upd x v pub)).
Proof.
  unfold assemble. cbn [put_path]. rewrite lookup_insert_eq. cbn.
  rewrite insert_insert_eq. unfold upd. destruct v; done.
Qed.

Lemma put_published_in stg pub x y k v :
  pub !! x = Some (Dir k) →
  put_path [t; x; y] v (assemble top tmpk t stg pub)
  = Some (assemble top tmpk t stg (<[x := Dir (upd y v k)]> pub)).
Proof.
  intros Hk. unfold assemble. cbn [put_path]. rewrite lookup_insert_eq. cbn.
  rewrite Hk. cbn. rewrite insert_insert_eq. unfold upd. destruct v; done.
Qed.
End view.

Lemma prefix_of_cons_ne {A} (x y : A) (l k : list A) :
x ≠ y → ¬ (x :: l) `prefix_of` (y :: k).
Proof. intros Hne [m Hm]. simplify_eq/=. Qed.

#[local] Arguments lookup_path : simpl never.
#[local] Arguments put_path : simpl never.
#[local] Arguments makedirs : simpl never.
#[local] Arguments open_wb : simpl never.

Section move.
Context (top tmpk : gmap string node) (t : string) (Ht : t ≠ "tmp").
Implicit Types stg pub : gmap string node.

Lemma shutil_move_staged stg pub x n :
  stg !! x = Some n →
  shutil_move ["tmp"; t; x] [t; x] (assemble top tmpk t stg pub)
  = match publish_entry x n pub with
    | Ok pub' => (Ok tt, assemble top tmpk t (delete x stg) pub')
    | Raise e => (Raise e, assemble top tmpk t stg pub)
    end.
Proof.
  intros Hx.
  assert (Hne : ∀ l, ["tmp"; t; x] ≠ t :: l) by (intros l [=]; congruence).
  assert (Hpre : ∀ l, ¬ ["tmp"; t; x] `prefix_of` t :: l).
  { intros l. apply prefix_of_cons_ne. congruence. }
  unfold shutil_move, isdir, lexists, publish_entry, landing.
  rewrite lookup_published_entry.
  destruct (pub !! x) as [[c|k]|] eqn:Hp.
  - (* a published file of that name *)
    unfold os_rename. rewrite lookup_staging_entry by done. rewrite Hx. cbn.
    rewrite bool_decide_eq_false_2 by apply Hne.
    rewrite bool_decide_eq_false_2 by apply Hpre.
    rewrite lookup_published_entry, Hp.
    destruct n as [c'|kids].
    + rewrite put_staging by done. cbn. by rewrite put_published.
    + unfold move_fallback. rewrite lookup_staging_entry by done.
      rewrite Hx. rewrite bool_decide_eq_false_2 by apply Hpre.
      rewrite makedirs_existing; [done|].
      unfold lexists. by rewrite lookup_published_entry, Hp.
  - (* a published directory of that name *)
    rewrite bool_decide_eq_false_2 by apply Hne. cbn [app basename List.last].
    rewrite (lookup_published_in top tmpk t _ _ _ _ k) by done.
    destruct (k !! x) as [m|] eqn:Hk; [done|].
    unfold os_rename. rewrite lookup_staging_entry by done. rewrite Hx. cbn.
    rewrite bool_decide_eq_false_2 by apply Hne.
    rewrite bool_decide_eq_false_2 by apply Hpre.
    rewrite (lookup_published_in top tmpk t _ _ _ _ k) by done. rewrite Hk.
    rewrite put_staging by done. cbn.
    rewrite (put_published_in top tmpk t _ _ _ _ k) by done.
    by destruct n.
  - (* nothing published under that name *)
    unfold os_rename. rewrite lookup_staging_entry by done. rewrite Hx. cbn.
    rewrite bool_decide_eq_false_2 by apply Hne.
    rewrite bool_decide_eq_false_2 by apply Hpre.
    rewrite lookup_published_entry, Hp.
    rewrite put_staging by done. cbn. rewrite put_published. by destruct n.
Qed.

Lemma moves_publish_all names stg pub :
  NoDup names →
  (∀ x, x ∈ names → is_Some (stg !! x)) →
  for_each ((λ x, (["tmp"; t] ++ [x])%list) <$> names)
           (λ f, shutil_move f [t; basename f])
           (assemble top tmpk t stg pub)
  = let '(r, (stg', pub')) := publish_all names stg pub in
    (r, assemble top tmpk t stg' pub').
Proof.
  intros Hnd. revert stg pub.
  induction Hnd as [|x names Hx Hnd IH]; intros stg pub Hin; [done|].
  destruct (Hin x) as [n Hn]; [left|].
  cbn [fmap list_fmap for_each publish_all app]. unfold bind at 1.
  change (basename ["tmp"; t; x]) with x.
  rewrite (shutil_move_staged stg pub x n) by done. rewrite Hn.
  destruct (publish_entry x n pub) as [pub'|e]; [|done].
  apply IH. intros y Hy. rewrite lookup_delete_ne.
  - apply Hin. by right.
  - intros ->. done.
Qed.
End move.

Lemma publish_all_frame names stg pub r stg' pub' y :
publish_all names stg pub = (r, (stg', pub')) →
y ∉ names → stg' !! y = stg !! y ∧ pub' !! y = pub !! y.
Proof.
revert stg pub. induction names as [|x names IH]; intros stg pub H Hy.
- by simplify_eq/=.
- apply not_elem_of_cons in Hy as [Hne Hy]. cbn in H.
  destruct (stg !! x) as [n|]; [|by simplify_eq].
  unfold publish_entry in H.
  destruct (landing x n (pub !! x)) as [v|e]; [|by simplify_eq].
  destruct (IH _ _ H Hy) as [-> ->].
  by rewrite lookup_delete_ne, lookup_insert_ne.
Qed.

(** What has become of a name the publisher was to move: moved, or (after
  a failure) still where it was. *)
Lemma publish_all_cases names stg pub r stg' pub' x :
NoDup names →
publish_all names stg pub = (r, (stg', pub')) →
x ∈ names →
(∃ n v, stg !! x = Some n ∧ landing x n (pub !! x) = Ok v ∧
        stg' !! x = None ∧ pub' !! x = Some v) ∨
(r ≠ Ok tt ∧ stg' !! x = stg !! x ∧ pub' !! x = pub !! x).
Proof.
intros Hnd. revert stg pub.
induction Hnd as [|y names Hy Hnd IH]; intros stg pub H Hx.
{ by apply elem_of_nil in Hx. }
cbn in H.
destruct (stg !! y) as [n|] eqn:Hn; [|by right; simplify_eq].
unfold publish_entry in H.
destruct (landing y n (pub !! y)) as [v|e] eqn:Hl; [|by right; simplify_eq].
apply elem_of_cons in Hx as [->|Hx].
- left. exists n, v. destruct (publish_all_frame _ _ _ _ _ _ y H Hy) as [-> ->].
  by rewrite lookup_delete_eq, lookup_insert_eq.
- assert (x ≠ y) by (intros ->; done).
  destruct (IH _ _ H Hx) as [(n' & v' & H1 & H2 & H3 & H4)|(Hr & H1 & H2)].
  + left. exists n', v'. rewrite lookup_delete_ne in H1 by done.
    rewrite lookup_insert_ne in H2 by done. done.
  + right. rewrite lookup_delete_ne in H1 by done.
    rewrite lookup_insert_ne in H2 by done. done.
Qed.

Lemma publish_all_ok names stg pub :
NoDup names →
(∀ x, x ∈ names → ∃ n v, stg !! x = Some n ∧ landing x n (pub !! x) = Ok v) →
(publish_all names stg pub).1 = Ok tt.
Proof.
intros Hnd. revert stg pub.
induction Hnd as [|y names Hy Hnd IH]; intros stg pub H; [done|].
cbn. destruct (H y) as (n & v & -> & Hl); [left|].
unfold publish_entry. rewrite Hl. apply IH. intros x Hx.
assert (x ≠ y) by (intros ->; done).
rewrite lookup_delete_ne, lookup_insert_ne by done. apply H. by right.
Qed.

Lemma elem_of_archive_names stg x :
x ∈ archive_names stg ↔ is_Some (stg !! x) ∧ glob_match "*.tar*" x = true.
Proof.
unfold archive_names. rewrite elem_of_glob1 by done.
rewrite elem_of_listing. unfold glob_match.
change (starts_with_dot "*.tar*") with false. cbn [orb].
rewrite andb_true_iff, negb_true_iff. tauto.
Qed.

Lemma NoDup_archive_names stg : NoDup (archive_names stg).
Proof. apply NoDup_glob1, NoDup_fst_map_to_list. Qed.

Lemma glob_staged t pattern s :
glob ["tmp"; t] pattern s
= (λ x, (["tmp"; t] ++ [x])%list) <$> glob1 (map_to_list (staged t s)).*1 pattern.
Proof.
unfold glob, listdir, staged, dir_entries.
destruct (lookup_path ["tmp"; t] s) as [[c|kids]|]; try done.
all: rewrite map_to_list_empty; cbn; unfold glob1;
     by destruct (starts_with_dot pattern).
Qed.

Lemma mkdir_p_published t s s1 :
t ≠ "tmp" →
mkdir_p [t] s = (Ok tt, s1) →
(∃ pub, lookup_path [t] s1 = Some (Dir pub)) ∧
published t s1 = published t s ∧
lookup_path ["tmp"; t] s1 = lookup_path ["tmp"; t] s.
Proof.
intros Ht. unfold mkdir_p, mkdir_p_with, os_makedirs, published, dir_entries.
destruct s as [c|top]; [done|]. unfold makedirs.
destruct (top !! t) as [n|] eqn:Hn.
- cbn. unfold isdir. unfold lookup_path at 1. rewrite Hn. cbn.
  destruct n as [c|pub]; [done|]. intros [= <-].
  unfold lookup_path at 1 2 3. rewrite Hn. cbn. eauto.
- intros [= <-]. unfold lookup_path at 1 2 3.
  rewrite lookup_insert_eq, Hn. cbn. split; [eauto|]. split; [done|].
  unfold lookup_path. by rewrite lookup_insert_ne.
Qed.

Lemma staged_assemble top tmpk t stg pub :
t ≠ "tmp" → staged t (assemble top tmpk t stg pub) = stg.
Proof.
intros Ht. unfold staged, dir_entries. by rewrite lookup_staging_dir.
Qed.

Lemma published_assemble top tmpk t stg pub :
published t (assemble top tmpk t stg pub) = pub.
Proof. unfold published, dir_entries. by rewrite lookup_published_dir. Qed.

Lemma archive_names_empty : archive_names ∅ = [].
Proof. unfold archive_names. by rewrite map_to_list_empty. Qed.

(** One run of the publisher, seen on the two directories. *)
Lemma swap_archives_run t s r s' :
t ≠ "tmp" →
swap_archives t s = (r, s') →
(mkdir_p [t] s = (r, s') ∧ r ≠ Ok tt) ∨
(∃ s1, mkdir_p [t] s = (Ok tt, s1) ∧ isdir [t] s' = true ∧
       publish_all (archive_names (staged t s)) (staged t s) (published t s)
       = (r, (staged t s', published t s'))).
Proof.
intros Ht. unfold swap_archives. unfold bind at 1.
destruct (mkdir_p [t] s) as [[[]|e] s1] eqn:Hm.
2:{ intros [= <- <-]. by left. }
intros H. right. exists s1. split; [done|].
destruct (mkdir_p_published t s s1 Ht Hm) as ([pub Hpub] & Hp & Hs).
unfold bind, get in H. rewrite glob_staged in H.
assert (Hst : staged t s1 = staged t s).
{ unfold staged, dir_entries. by rewrite Hs. }
assert (Hpb : published t s1 = pub).
{ unfold published, dir_entries. by rewrite Hpub. }
rewrite <- Hst, <- Hp, Hpb.
destruct (lookup_path ["tmp"; t] s1) as [[c|stg]|] eqn:Hl.
2:{ destruct (assemble_intro s1 t stg pub Ht Hl Hpub) as (top & tmpk & ->).
    rewrite staged_assemble in * by done.
    fold (archive_names stg) in H.
    rewrite moves_publish_all in H; first last.
    - intros x Hx. by apply elem_of_archive_names in Hx as [? _].
    - apply NoDup_archive_names.
    - done.
    - destruct (publish_all (archive_names stg) stg pub) as [r' [stg' pub']].
      simplify_eq. rewrite staged_assemble, published_assemble by done.
      split; [|done]. unfold isdir. by rewrite lookup_published_dir. }
all: assert (He : staged t s1 = ∅) by (unfold staged, dir_entries; by rewrite Hl).
all: rewrite He in *; rewrite map_to_list_empty in H; cbn in H.
all: unfold ret in H; simplify_eq.
all: rewrite archive_names_empty; cbn; rewrite He.
all: unfold isdir, published, dir_entries; by rewrite Hpub.
Qed.

Lemma mkdir_p_isdir p s : isdir p s = true → mkdir_p p s = (Ok tt, s).
Proof.
intros Hd. unfold mkdir_p, mkdir_p_with, os_makedirs.
rewrite (makedirs_existing p s (isdir_lexists _ _ Hd)). by rewrite Hd.
Qed.

(** ** C6: the publisher *)

(** C6.  For an object type other than ['tmp'] (they are ['document'],
  ['audio'], ['docket'], ['jurisdiction'] and ['citation']): after a run
  of [swap_archives] that returns, every regular file of the staging
  directory whose name [glob] matches against ['*.tar*'] is gone from
  staging and is published under its name with its content, in place of
  the file published under that name before, if any (when a
  {e directory} of that name is published, [shutil.move] puts the file
  into that directory); every published entry whose name is not that of
  a matching staged entry is what it was.  The run does return when the
  published directory exists or can be made, the matching staged entries
  are files and no directory is published under one of their names. *)
Theorem swap_archives_publishes (t : string) (s : node) :
t ≠ "tmp" →
(∀ s', swap_archives t s = (Ok tt, s') →
   (∀ x c, staged t s !! x = Some (File c) → glob_match "*.tar*" x = true →
      staged t s' !! x = None ∧
      match published t s !! x with
      | Some (Dir k) => published t s' !! x = Some (Dir (<[x := File c]> k))
      | _ => published t s' !! x = Some (File c)
      end) ∧
   (∀ y, ¬ (is_Some (staged t s !! y) ∧ glob_match "*.tar*" y = true) →
      published t s' !! y = published t s !! y)) ∧
((mkdir_p [t] s).1 = Ok tt →
 (∀ x n, staged t s !! x = Some n → glob_match "*.tar*" x = true →
     is_file n = true ∧ ∀ k, published t s !! x ≠ Some (Dir k)) →
 (swap_archives t s).1 = Ok tt).
Proof.
intros Ht. split.
- intros s' Hrun.
  destruct (swap_archives_run t s _ _ Ht Hrun) as [[_ ?]|(s1 & Hm & _ & Hp)]; [done|].
  split.
  + intros x c Hx Hmatch.
    assert (Hin : x ∈ archive_names (staged t s)).
    { apply elem_of_archive_names. eauto. }
    destruct (publish_all_cases _ _ _ _ _ _ x (NoDup_archive_names _) Hp Hin)
      as [(n & v & Hn & Hl & Hs' & Hp')|[? _]]; [|done].
    split; [done|]. rewrite Hx in Hn. injection Hn as <-.
    unfold landing in Hl.
    destruct (published t s !! x) as [[c'|k]|]; [by simplify_eq..| |by simplify_eq].
    destruct (k !! x); by simplify_eq.
  + intros y Hy.
    eapply publish_all_frame; [exact Hp|].
    intros Hin. apply Hy. by apply elem_of_archive_names.
- intros Hm Hfiles.
  destruct (swap_archives t s) as [r s'] eqn:Hrun.
  destruct (swap_archives_run t s _ _ Ht Hrun) as [[Hm' Hr]|(s1 & _ & _ & Hp)].
  { rewrite Hm' in Hm. done. }
  cbn. assert (Hok := publish_all_ok (archive_names (staged t s))
                        (staged t s) (published t s) (NoDup_archive_names _)).
  rewrite Hp in Hok. apply Hok.
  intros x [[n Hn] Hmatch]%elem_of_archive_names.
  destruct (Hfiles x n Hn Hmatch) as [Hf Hnd].
  exists n. unfold landing.
  destruct n as [c|]; [|done].
  destruct (published t s !! x) as [[c'|k]|]; eauto.
  by destruct (Hnd k).
Qed.

Lemma swap_archives_publishes_witness :
(swap_archives "document" swap_example_fs).1 = Ok tt ∧
staged "document" (swap_archives "document" swap_example_fs).2 !! "all.tar"
  = None ∧
published "document" (swap_archives "document" swap_example_fs).2 !! "all.tar"
  = Some (File (Tar None [("scotus.tar.gz", swap_example_targz)])) ∧
published "document" (swap_archives "document" swap_example_fs).2 !! "README"
  = Some (File (Bytes "bulk data")).
Proof.
assert (Ht : "document" ≠ "tmp") by discriminate.
destruct (swap_archives_publishes "document" swap_example_fs Ht) as [Hmove _].
destruct (Hmove (swap_archives "document" swap_example_fs).2) as [Harch Hrest].
{ vm_compute. reflexivity. }
split; [vm_compute; reflexivity|].
destruct (Harch "all.tar" (Tar None [("scotus.tar.gz", swap_example_targz)]))
  as [Hgone Hthere]; [vm_compute; reflexivity..|].
split; [exact Hgone|]. split; [exact Hthere|].
rewrite (Hrest "README"); [vm_compute; reflexivity|].
intros [_ H]. vm_compute in H. discriminate H.
Defined.

(** ** C7: the publisher is idempotent *)

(** C7, as amended.  After a run of [swap_archives] that returns, a second
  run returns too and leaves the whole state, and so the published
  directory, as the first run left it.  And when the same content is
  staged once more and published over the result of the first run, the
  published directory is again as the first run left it, provided every
  staged entry that [glob] matches against ['*.tar*'] is a regular file
  (a staged directory of such a name is moved, the second time, into the
  directory the first run published under that name). *)
Theorem swap_archives_idempotent (t : string) (s s1 : node) :
t ≠ "tmp" →
swap_archives t s = (Ok tt, s1) →
swap_archives t s1 = (Ok tt, s1) ∧
∀ s2, lookup_path ["tmp"; t] s2 = lookup_path ["tmp"; t] s →
      lookup_path [t] s2 = lookup_path [t] s1 →
      (∀ x n, staged t s !! x = Some n → glob_match "*.tar*" x = true →
              is_file n = true) →
      published t (swap_archives t s2).2 = published t s1.
Proof.
intros Ht Hrun.
destruct (swap_archives_run t s _ _ Ht Hrun) as [[_ ?]|(s0 & Hm & Hd & Hp)]; [done|].
pose proof (NoDup_archive_names (staged t s)) as Hnd.
split.
- (* nothing is left to move *)
  assert (Hgone : archive_names (staged t s1) = []).
  { apply elem_of_nil_inv. intros x [Hsome Hmatch]%elem_of_archive_names.
    destruct (decide (x ∈ archive_names (staged t s))) as [Hin|Hout].
    - destruct (publish_all_cases _ _ _ _ _ _ x Hnd Hp Hin)
        as [(_ & _ & _ & _ & Hnone & _)|[? _]]; [|done].
      rewrite Hnone in Hsome. by destruct Hsome.
    - destruct (publish_all_frame _ _ _ _ _ _ x Hp Hout) as [Hsame _].
      apply Hout, elem_of_archive_names. by rewrite <- Hsame. }
  unfold swap_archives, bind, get. rewrite (mkdir_p_isdir _ _ Hd).
  rewrite glob_staged. fold (archive_names (staged t s1)). by rewrite Hgone.
- (* the same archives staged once more *)
  intros s2 Hstg Hpub Hfiles.
  assert (Hd2 : isdir [t] s2 = true) by (unfold isdir in *; by rewrite Hpub).
  assert (Hs2 : staged t s2 = staged t s).
  { unfold staged, dir_entries. by rewrite Hstg. }
  assert (Hp2 : published t s2 = published t s1).
  { unfold published, dir_entries. by rewrite Hpub. }
  destruct (swap_archives t s2) as [r2 s3] eqn:Hrun2.
  destruct (swap_archives_run t s2 _ _ Ht Hrun2) as [[Hm2 Hr]|(? & _ & _ & Hq)].
  { rewrite (mkdir_p_isdir _ _ Hd2) in Hm2. by simplify_eq. }
  rewrite Hs2, Hp2 in Hq. cbn. apply map_eq. intros y.
  destruct (decide (y ∈ archive_names (staged t s))) as [Hin|Hout].
  2:{ by destruct (publish_all_frame _ _ _ _ _ _ y Hq Hout) as [_ ->]. }
  destruct (publish_all_cases _ _ _ _ _ _ y Hnd Hq Hin)
    as [(n & v & Hn & Hl & _ & Hv)|(_ & _ & ->)]; [|done].
  destruct (publish_all_cases _ _ _ _ _ _ y Hnd Hp Hin)
    as [(n1 & v1 & Hn1 & Hl1 & _ & Hv1)|[? _]]; [|done].
  rewrite Hn in Hn1. injection Hn1 as <-.
  apply elem_of_archive_names in Hin as [_ Hmatch].
  specialize (Hfiles y n Hn Hmatch). destruct n as [c|]; [|done].
  rewrite Hv, Hv1. rewrite Hv1 in Hl. f_equal.
  unfold landing in Hl, Hl1.
  destruct (published t s !! y) as [[c'|k]|]; [by simplify_eq| |by simplify_eq].
  destruct (k !! y); [done|]. simplify_eq.
  by rewrite lookup_insert_eq in Hl.
Qed.

Lemma swap_archives_idempotent_witness :
swap_archives "document" (swap_archives "document" swap_example_fs).2
= (Ok tt, (swap_archives "document" swap_example_fs).2) ∧
published "document" (swap_archives "document" swap_example_again_fs).2
= published "document" (swap_archives "document" swap_example_fs).2.
Proof.
assert (Ht : "document" ≠ "tmp") by discriminate.
destruct (swap_archives_idempotent "document" swap_example_fs
            (swap_archives "document" swap_example_fs).2 Ht)
  as [Hsame Hagain].
{ vm_compute. reflexivity. }
split; [exact Hsame|].
apply Hagain.
- vm_compute. reflexivity.
- vm_compute. reflexivity.
- apply (bool_decide_unpack
           (map_Forall (λ x n, glob_match "*.tar*" x = true → is_file n = true)
                       (staged "document" swap_example_fs))).
  vm_compute. exact I.
Defined.

(** A staged directory named ['a.tar'] is published by the first run;
  staged again, the second run finds a directory of that name published
  and moves the staged one into it, so that the published ['a.tar'] now
  holds an ['a.tar'] of its own. *)
Lemma swap_twice_unchanged_fails : ¬ swap_twice_unchanged.
Proof.
intros H.
assert (Ht : "jurisdiction" ≠ "tmp") by discriminate.
specialize (H "jurisdiction" staged_directory_fs
              (swap_archives "jurisdiction" staged_directory_fs).2
              staged_directory_again_fs Ht).
assert (Heq : published "jurisdiction"
                (swap_archives "jurisdiction" staged_directory_again_fs).2
              = published "jurisdiction"
                  (swap_archives "jurisdiction" staged_directory_fs).2).
{ apply H; vm_compute; reflexivity. }
apply (f_equal (λ m : gmap string node,
                  match m !! "a.tar" with
                  | Some (Dir k) => bool_decide (is_Some (k !! "a.tar"))
                  | _ => false
                  end)) in Heq.
vm_compute in Heq. discriminate Heq.
Qed.

End Publisher.

(** ** The judge importer: preparing a position *)

Section ImportProperties.
Variable load_json_file : string → outcome pyval.
Variable find_or_create_judge : pyval → pyval → nat → M (list pyval) pyval.
Variable process_positions : pyval → pyval → outcome (list kwargs).
Variable convert_date_to_gran_format : pyval → outcome pyval.
Variable GRANULARITY_DAY : pyval.
Variable Position_full_clean : kwargs → outcome unit.

#[local] Abbreviation prepare := (prepare_position convert_date_to_gran_format GRANULARITY_DAY).

Ltac norm_lookup :=
  repeat first
    [ rewrite lookup_insert_eq | rewrite lookup_delete_eq
    | rewrite lookup_insert_ne by discriminate
    | rewrite lookup_delete_ne by discriminate ].

Ltac norm_lookup_in H :=
  repeat first
    [ rewrite lookup_insert_eq in H | rewrite lookup_delete_eq in H
    | rewrite lookup_insert_ne in H by discriminate
    | rewrite lookup_delete_ne in H by discriminate ].

Ltac step_pos :=
  match goal with
  | H : context [match ?m !! ?k with _ => _ end] |- _ =>
      let E := fresh "E" in
      destruct (m !! k) eqn:E; norm_lookup_in E; [|discriminate H]
  | H : context [if truthy ?v then _ else _] |- _ =>
      let E := fresh "T" in destruct (truthy v) eqn:E
  | H : context [match convert_date_to_gran_format ?v with _ => _ end] |- _ =>
      let E := fresh "C" in
      destruct (convert_date_to_gran_format v) eqn:E; [|discriminate H]
  end.

Lemma prepare_position_spec (pos pos' : kwargs) :
  prepare pos = (Ok tt, pos') →
  (∀ c, pos' !! "court" = Some c → truthy c = true →
        pos' !! "organization_name" = None) ∧
  (∀ p, pos' !! "position_type" = Some p → truthy p = true →
        pos' !! "job_title" = None) ∧
  ∃ d, pos !! "date_termination" = Some d ∧
       if truthy d then
         pos' !! "termination_reason" = pos !! "termination_reason" ∧
         pos' !! "date_granularity_termination" = Some GRANULARITY_DAY
       else
         pos' !! "termination_reason" = None ∧
         pos' !! "date_termination" = None ∧
         pos' !! "date_granularity_termination"
           = pos !! "date_granularity_termination".
Proof.
  unfold prepare_position, bind, pos_del, pos_get, pos_set, when, lift, ret.
  intros H. repeat step_pos.
  all: injection H as <-.
  all: repeat match goal with
              | H1 : ?m !! ?k = Some ?a, H2 : ?m !! ?k = Some ?b |- _ =>
                  assert (b = a) by congruence; subst b; clear H2
              end.
  all: split; [|split].
  all: try (intros v Hv Tv; norm_lookup_in Hv; norm_lookup; congruence).
  all: eexists; (split; [eassumption|]).
  all: match goal with T : truthy ?d = _ |- context [truthy ?d] => rewrite T end.
  all: norm_lookup; done.
Qed.

Lemma extends_with_refl P db db' :
  Position_objects db' = Position_objects db → extends_with P db db'.
Proof. intros H. exists []. by rewrite app_nil_r. Qed.

Lemma extends_with_trans P db1 db2 db3 :
  extends_with P db1 db2 → extends_with P db2 db3 → extends_with P db1 db3.
Proof.
  intros (r1 & H1 & F1) (r2 & H2 & F2). exists (r1 ++ r2)%list.
  split; [by rewrite H2, H1, app_assoc|]. by apply Forall_app.
Qed.

Lemma extends_with_weaken (P Q : kwargs → Prop) db db' :
  (∀ row, P row → Q row) → extends_with P db db' → extends_with Q db db'.
Proof.
  intros HPQ (rows & H & F). exists rows. split; [done|].
  eapply Forall_impl; eauto.
Qed.

Lemma for_each_extends {A} P (l : list A) (body : A → M database unit) :
  (∀ x, x ∈ l → ∀ db, extends_with P db (body x db).2) →
  ∀ db, extends_with P db (for_each l body db).2.
Proof.
  induction l as [|x l IH]; intros Hbody db.
  - by apply extends_with_refl.
  - cbn. unfold bind. pose proof (Hbody x ltac:(left) db) as Hx.
    destruct (body x db) as [[[]|e] db1]; [|done].
    eapply extends_with_trans; [exact Hx|].
    apply IH. intros y Hy. apply Hbody. by right.
Qed.

Lemma import_position_extends judge pos db :
  extends_with (created_from prepare pos) db
    (import_position convert_date_to_gran_format GRANULARITY_DAY
                     Position_full_clean judge pos db).2.
Proof.
  unfold import_position.
  destruct (prepare pos) as [[[]|e] pos'] eqn:Hprep; [|by apply extends_with_refl].
  unfold Position_objects_create.
  destruct (pos' !! "person") eqn:Hperson; [by apply extends_with_refl|].
  destruct (Position_full_clean _); [|by apply extends_with_refl].
  eexists [_]. split; [done|]. constructor; [|done].
  by exists pos', judge.
Qed.

#[local] Abbreviation imported_row :=
  (λ row, ∃ pos, processed process_positions pos ∧ created_from prepare pos row).

Lemma import_judge_extends counties entry db :
  extends_with imported_row db
    (import_judge find_or_create_judge process_positions
       convert_date_to_gran_format GRANULARITY_DAY Position_full_clean
       counties entry db).2.
Proof.
  destruct entry as [i info]. unfold import_judge, bind, lift.
  destruct (getitem info "fullName"); [|by apply extends_with_refl].
  destruct (getitem info "positions") as [positions|]; [|by apply extends_with_refl].
  unfold on_people.
  destruct (find_or_create_judge info counties i (Person_objects db))
    as [[judge|e] people]; [|by apply extends_with_refl].
  destruct (process_positions positions counties) as [l|e] eqn:Hl;
    [|by apply extends_with_refl].
  eapply extends_with_trans; [by apply (extends_with_refl _ db (mkDatabase people (Position_objects db)))|].
  apply for_each_extends. intros pos Hpos db'.
  eapply extends_with_weaken; [|apply import_position_extends].
  intros row Hrow. exists pos. split; [|done]. by exists positions, counties, l.
Qed.

Lemma import_ca_judges_extends log file db :
  extends_with imported_row db
    (import_ca_judges load_json_file find_or_create_judge process_positions
       convert_date_to_gran_format GRANULARITY_DAY Position_full_clean
       log file db).2.
Proof.
  unfold import_ca_judges, bind, lift.
  destruct (load_json_file _) as [counties|]; [|by apply extends_with_refl].
  destruct (getitem file "count"); [|by apply extends_with_refl].
  destruct (getitem file "judges") as [judges|]; [|by apply extends_with_refl].
  destruct (iterate judges) as [judge_info|]; [|by apply extends_with_refl].
  apply for_each_extends. intros entry _ db'. apply import_judge_extends.
Qed.

(** ** C5: mutually exclusive fields *)

(** C5.  Whatever the outcome of the import, the table of positions is
    the old table followed by the rows the import created, and in each of
    these rows: when [court] holds a value (one that [if pos["court"]]
    takes as true) there is no [organization_name] key, and when
    [position_type] holds a value there is no [job_title] key. *)
Theorem import_exclusive_field_pairs (log : bool) (file : pyval) (db : database) :
  ∃ rows,
    Position_objects
      (import_ca_judges load_json_file find_or_create_judge process_positions
         convert_date_to_gran_format GRANULARITY_DAY Position_full_clean
         log file db).2
    = (Position_objects db ++ rows)%list ∧
    Forall (λ row,
      (∀ c, row !! "court" = Some c → truthy c = true →
            row !! "organization_name" = None) ∧
      (∀ p, row !! "position_type" = Some p → truthy p = true →
            row !! "job_title" = None)) rows.
Proof.
  eapply extends_with_weaken; [|apply import_ca_judges_extends].
  intros row (pos & _ & pos' & judge & Hprep & Hperson & ->).
  destruct (prepare_position_spec _ _ Hprep) as (Hc & Hp & _).
  split; intros v Hv Tv.
  - rewrite lookup_insert_ne in Hv by discriminate.
    rewrite lookup_insert_ne by discriminate. eauto.
  - rewrite lookup_insert_ne in Hv by discriminate.
    rewrite lookup_insert_ne by discriminate. eauto.
Qed.

End ImportProperties.

(** ** What directory creation and file writes leave alone *)

Lemma isdir_cons x q kids :
  isdir (x :: q) (Dir kids)
  = match kids !! x with Some k => isdir q k | None => false end.
Proof. unfold isdir. cbn. by destruct (kids !! x). Qed.

Lemma isdir_file q c : isdir q (File c) = false.
Proof. by destruct q. Qed.

Lemma lookup_path_cons x q kids :
  lookup_path (x :: q) (Dir kids)
  = match kids !! x with Some k => lookup_path q k | None => None end.
Proof. cbn. by destruct (kids !! x). Qed.

Lemma isdir_fresh_dirs p : isdir p (fresh_dirs p) = true.
Proof.
  induction p as [|x p IH]; [done|].
  cbn [fresh_dirs]. by rewrite isdir_cons, lookup_singleton_eq.
Qed.

Lemma fresh_dirs_no_file p q c : lookup_path q (fresh_dirs p) ≠ Some (File c).
Proof.
  revert q. induction p as [|x p IH]; intros [|y q]; cbn [fresh_dirs]; try done.
  rewrite lookup_path_cons. destruct (decide (x = y)) as [->|].
  - rewrite lookup_singleton_eq. apply IH.
  - by rewrite lookup_singleton_ne.
Qed.

Lemma makedirs_isdir p s s' : makedirs p s = inr s' → isdir p s' = true.
Proof.
  revert s s'. induction p as [|x p IH]; intros [c|kids] s' H; try done.
  cbn in H. destruct (kids !! x) as [k|] eqn:Hk.
  - destruct (makedirs p k) as [|k'] eqn:Hm; [done|]. simplify_eq.
    rewrite isdir_cons, lookup_insert_eq. eauto.
  - simplify_eq. rewrite isdir_cons, lookup_insert_eq. apply isdir_fresh_dirs.
Qed.

Lemma makedirs_preserves_isdir p q s s' :
  makedirs p s = inr s' → isdir q s = true → isdir q s' = true.
Proof.
  revert q s s'. induction p as [|x p IH]; intros q [c|kids] s' H; try done.
  cbn in H. destruct q as [|y q]; intros Hq.
  { by destruct (kids !! x) as [k|]; [destruct (makedirs p k)|]; simplify_eq. }
  rewrite isdir_cons in Hq.
  destruct (kids !! x) as [k|] eqn:Hk.
  - destruct (makedirs p k) as [|k'] eqn:Hm; [done|]. simplify_eq.
    rewrite isdir_cons. destruct (decide (x = y)) as [->|].
    + rewrite lookup_insert_eq. rewrite Hk in Hq. eauto.
    + by rewrite lookup_insert_ne.
  - simplify_eq. rewrite isdir_cons. destruct (decide (x = y)) as [->|].
    + by rewrite Hk in Hq.
    + by rewrite lookup_insert_ne.
Qed.

Lemma makedirs_files p q s s' c :
  makedirs p s = inr s' →
  lookup_path q s' = Some (File c) → lookup_path q s = Some (File c).
Proof.
  revert q s s'. induction p as [|x p IH]; intros q [c'|kids] s' H; try done.
  cbn in H. destruct q as [|y q]; intros Hq.
  { by destruct (kids !! x) as [k|]; [destruct (makedirs p k)|]; simplify_eq. }
  destruct (kids !! x) as [k|] eqn:Hk.
  - destruct (makedirs p k) as [|k'] eqn:Hm; [done|]. simplify_eq.
    rewrite lookup_path_cons in *. destruct (decide (x = y)) as [->|].
    + rewrite lookup_insert_eq in Hq. rewrite Hk. eauto.
    + by rewrite lookup_insert_ne in Hq.
  - simplify_eq. rewrite lookup_path_cons in *.
    destruct (decide (x = y)) as [->|].
    + rewrite lookup_insert_eq in Hq. by apply fresh_dirs_no_file in Hq.
    + by rewrite lookup_insert_ne in Hq.
Qed.

Lemma open_wb_on_file p c c0 : ∃ e, open_wb p c (File c0) = inl e.
Proof. destruct p as [|x [|y p]]; by eexists. Qed.

Lemma open_wb_preserves_isdir p q c s s' :
  open_wb p c s = inr s' → isdir q s = true → isdir q s' = true.
Proof.
  revert q s s'. induction p as [|x p IH]; intros q [c'|kids] s' H; try done.
  { destruct (open_wb_on_file (x :: p) c c') as [e He]. congruence. }
  destruct q as [|y q]; intros Hq.
  { destruct p; cbn in H; repeat case_match; by simplify_eq. }
  rewrite isdir_cons in Hq. destruct p as [|z p].
  - cbn in H.
    assert (s' = Dir (<[x := File c]> kids) ∧ ∀ k, kids !! x ≠ Some (Dir k))
      as [-> Hnd] by (by repeat case_match; simplify_eq).
    rewrite isdir_cons. destruct (decide (x = y)) as [->|].
    + destruct (kids !! y) as [[c'|k]|]; try done.
      by rewrite isdir_file in Hq.
    + by rewrite lookup_insert_ne.
  - change (open_wb (x :: z :: p) c (Dir kids)) with
      (match kids !! x with
       | None => inl ENOENT
       | Some k => match open_wb (z :: p) c k with
                   | inl e => inl e
                   | inr k' => inr (Dir (<[x := k']> kids))
                   end
       end) in H.
    destruct (kids !! x) as [k|] eqn:Hk; [|done].
    destruct (open_wb (z :: p) c k) as [|k'] eqn:Hm; [done|]. simplify_eq.
    rewrite isdir_cons. destruct (decide (x = y)) as [->|].
    + rewrite lookup_insert_eq. rewrite Hk in Hq. eauto.
    + by rewrite lookup_insert_ne.
Qed.

Lemma open_wb_files p q c c' s s' :
  open_wb p c s = inr s' →
  lookup_path q s' = Some (File c') →
  c' = c ∨ lookup_path q s = Some (File c').
Proof.
  revert q s s'. induction p as [|x p IH]; intros q [c0|kids] s' H; try done.
  { destruct (open_wb_on_file (x :: p) c c0) as [e He]. congruence. }
  destruct q as [|y q]; intros Hq.
  { destruct p; cbn in H; repeat case_match; by simplify_eq. }
  destruct p as [|z p].
  - cbn in H.
    assert (s' = Dir (<[x := File c]> kids)) as ->
      by (by repeat case_match; simplify_eq).
    rewrite lookup_path_cons in *. destruct (decide (x = y)) as [->|].
    + rewrite lookup_insert_eq in Hq. destruct q; cbn in Hq; [left; congruence|done].
    + rewrite lookup_insert_ne in Hq by done. by right.
  - change (open_wb (x :: z :: p) c (Dir kids)) with
      (match kids !! x with
       | None => inl ENOENT
       | Some k => match open_wb (z :: p) c k with
                   | inl e => inl e
                   | inr k' => inr (Dir (<[x := k']> kids))
                   end
       end) in H.
    destruct (kids !! x) as [k|] eqn:Hk; [|done].
    destruct (open_wb (z :: p) c k) as [|k'] eqn:Hm; [done|]. simplify_eq.
    rewrite lookup_path_cons in *. destruct (decide (x = y)) as [->|].
    + rewrite lookup_insert_eq in Hq. rewrite Hk. eauto.
    + rewrite lookup_insert_ne in Hq by done. by right.
Qed.

(** A file written into a directory, read back next to its siblings. *)
Lemma open_wb_sibling (d : path) x y c s s' :
  open_wb (d ++ [x])%list c s = inr s' →
  lookup_path (d ++ [y])%list s'
  = if decide (x = y) then Some (File c) else lookup_path (d ++ [y])%list s.
Proof.
  revert s s'. induction d as [|z d IH]; intros [c0|kids] s' H.
  1,3: match type of H with open_wb ?p _ _ = _ =>
         destruct (open_wb_on_file p c c0) as [e He]; congruence end.
  - cbn in H.
    assert (s' = Dir (<[x := File c]> kids)) as -> by (by repeat case_match; simplify_eq).
    cbn [app]. rewrite !lookup_path_cons. case_decide as Hxy.
    + subst. by rewrite lookup_insert_eq.
    + by rewrite lookup_insert_ne.
  - cbn [app] in *. destruct (d ++ [x])%list as [|w l] eqn:Hd.
    { by destruct d. }
    change (open_wb (z :: w :: l) c (Dir kids)) with
      (match kids !! z with
       | None => inl ENOENT
       | Some k => match open_wb (w :: l) c k with
                   | inl e => inl e
                   | inr k' => inr (Dir (<[z := k']> kids))
                   end
       end) in H.
    destruct (kids !! z) as [k|] eqn:Hk; [|done].
    destruct (open_wb (w :: l) c k) as [|k'] eqn:Hm; [done|]. simplify_eq.
    rewrite !lookup_path_cons, lookup_insert_eq, Hk. by apply IH.
Qed.

(** ** Invariants of a computation *)

Lemma preserves_ret {A} P (a : A) : preserves P (ret a).
Proof. by intros s. Qed.

Lemma preserves_lift {A} P (o : outcome A) : preserves P (lift o).
Proof. by intros s. Qed.

Lemma preserves_get P : preserves P get.
Proof. by intros s. Qed.

Lemma preserves_bind {A B} P (m : FS A) (k : A → FS B) :
  preserves P m → (∀ a, preserves P (k a)) → preserves P (bind m k).
Proof.
  intros Hm Hk s Hs. unfold bind. specialize (Hm s Hs).
  destruct (m s) as [[a|e] s1]; cbn in *; [exact (Hk a s1 Hm)|done].
Qed.

Lemma preserves_for_each {A} P (l : list A) (body : A → FS unit) :
  (∀ x, preserves P (body x)) → preserves P (for_each l body).
Proof.
  intros Hbody. induction l as [|x l IH]; [by intros s|].
  cbn. apply preserves_bind; [done|]. by intros _.
Qed.

Lemma preserves_fold_each {A B} P (l : list A) (acc : B) (body : B → A → FS B) :
  (∀ acc x, preserves P (body acc x)) → preserves P (fold_each l acc body).
Proof.
  intros Hbody. revert acc. induction l as [|x l IH]; intros acc; [by intros s|].
  cbn. apply preserves_bind; [done|]. done.
Qed.

Lemma preserves_mkdir_p P p :
  (∀ s s', makedirs p s = inr s' → P s → P s') → preserves P (mkdir_p p).
Proof.
  intros HP s Hs. unfold mkdir_p, mkdir_p_with, os_makedirs.
  destruct (makedirs p s) as [e|s'] eqn:Hm; [|by eapply HP].
  by destruct (bool_decide (e = EEXIST) && isdir p s).
Qed.

Lemma preserves_write_file P p c :
  (∀ s s', open_wb p c s = inr s' → P s → P s') → preserves P (write_file p c).
Proof.
  intros HP s Hs. unfold write_file.
  destruct (open_wb p c s) as [e|s'] eqn:Hm; [done|by eapply HP].
Qed.

Lemma preserves_test P t : preserves P (test_if_old_bulk_files_exist t).
Proof. intros s Hs. unfold test_if_old_bulk_files_exist. by destruct (glob _ _ _). Qed.

Lemma test_if_old_bulk_files_exist_run t s :
  test_if_old_bulk_files_exist t s = (Ok (incremental_at t s), s).
Proof.
  unfold incremental_at, test_if_old_bulk_files_exist. by destruct (glob _ _ _).
Qed.



Lemma make_court_dirs_no_new_file s0 t courts :
  preserves (no_new_file s0) (make_court_dirs t courts).
Proof.
  apply preserves_for_each. intros court.
  apply preserves_bind; [apply preserves_lift|]. intros pk.
  apply preserves_bind; [apply preserves_lift|]. intros dir.
  apply preserves_mkdir_p. intros s s' Hm Hs q c Hq.
  apply Hs. by eapply makedirs_files.
Qed.

Lemma tarfile_open_a_no_new_archive s0 p :
  preserves (no_new_archive s0) (tarfile_open_a p).
Proof.
  intros s Hs. unfold tarfile_open_a.
  destruct (lookup_path p s) as [[[| |[]]|]|]; try done.
  refine (preserves_bind _ _ _ _ _ s Hs); [|by intros; apply preserves_ret].
  apply preserves_write_file. intros s1 s2 Hw H1 q lvl ms Hq.
  destruct (open_wb_files _ _ _ _ _ _ Hw Hq) as [|Hold]; [done|]. by apply H1.
Qed.

Lemma open_tar_files_no_new_archive s0 t courts :
  preserves (no_new_archive s0) (open_tar_files t courts).
Proof.
  apply preserves_bind.
  { apply preserves_mkdir_p. intros s s' Hm Hs q lvl ms Hq.
    apply Hs. by eapply makedirs_files. }
  intros _. apply preserves_bind; [apply preserves_test|]. intros b.
  apply preserves_bind.
  { apply preserves_fold_each. intros acc court.
    repeat (apply preserves_bind; [apply preserves_lift|]; intros ?).
    apply preserves_bind; [apply tarfile_open_a_no_new_archive|].
    intros; apply preserves_ret. }
  intros tar_files. apply preserves_bind; [apply tarfile_open_a_no_new_archive|].
  intros; apply preserves_ret.
Qed.

Section EmptySelection.
Variable queryset_generator : list pyval → list pyval.

Lemma write_json_to_disk_empty now t obj_type court_attr api courts s :
  select_qs (incremental_at t s) now obj_type = [] →
  write_json_to_disk queryset_generator now t obj_type court_attr api courts s
  = match make_court_dirs t courts s with
    | (Ok _, s') => (Raise IndexError, s')
    | (Raise e, s') => (Raise e, s')
    end.
Proof.
  intros Hsel. unfold write_json_to_disk. unfold bind at 1.
  rewrite test_if_old_bulk_files_exist_run. unfold bind at 1.
  fold (make_court_dirs t courts).
  destruct (make_court_dirs t courts s) as [[[]|e] s']; [|done].
  by rewrite Hsel.
Qed.

Lemma make_archive_empty now t obj_type court_attr api courts s :
  select_qs (incremental_at t (mkdir_p ["tmp"; t] s).2) now obj_type = [] →
  make_archive queryset_generator now t obj_type court_attr api courts s
  = match open_tar_files t courts s with
    | (Ok _, s') => (Raise IndexError, s')
    | (Raise e, s') => (Raise e, s')
    end.
Proof.
  intros Hsel. unfold make_archive, open_tar_files, bind.
  destruct (mkdir_p ["tmp"; t] s) as [[[]|e] s1]; [|done]. cbn [snd] in Hsel.
  rewrite test_if_old_bulk_files_exist_run.
  destruct (fold_each courts _ _ s1) as [[tar_files|e] s2]; [|done].
  destruct (tarfile_open_a _ s2) as [[tar|e] s3]; [|done].
  unfold ret. by rewrite Hsel.
Qed.

(** ** C9: an empty selection *)

(** C9.  When the selection of [write_json_to_disk] is empty in the mode
    the run decides on, the call raises, and so does the body of
    [do_everything] for that object type, in the same state: the archiver
    and the publisher are not reached.  The state it leaves holds no
    regular file that was not there before (directories may have been
    made), and the exception is the [IndexError] of [qs[0]] whenever the
    directories of the jurisdictions could be made.  [make_archive] raises
    too on an empty selection, with [IndexError] whenever the staging
    directory could be made and the tar files opened; no record reaches an
    archive: every archive of the state it leaves was there before, with
    the same members (the files it has opened are left unfinished). *)
Theorem empty_selection_aborts (now : Z) (t : string) (obj_type : list pyval)
    (court_attr : string) (api : pyval → outcome string) (courts : list pyval)
    (s : node) :
  (select_qs (incremental_at t s) now obj_type = [] →
   ∃ e s',
     write_json_to_disk queryset_generator now t obj_type court_attr api courts s
       = (Raise e, s') ∧
     do_everything_body queryset_generator now courts t obj_type court_attr api s
       = (Raise e, s') ∧
     no_new_file s s' ∧
     ((make_court_dirs t courts s).1 = Ok tt → e = IndexError)) ∧
  (select_qs (incremental_at t (mkdir_p ["tmp"; t] s).2) now obj_type = [] →
   ∃ e s',
     make_archive queryset_generator now t obj_type court_attr api courts s
       = (Raise e, s') ∧
     no_new_archive s s' ∧
     (∀ r, (open_tar_files t courts s).1 = Ok r → e = IndexError)).
Proof.
  split; intros Hsel.
  - pose proof (make_court_dirs_no_new_file s t courts s) as Hfiles.
    assert (Hrun := write_json_to_disk_empty now t obj_type court_attr api courts s Hsel).
    destruct (make_court_dirs t courts s) as [[[]|e] s'] eqn:Hdirs.
    + exists IndexError, s'. split; [done|]. split.
      { unfold do_everything_body, bind. by rewrite Hrun. }
      split; [|done]. apply Hfiles. by intros q c.
    + exists e, s'. split; [done|]. split.
      { unfold do_everything_body, bind. by rewrite Hrun. }
      split; [|done]. apply Hfiles. by intros q c.
  - pose proof (open_tar_files_no_new_archive s t courts s) as Hfiles.
    assert (Hrun := make_archive_empty now t obj_type court_attr api courts s Hsel).
    destruct (open_tar_files t courts s) as [[r|e] s'] eqn:Hopen.
    + exists IndexError, s'. split; [done|]. split; [|done].
      apply Hfiles. by intros q lvl ms.
    + exists e, s'. split; [done|]. split; [|done].
      apply Hfiles. by intros q lvl ms.
Qed.
End EmptySelection.

Lemma empty_selection_aborts_witness :
  ∃ e s',
    write_json_to_disk (λ qs, qs) example_later "document" example_documents
      "docket.court_id" example_api example_courts example_json_on_disk
    = (Raise e, s') ∧
    do_everything_body (λ qs, qs) example_later example_courts "document"
      example_documents "docket.court_id" example_api example_json_on_disk
    = (Raise e, s') ∧
    no_new_file example_json_on_disk s' ∧
    ((make_court_dirs "document" example_courts example_json_on_disk).1 = Ok tt →
     e = IndexError).
Proof.
  apply (empty_selection_aborts (λ qs, qs) example_later "document"
           example_documents "docket.court_id" example_api example_courts
           example_json_on_disk).
  vm_compute. reflexivity.
Defined.

(** ** Inversion of successful runs *)

Lemma bind_ok_inv {St A B} (m : M St A) (k : A → M St B) s b s' :
  bind m k s = (Ok b, s') → ∃ a s1, m s = (Ok a, s1) ∧ k a s1 = (Ok b, s').
Proof. unfold bind. destruct (m s) as [[a|e] s1]; [eauto|done]. Qed.

Lemma lift_ok_inv {St A} (o : outcome A) (s : St) a s' :
  lift o s = (Ok a, s') → o = Ok a ∧ s' = s.
Proof. unfold lift. by intros [= -> ->]. Qed.

Lemma mkdir_p_ok_isdir p s s' : mkdir_p p s = (Ok tt, s') → isdir p s' = true.
Proof.
  unfold mkdir_p, mkdir_p_with, os_makedirs.
  destruct (makedirs p s) as [e|s1] eqn:Hm.
  - destruct (bool_decide (e = EEXIST)); [|done].
    destruct (isdir p s) eqn:Hd; [|done]. by intros [= <-].
  - intros [= <-]. by eapply makedirs_isdir.
Qed.

Lemma preserves_isdir_mkdir_p q p : preserves (λ s, isdir q s = true) (mkdir_p p).
Proof. apply preserves_mkdir_p. intros s s' H. by eapply makedirs_preserves_isdir. Qed.

Lemma preserves_isdir_write_file q p c :
  preserves (λ s, isdir q s = true) (write_file p c).
Proof. apply preserves_write_file. intros s s' H. by eapply open_wb_preserves_isdir. Qed.

Lemma preserves_tar_add P tar name arcname : preserves P (tar_add tar name arcname).
Proof. intros s Hs. unfold tar_add. by destruct (lookup_path name s). Qed.


Section CourtDirectories.
Variable queryset_generator : list pyval → list pyval.

End CourtDirectories.

Lemma tar_and_compress_preserves_isdir q t courts :
  preserves (λ s, isdir q s = true) (tar_and_compress_all_json_files t courts).
Proof.
  unfold tar_and_compress_all_json_files, tarfile_open_w, tar_close.
  apply preserves_bind.
  { apply preserves_for_each. intros court.
    repeat (apply preserves_bind; [apply preserves_lift|]; intros ?).
    apply preserves_bind.
    { apply preserves_bind; [apply preserves_isdir_write_file|].
      intros; apply preserves_ret. }
    intros tar. apply preserves_bind; [apply preserves_lift|]. intros dir.
    apply preserves_bind; [apply preserves_get|]. intros s.
    apply preserves_bind; [|intros; apply preserves_isdir_write_file].
    apply preserves_fold_each. intros; apply preserves_tar_add. }
  intros _. apply preserves_bind.
  { apply preserves_bind; [apply preserves_isdir_write_file|].
    intros; apply preserves_ret. }
  intros tar. apply preserves_bind; [|intros; apply preserves_isdir_write_file].
  apply preserves_fold_each. intros acc court.
  repeat (apply preserves_bind; [apply preserves_lift|]; intros ?).
  apply preserves_tar_add.
Qed.

Lemma mkdir_p_raise p s e s' : mkdir_p p s = (Raise e, s') → s' = s.
Proof.
  unfold mkdir_p, mkdir_p_with, os_makedirs.
  destruct (makedirs p s); [|done].
  destruct (bool_decide _ && isdir p s); congruence.
Qed.


Lemma swap_archives_staging_frame t s r s' y :
  t ≠ "tmp" →
  swap_archives t s = (r, s') →
  glob_match "*.tar*" y = false →
  staged t s' !! y = staged t s !! y.
Proof.
  intros Ht Hrun Hy.
  destruct (swap_archives_run t s _ _ Ht Hrun) as [[Hm Hr]|(s1 & _ & _ & Hp)].
  - destruct r as [[]|e]; [done|]. by apply mkdir_p_raise in Hm as ->.
  - refine (proj1 (publish_all_frame _ _ _ _ _ _ y Hp _)).
    intros [_ Hmatch]%elem_of_archive_names. congruence.
Qed.




Section StagingKept.
Variable queryset_generator : list pyval → list pyval.

(** ** C10: what the publisher moves and what it leaves in staging *)

End StagingKept.



(** ** The archivers *)

Lemma string_length_app (a b : string) :
  String.length (a ++ b) = String.length a + String.length b.
Proof. induction a as [|c a IH]; [done|]. simpl. by f_equal. Qed.

Lemma all_tar_not_targz stem : "all.tar" ≠ stem ++ ".tar.gz".
Proof.
  intros H. destruct stem as [|c stem]; [discriminate H|].
  apply (f_equal String.length) in H.
  rewrite string_length_app in H. cbn in H. lia.
Qed.

Lemma write_file_ok_inv p c s s' :
  write_file p c s = (Ok tt, s') → open_wb p c s = inr s'.
Proof. unfold write_file. destruct (open_wb p c s); by intros [=]; subst. Qed.

Lemma write_file_sibling (d : path) x y c s s' :
  write_file (d ++ [x])%list c s = (Ok tt, s') →
  lookup_path (d ++ [y])%list s'
  = if decide (x = y) then Some (File c) else lookup_path (d ++ [y])%list s.
Proof. intros H%write_file_ok_inv. by apply open_wb_sibling. Qed.

Lemma write_file_staged t x y c s s' :
  write_file ["tmp"; t; x] c s = (Ok tt, s') →
  lookup_path ["tmp"; t; y] s'
  = if decide (x = y) then Some (File c) else lookup_path ["tmp"; t; y] s.
Proof. apply (write_file_sibling ["tmp"; t]). Qed.



Lemma fold_tar_add {A} (l : list A) (f : A → path * string) tar s tar' s' :
  fold_each l tar (λ tar x, tar_add tar (f x).1 (f x).2) s = (Ok tar', s') →
  s' = s ∧ tar_name tar' = tar_name tar ∧ tar_level tar' = tar_level tar.
Proof.
  revert tar. induction l as [|x l IH]; intros tar H.
  { cbn in H. unfold ret in H. by simplify_eq. }
  cbn in H. apply bind_ok_inv in H as (tar1 & s1 & Hadd & H).
  unfold tar_add in Hadd. destruct (lookup_path _ s); [|done]. simplify_eq.
  destruct (IH _ H) as (-> & -> & ->). done.
Qed.

Lemma archive_court_writes t court s s' :
  archive_court t court s = (Ok tt, s') →
  ∃ pk stem, getattr court "pk" = Ok pk ∧ format_s pk = Ok stem ∧
    is_gz_archive ["tmp"; t; stem ++ ".tar.gz"] s' ∧
    ∀ y, y ≠ stem ++ ".tar.gz" →
         lookup_path ["tmp"; t; y] s' = lookup_path ["tmp"; t; y] s.
Proof.
  intros H. unfold archive_court in H.
  apply bind_ok_inv in H as (pk & ? & [Hpk ->]%lift_ok_inv & H).
  apply bind_ok_inv in H as (stem & ? & [Hstem ->]%lift_ok_inv & H).
  apply bind_ok_inv in H as (tar & s1 & Hopen & H).
  unfold tarfile_open_w in Hopen.
  apply bind_ok_inv in Hopen as ([] & s1' & Hw1 & Hret). cbv [ret] in Hret.
  simplify_eq.
  apply bind_ok_inv in H as (dir & ? & [Hdir ->]%lift_ok_inv & H).
  apply bind_ok_inv in H as (s0 & ? & Hget & H). cbv [get] in Hget. simplify_eq.
  apply bind_ok_inv in H as (tar' & s2 & Hfold & Hclose).
  apply (fold_tar_add _ (λ name, (name, basename name))) in Hfold
    as (-> & Hname & Hlevel).
  unfold tar_close in Hclose. rewrite Hname, Hlevel in Hclose. cbn in Hclose.
  exists pk, stem. split; [done|]. split; [done|].
  pose proof (write_file_staged t _ (stem ++ ".tar.gz") _ _ _ Hclose) as Hsame.
  rewrite decide_True in Hsame by done. split; [by eexists|].
  intros y Hy.
  rewrite (write_file_staged t _ y _ _ _ Hclose).
  rewrite decide_False by done.
  rewrite (write_file_staged t _ y _ _ _ Hw1).
  by rewrite decide_False.
Qed.

Lemma archive_courts_keep_gz t courts s s' stem :
  for_each courts (archive_court t) s = (Ok tt, s') →
  is_gz_archive ["tmp"; t; stem ++ ".tar.gz"] s →
  is_gz_archive ["tmp"; t; stem ++ ".tar.gz"] s'.
Proof.
  revert s. induction courts as [|d courts IH]; intros s H Hgz.
  { cbn in H. unfold ret in H. by simplify_eq. }
  cbn in H. apply bind_ok_inv in H as ([] & s2 & Hd & H).
  apply (IH s2 H).
  destruct (archive_court_writes _ _ _ _ Hd) as (pk' & stem' & _ & _ & Hgz' & Hother).
  destruct (decide (stem ++ ".tar.gz" = stem' ++ ".tar.gz")) as [->|Hne]; [done|].
  destruct Hgz as [recs Hrecs]. exists recs. by rewrite Hother.
Qed.

Lemma archive_courts_writes t courts s s' court :
  for_each courts (archive_court t) s = (Ok tt, s') →
  court ∈ courts →
  ∃ pk stem, getattr court "pk" = Ok pk ∧ format_s pk = Ok stem ∧
             is_gz_archive ["tmp"; t; stem ++ ".tar.gz"] s'.
Proof.
  revert s. induction courts as [|c courts IH]; intros s H Hin.
  { by apply elem_of_nil in Hin. }
  cbn in H. apply bind_ok_inv in H as ([] & s1 & Hc & H).
  apply elem_of_cons in Hin as [->|Hin]; [|by eapply IH].
  destruct (archive_court_writes _ _ _ _ Hc) as (pk & stem & Hpk & Hstem & Hgz & _).
  exists pk, stem. split; [done|]. split; [done|].
  by eapply archive_courts_keep_gz.
Qed.

(** The second loop: the aggregate takes one member per jurisdiction. *)
Lemma aggregate_members t courts tar s tar' s' :
  fold_each courts tar (λ tar court,
    pk <- lift (getattr court "pk") ;;
    stem <- lift (format_s pk) ;;
    let targz := ["tmp"; t; stem ++ ".tar.gz"] in
    tar_add tar targz (basename targz)) s = (Ok tar', s') →
  (∀ court, court ∈ courts → ∃ pk stem,
     getattr court "pk" = Ok pk ∧ format_s pk = Ok stem ∧
     is_gz_archive ["tmp"; t; stem ++ ".tar.gz"] s) →
  s' = s ∧ tar_name tar' = tar_name tar ∧ tar_level tar' = tar_level tar ∧
  ∃ ms, tar_members tar' = (tar_members tar ++ ms)%list ∧
        Forall2 (court_member t s) courts ms.
Proof.
  revert tar. induction courts as [|c courts IH]; intros tar H Hgz.
  { cbn in H. unfold ret in H. simplify_eq. repeat split; try done.
    exists []. by rewrite app_nil_r. }
  cbn [fold_each] in H. apply bind_ok_inv in H as (tar1 & s1 & Hadd & H).
  apply bind_ok_inv in Hadd as (pk & ? & [Hpk ->]%lift_ok_inv & Hadd).
  apply bind_ok_inv in Hadd as (stem & ? & [Hstem ->]%lift_ok_inv & Hadd).
  destruct (Hgz c ltac:(left)) as (pk' & stem' & Hpk' & Hstem' & [recs Hrecs]).
  rewrite Hpk in Hpk'. injection Hpk' as <-.
  rewrite Hstem in Hstem'. injection Hstem' as <-.
  unfold tar_add in Hadd. cbv zeta in Hadd.
  rewrite Hrecs in Hadd. cbn [basename List.last] in Hadd. simplify_eq.
  destruct (IH _ H) as (-> & Hn & Hl & ms & Hms & Hall).
  { intros court Hin. apply Hgz. by right. }
  repeat split; try done. cbn in Hms.
  exists ((stem ++ ".tar.gz", File (Tar (Some 6) recs)) :: ms). split.
  { rewrite Hms. by rewrite <- app_assoc. }
  constructor; [|done]. by exists pk, stem, recs.
Qed.

Lemma court_members_count t s courts ms :
  Forall2 (court_member t s) courts ms →
  sum_list (archive_records <$> ms.*2) = sum_list (court_records t s <$> courts).
Proof.
  induction 1 as [|court m courts ms Hm _ IH]; [done|].
  cbn. rewrite IH. f_equal.
  destruct Hm as (pk & stem & recs & Hpk & Hstem & -> & Hl).
  unfold court_records, court_archive. by rewrite Hpk, Hstem, Hl.
Qed.

(** [tar_and_compress_all_json_files]: the aggregate holds the archive of
    every jurisdiction, once for each jurisdiction. *)
Lemma tar_and_compress_members (t : string) (courts : list pyval)
    (s s' : node) :
  tar_and_compress_all_json_files t courts s = (Ok tt, s') →
  ∃ ms,
    lookup_path ["tmp"; t; "all.tar"] s' = Some (File (Tar None ms)) ∧
    Forall2 (court_member t s') courts ms ∧
    aggregate_records (File (Tar None ms))
    = sum_list (court_records t s' <$> courts).
Proof.
  intros H. unfold tar_and_compress_all_json_files in H.
  apply bind_ok_inv in H as ([] & s1 & Hloop & H).
  change (for_each courts (archive_court t) s = (Ok tt, s1)) in Hloop.
  apply bind_ok_inv in H as (tar & s2 & Hopen & H).
  unfold tarfile_open_w in Hopen.
  apply bind_ok_inv in Hopen as ([] & s2' & Hw & Hret). cbv [ret] in Hret.
  simplify_eq.
  apply bind_ok_inv in H as (tar' & s3 & Hfold & Hclose).
  assert (Hother : ∀ stem c (s3 s4 : node),
    write_file ["tmp"; t; "all.tar"] c s3 = (Ok tt, s4) →
    lookup_path ["tmp"; t; stem ++ ".tar.gz"] s4
    = lookup_path ["tmp"; t; stem ++ ".tar.gz"] s3).
  { intros stem c sa sb Hsb.
    rewrite (write_file_staged t _ (stem ++ ".tar.gz") _ _ _ Hsb).
    rewrite decide_False; [done|apply all_tar_not_targz]. }
  apply aggregate_members in Hfold as (-> & Hn & Hl & ms & Hms & Hall).
  2:{ intros court Hin.
      destruct (archive_courts_writes _ _ _ _ _ Hloop Hin)
        as (pk & stem & Hpk & Hstem & [recs Hrecs]).
      exists pk, stem. split; [done|]. split; [done|]. exists recs.
      by rewrite (Hother _ _ _ _ Hw). }
  unfold tar_close in Hclose. rewrite Hn, Hl, Hms in Hclose. cbn in Hclose.
  exists ms.
  assert (Hall' : Forall2 (court_member t s') courts ms).
  { eapply Forall2_impl; [exact Hall|].
    intros court m (pk & stem & recs & Hpk & Hstem & -> & Hlook).
    exists pk, stem, recs. repeat split; try done.
    by rewrite (Hother _ _ _ _ Hclose). }
  split; [|split; [done|]].
  - rewrite (write_file_staged t _ "all.tar" _ _ _ Hclose).
    by rewrite decide_True.
  - by apply court_members_count.
Qed.

Lemma string_app_inj_r (a b c : string) : a ++ c = b ++ c → a = b.
Proof.
  revert b. induction a as [|x a IH]; intros [|y b] H; try done.
  - apply (f_equal String.length) in H.
    rewrite !string_length_app in H. simpl in H. lia.
  - apply (f_equal String.length) in H.
    rewrite !string_length_app in H. simpl in H. lia.
  - simpl in H. injection H as -> H. f_equal. by apply IH.
Qed.

Lemma makedirs_child_absent p y s s' :
  makedirs p s = inr s' →
  lookup_path (p ++ [y])%list s' = None ∧ lookup_path (p ++ [y])%list s = None.
Proof.
  revert s s'. induction p as [|x p IH]; intros [c|kids] s' H; try done.
  cbn in H. cbn [app]. destruct (kids !! x) as [k|] eqn:Hk.
  - destruct (makedirs p k) as [|k'] eqn:Hm; [done|]. simplify_eq.
    rewrite !lookup_path_cons, lookup_insert_eq, Hk. by apply IH.
  - simplify_eq. rewrite !lookup_path_cons, lookup_insert_eq, Hk.
    split; [|done]. clear. induction p as [|z p IH]; cbn; [done|].
    rewrite lookup_singleton_eq. cbn. apply IH.
Qed.

Lemma mkdir_p_staging_records t y s s' :
  mkdir_p ["tmp"; t] s = (Ok tt, s') →
  tar_records ["tmp"; t; y] s' = tar_records ["tmp"; t; y] s.
Proof.
  unfold mkdir_p, mkdir_p_with, os_makedirs, tar_records.
  destruct (makedirs ["tmp"; t] s) as [e|s1] eqn:Hm.
  - destruct (bool_decide _ && isdir _ s); [|done]. by intros [= <-].
  - intros [= <-].
    destruct (makedirs_child_absent _ y _ _ Hm) as [H1 H2].
    cbn [app] in H1, H2. by rewrite H1, H2.
Qed.

Lemma tarfile_open_a_spec t x s h s' :
  tarfile_open_a ["tmp"; t; x] s = (Ok h, s') →
  tar_name h = ["tmp"; t; x] ∧ tar_level h = None ∧
  length (tar_members h) = tar_records ["tmp"; t; x] s ∧
  ∀ y, tar_records ["tmp"; t; y] s' = tar_records ["tmp"; t; y] s.
Proof.
  unfold tarfile_open_a, tar_records.
  destruct (lookup_path ["tmp"; t; x] s) as [[[| |[]]|]|] eqn:Hl; try done.
  - intros [= <- <-]. done.
  - intros ([] & s1 & Hw & Hret)%bind_ok_inv. unfold ret in Hret. simplify_eq.
    repeat split; try done. intros y.
    rewrite (write_file_staged t _ y _ _ _ Hw). case_decide; [|done].
    subst. by rewrite Hl.
Qed.

(** *** [make_archive]: opening the tar files *)


Lemma open_fold t courts keys d s d' s' :
  court_keys courts keys →
  fold_each courts d
    (λ tar_files court,
      pk <- lift (getattr court "pk") ;;
      key <- lift (dict_key pk) ;;
      stem <- lift (format_s pk) ;;
      tar <- tarfile_open_a ["tmp"; t; stem ++ ".tar"] ;;
      ret (<[key := tar]> tar_files)) s = (Ok d', s') →
  (∀ y, tar_records ["tmp"; t; y] s' = tar_records ["tmp"; t; y] s) ∧
  (∀ k, k ∈ keys → holds_handle t s d' k) ∧
  (∀ key, key ∉ (inr <$> keys : list (Z + string)) → d' !! key = d !! key).
Proof.
  intros Hkeys. revert d s.
  induction Hkeys as [|court k courts keys Hpk _ IH]; intros d s H.
  { cbn in H. unfold ret in H. simplify_eq. split; [done|]. split; [|done].
    intros k Hk. by apply elem_of_nil in Hk. }
  cbn [fold_each] in H. apply bind_ok_inv in H as (d1 & s1 & Hopen & H).
  apply bind_ok_inv in Hopen as (pk & ? & [Hpk' ->]%lift_ok_inv & Hopen).
  rewrite Hpk in Hpk'. injection Hpk' as <-.
  apply bind_ok_inv in Hopen as (key & ? & [Hkey ->]%lift_ok_inv & Hopen).
  apply bind_ok_inv in Hopen as (stem & ? & [Hstem ->]%lift_ok_inv & Hopen).
  cbn in Hkey, Hstem. simplify_eq.
  apply bind_ok_inv in Hopen as (h & s1' & Hopen & Hret).
  unfold ret in Hret. simplify_eq.
  destruct (tarfile_open_a_spec _ _ _ _ _ Hopen) as (Hn & Hl & Hlen & Hrec).
  destruct (IH _ _ H) as (Hrec' & Hhandles & Hother).
  split; [|split].
  - intros y. by rewrite Hrec', Hrec.
  - intros k' Hk'.
    destruct (decide (k' ∈ keys)) as [Hin|Hout].
    + destruct (Hhandles k' Hin) as (h' & ? & ? & ? & Hlen').
      exists h'. repeat split; try done. by rewrite Hlen', Hrec.
    + apply elem_of_cons in Hk' as [->|]; [|done].
      exists h. rewrite Hother, lookup_insert_eq; [done|].
      intros (k' & [= <-] & Hin)%list_elem_of_fmap. done.
  - intros key' Hout. rewrite fmap_cons in Hout.
    apply not_elem_of_cons in Hout as [Hne Hout].
    rewrite (Hother _ Hout). by rewrite lookup_insert_ne.
Qed.

(** *** [make_archive]: adding the records *)


Lemma total_records_insert_other d keys key h :
  key ∉ (inr <$> keys : list (Z + string)) →
  total_records (<[key := h]> d) keys = total_records d keys.
Proof.
  unfold total_records. induction keys as [|k keys IH]; intros Hout; [done|].
  rewrite fmap_cons in Hout. apply not_elem_of_cons in Hout as [Hne Hout].
  cbn. rewrite IH by done. f_equal.
  unfold handle_records. by rewrite lookup_insert_ne.
Qed.

Lemma total_records_insert d keys k h :
  NoDup keys → k ∈ keys →
  total_records (<[inr k := h]> d) keys + handle_records d (inr k)
  = total_records d keys + length (tar_members h).
Proof.
  intros Hnd. induction Hnd as [|k' keys Hk' Hnd IH]; intros Hin.
  { by apply elem_of_nil in Hin. }
  unfold total_records in *. cbn.
  apply elem_of_cons in Hin as [->|Hin].
  - fold (total_records (<[inr k' := h]> d) keys).
    rewrite total_records_insert_other.
    + unfold total_records, handle_records at 1.
      rewrite lookup_insert_eq. lia.
    + intros (k & [= <-] & Hin)%list_elem_of_fmap. done.
  - assert (k ≠ k') by (intros ->; done).
    unfold handle_records at 1. rewrite lookup_insert_ne by congruence.
    fold (handle_records d (inr k')). specialize (IH Hin). lia.
Qed.



Lemma same_handles_refl d : same_handles d d.
Proof. intros key. by destruct (d !! key). Qed.

Lemma same_handles_trans d1 d2 d3 :
  same_handles d1 d2 → same_handles d2 d3 → same_handles d1 d3.
Proof.
  intros H12 H23 key. specialize (H12 key). specialize (H23 key).
  destruct (d1 !! key), (d2 !! key), (d3 !! key); try done.
  destruct H12, H23. split; congruence.
Qed.

Lemma same_handles_addfile d key h arcname data :
  d !! key = Some h →
  same_handles d (<[key := tar_addfile h arcname data]> d).
Proof.
  intros Hh key'. destruct (decide (key = key')) as [<-|Hne].
  - by rewrite lookup_insert_eq, Hh.
  - rewrite lookup_insert_ne by done. by destruct (d !! key').
Qed.

Lemma known_keys_same d d' keys :
  same_handles d d' → known_keys d keys → known_keys d' keys.
Proof.
  intros Hsame Hknown key [h' Hh']. apply Hknown.
  specialize (Hsame key). rewrite Hh' in Hsame. by destruct (d !! key).
Qed.

Lemma dict_get_ok_inv {St : Type} (d : gmap (Z + string) TarFile) key (s : St) h s' :
  dict_get d key s = (Ok h, s') → d !! key = Some h ∧ s' = s.
Proof.
  unfold dict_get. destruct (d !! key); [|done].
  unfold ret. by intros [= -> ->].
Qed.

Lemma items_fold court_attr (api : pyval → outcome string) keys items d
    (s : node) d' (s' : node) :
  NoDup keys → "all" ∉ keys →
  (∀ item, item ∈ items → deepgetattr item court_attr ≠ Ok (PyStr "all")) →
  known_keys d keys →
  fold_each items d
    (λ tar_files item,
      json_str <- lift (api item) ;;
      pk <- lift (getattr item "pk") ;;
      stem <- lift (format_s pk) ;;
      _ <- lift (getattr item "date_modified") ;;
      court <- lift (deepgetattr item court_attr) ;;
      key <- lift (dict_key court) ;;
      tar <- dict_get tar_files key ;;
      let tar_files :=
        <[key := tar_addfile tar (stem ++ ".json") json_str]> tar_files in
      tar <- dict_get tar_files (inr "all") ;;
      ret (<[inr "all" := tar_addfile tar (stem ++ ".json") json_str]>
             tar_files)) s = (Ok d', s') →
  s' = s ∧ same_handles d d' ∧
  handle_records d' (inr "all") + total_records d keys
  = handle_records d (inr "all") + total_records d' keys.
Proof.
  intros Hnd Hall. revert d s.
  induction items as [|item items IH]; intros d s Hitems Hknown H.
  { cbn in H. unfold ret in H. simplify_eq. split; [done|].
    split; [apply same_handles_refl|done]. }
  cbn [fold_each] in H. apply bind_ok_inv in H as (d1 & s1 & Hitem & H).
  apply bind_ok_inv in Hitem as (json & ? & [_ ->]%lift_ok_inv & Hitem).
  apply bind_ok_inv in Hitem as (pk & ? & [_ ->]%lift_ok_inv & Hitem).
  apply bind_ok_inv in Hitem as (stem & ? & [_ ->]%lift_ok_inv & Hitem).
  apply bind_ok_inv in Hitem as (? & ? & [_ ->]%lift_ok_inv & Hitem).
  apply bind_ok_inv in Hitem as (court & ? & [Hcourt ->]%lift_ok_inv & Hitem).
  apply bind_ok_inv in Hitem as (key & ? & [Hkey ->]%lift_ok_inv & Hitem).
  apply bind_ok_inv in Hitem as (h & ? & [Hh ->]%dict_get_ok_inv & Hitem).
  cbv zeta in Hitem.
  apply bind_ok_inv in Hitem as (ha & ? & [Hha ->]%dict_get_ok_inv & Hret).
  unfold ret in Hret. simplify_eq.
  (* the key is that of a jurisdiction *)
  destruct (Hknown key ltac:(eauto)) as [->|(k & Hk & ->)].
  { exfalso. apply (Hitems item ltac:(left)).
    destruct court; cbn in Hkey; by simplify_eq. }
  assert (Hne : (inr k : Z + string) ≠ inr "all") by (intros [= ->]; done).
  rewrite lookup_insert_ne in Hha by done.
  set (d1 := <[inr k := tar_addfile h (stem ++ ".json") json]> d) in *.
  set (d2 := <[inr "all" := tar_addfile ha (stem ++ ".json") json]> d1) in *.
  assert (Hs1 : same_handles d d1) by (by apply same_handles_addfile).
  assert (Hs2 : same_handles d1 d2).
  { apply same_handles_addfile. unfold d1. by rewrite lookup_insert_ne. }
  assert (Hitems' : ∀ i, i ∈ items →
                         deepgetattr i court_attr ≠ Ok (PyStr "all")).
  { intros i Hi. apply Hitems. by right. }
  assert (Hknown2 : known_keys d2 keys).
  { eapply known_keys_same; [|exact Hknown]. by eapply same_handles_trans. }
  destruct (IH _ _ Hitems' Hknown2 H) as (-> & Hs3 & Hcount).
  split; [done|]. split.
  { eapply same_handles_trans; [|exact Hs3]. by eapply same_handles_trans. }
  assert (Hall2 : handle_records d2 (inr "all") = S (handle_records d (inr "all"))).
  { unfold handle_records, d2. rewrite lookup_insert_eq, Hha. cbn.
    rewrite length_app. cbn. lia. }
  assert (Htot : total_records d2 keys = S (total_records d keys)).
  { unfold d2. rewrite total_records_insert_other.
    2:{ intros (k' & [= <-] & Hin)%list_elem_of_fmap. done. }
    pose proof (total_records_insert d keys k
                  (tar_addfile h (stem ++ ".json") json) Hnd Hk) as Hins.
    fold d1 in Hins. unfold handle_records at 1 in Hins. rewrite Hh in Hins.
    cbn in Hins. rewrite length_app in Hins. cbn in Hins. lia. }
  lia.
Qed.

(** *** [make_archive]: closing the tar files *)

Lemma tar_close_records t x h s s' y :
  tar_name h = ["tmp"; t; x] →
  tar_close h s = (Ok tt, s') →
  lookup_path ["tmp"; t; y] s'
  = if decide (x = y) then Some (File (Tar (tar_level h) (tar_members h)))
    else lookup_path ["tmp"; t; y] s.
Proof.
  unfold tar_close. intros -> H. by apply (write_file_staged t x y).
Qed.

Lemma close_fold (t : string) (courts : list pyval) (keys : list string)
    (d : gmap (Z + string) TarFile) (s s' : node) :
  court_keys courts keys → NoDup keys →
  (∀ k, k ∈ keys → ∃ h, d !! inr k = Some h ∧
                        tar_name h = ["tmp"; t; k ++ ".tar"]) →
  for_each courts (λ court,
    pk <- lift (getattr court "pk") ;;
    key <- lift (dict_key pk) ;;
    tar <- dict_get d key ;;
    tar_close tar) s = (Ok tt, s') →
  (∀ k, k ∈ keys →
        tar_records ["tmp"; t; k ++ ".tar"] s' = handle_records d (inr k)) ∧
  (∀ y, (∀ k, k ∈ keys → y ≠ k ++ ".tar") →
        lookup_path ["tmp"; t; y] s' = lookup_path ["tmp"; t; y] s).
Proof.
  intros Hkeys. revert s.
  induction Hkeys as [|court k courts keys Hpk _ IH]; intros s Hnd Hd H.
  { cbn in H. unfold ret in H. simplify_eq. split; [|done].
    intros k Hk. by apply elem_of_nil in Hk. }
  apply NoDup_cons in Hnd as [Hk Hnd].
  cbn [for_each] in H. apply bind_ok_inv in H as ([] & s1 & Hclose & H).
  apply bind_ok_inv in Hclose as (pk & ? & [Hpk' ->]%lift_ok_inv & Hclose).
  rewrite Hpk in Hpk'. injection Hpk' as <-.
  apply bind_ok_inv in Hclose as (key & ? & [Hkey ->]%lift_ok_inv & Hclose).
  cbn in Hkey. injection Hkey as <-.
  apply bind_ok_inv in Hclose as (h & ? & [Hh ->]%dict_get_ok_inv & Hclose).
  destruct (Hd k ltac:(left)) as (h' & Hh' & Hname).
  rewrite Hh in Hh'. injection Hh' as <-.
  pose proof (tar_close_records t _ h _ _ (k ++ ".tar") Hname Hclose) as Hk1.
  rewrite decide_True in Hk1 by done.
  destruct (IH s1 Hnd) as [Hrec Hother]; [|done|].
  { intros k' Hk'. apply Hd. by right. }
  split.
  - intros k' [->|Hk']%elem_of_cons; [|by apply Hrec].
    unfold tar_records. rewrite Hother, Hk1.
    + unfold handle_records. by rewrite Hh.
    + intros k' Hk' ->%string_app_inj_r. done.
  - intros y Hy. rewrite Hother.
    + rewrite (tar_close_records t _ h _ _ y Hname Hclose).
      rewrite decide_False; [done|]. intros <-. by apply (Hy k); [left|].
    + intros k' Hk'. apply Hy. by right.
Qed.

Lemma sum_list_fmap_ext {A} (f g : A → nat) (l : list A) :
  (∀ x, x ∈ l → f x = g x) → sum_list (f <$> l) = sum_list (g <$> l).
Proof.
  induction l as [|x l IH]; intros H; [done|]. cbn.
  rewrite (H x) by left. rewrite IH; [done|]. intros y Hy. apply H. by right.
Qed.

Lemma select_qs_subseteq b now objects x :
  x ∈ select_qs b now objects → x ∈ objects.
Proof.
  destruct b; [|done]. unfold select_qs, objects_filter_date_modified__gt.
  by intros [_ ?]%list_elem_of_filter.
Qed.

Section MakeArchive.
Variable queryset_generator : list pyval → list pyval.
Hypothesis queryset_generator_yields :
  ∀ qs x, x ∈ queryset_generator qs → x ∈ qs.

Lemma item_list_of_subseteq qs items x :
  item_list_of queryset_generator qs = Ok items → x ∈ items → x ∈ qs.
Proof.
  unfold item_list_of. destruct (qs_first qs); [|done].
  destruct (getattr _ _) as [[]|]; intros [= <-]; auto.
Qed.

Lemma make_archive_counts now t obj_type court_attr api courts keys s s' :
  court_keys courts keys → NoDup keys → "all" ∉ keys →
  (∀ item, item ∈ obj_type → deepgetattr item court_attr ≠ Ok (PyStr "all")) →
  make_archive queryset_generator now t obj_type court_attr api courts s
    = (Ok tt, s') →
  tar_records ["tmp"; t; "all.tar"] s'
    + sum_list ((λ k, tar_records ["tmp"; t; k ++ ".tar"] s) <$> keys)
  = tar_records ["tmp"; t; "all.tar"] s
    + sum_list ((λ k, tar_records ["tmp"; t; k ++ ".tar"] s') <$> keys).
Proof.
  intros Hkeys Hnd Hall Hitems H. unfold make_archive in H.
  apply bind_ok_inv in H as ([] & s1 & Hmk & H).
  apply bind_ok_inv in H as (b & ? & Htest & H).
  rewrite test_if_old_bulk_files_exist_run in Htest. injection Htest as <- <-.
  apply bind_ok_inv in H as (d0 & s2 & Hopen & H).
  apply bind_ok_inv in H as (hall & s3 & Hopen_all & H). cbv zeta in H.
  apply bind_ok_inv in H as (items & ? & [Hil ->]%lift_ok_inv & H).
  apply bind_ok_inv in H as (d1 & s3' & Hfold & H).
  apply bind_ok_inv in H as ([] & s4 & Hclose & H).
  apply bind_ok_inv in H as (hall' & ? & [Hhall' ->]%dict_get_ok_inv & Hclose_all).
  (* opening *)
  destruct (open_fold _ _ _ _ _ _ _ Hkeys Hopen) as (Hrec2 & Hhandles & Hdom).
  destruct (tarfile_open_a_spec _ _ _ _ _ Hopen_all) as (Hn & Hl & Hlen & Hrec3).
  assert (Hrec : ∀ y, tar_records ["tmp"; t; y] s3 = tar_records ["tmp"; t; y] s).
  { intros y. by rewrite Hrec3, Hrec2, (mkdir_p_staging_records _ _ _ _ Hmk). }
  set (d := <[inr "all" := hall]> d0) in *.
  assert (Hnotin : (inr "all" : Z + string) ∉ (inr <$> keys : list (Z + string))).
  { intros (k & [= <-] & Hin)%list_elem_of_fmap. done. }
  assert (Hknown : known_keys d keys).
  { intros key [h Hh]. destruct (decide (key = inr "all")) as [|Hne]; [by left|].
    right. unfold d in Hh. rewrite lookup_insert_ne in Hh by done.
    destruct (decide (key ∈ (inr <$> keys : list (Z + string)))) as [Hin|Hout].
    - apply list_elem_of_fmap in Hin as (k & -> & Hk). eauto.
    - rewrite (Hdom _ Hout), lookup_empty in Hh. done. }
  (* adding the records *)
  destruct (items_fold _ _ _ _ _ _ _ _ Hnd Hall
              ltac:(intros i Hi; eapply Hitems, select_qs_subseteq,
                    item_list_of_subseteq; eauto) Hknown Hfold)
    as (-> & Hsame & Hcount).
  (* closing *)
  assert (Hd1 : ∀ k, k ∈ keys → ∃ h, d1 !! inr k = Some h ∧
                                   tar_name h = ["tmp"; t; k ++ ".tar"]).
  { intros k Hk. destruct (Hhandles k Hk) as (h & Hh & Hname & _).
    specialize (Hsame (inr k)). unfold d in Hsame.
    rewrite lookup_insert_ne, Hh in Hsame by (intros [= <-]; done).
    destruct (d1 !! inr k) as [h'|]; [|done]. exists h'.
    destruct Hsame. split; congruence. }
  destruct (close_fold _ _ _ _ _ _ Hkeys Hnd Hd1 Hclose) as [Hrec4 Hother4].
  assert (Hname' : tar_name hall' = ["tmp"; t; "all" ++ ".tar"]).
  { specialize (Hsame (inr "all")). unfold d in Hsame.
    rewrite lookup_insert_eq, Hhall' in Hsame. destruct Hsame as [-> _].
    exact Hn. }
  pose proof (λ y, tar_close_records t _ hall' _ _ y Hname' Hclose_all) as Hfinal.
  (* counting *)
  assert (Hall' : tar_records ["tmp"; t; "all.tar"] s' = handle_records d1 (inr "all")).
  { unfold tar_records, handle_records. rewrite Hfinal, decide_True by done.
    by rewrite Hhall'. }
  assert (Hall0 : tar_records ["tmp"; t; "all.tar"] s = handle_records d (inr "all")).
  { unfold handle_records, d. rewrite lookup_insert_eq. by rewrite Hlen, Hrec2,
      (mkdir_p_staging_records _ _ _ _ Hmk). }
  assert (Hk' : sum_list ((λ k, tar_records ["tmp"; t; k ++ ".tar"] s') <$> keys)
                = total_records d1 keys).
  { apply sum_list_fmap_ext. intros k Hk. rewrite <- (Hrec4 k Hk).
    unfold tar_records. rewrite Hfinal. rewrite decide_False; [done|].
    intros Heq. apply (string_app_inj_r "all" k ".tar") in Heq. by subst. }
  assert (Hk0 : sum_list ((λ k, tar_records ["tmp"; t; k ++ ".tar"] s) <$> keys)
                = total_records d keys).
  { apply sum_list_fmap_ext. intros k Hk.
    destruct (Hhandles k Hk) as (h & Hh & _ & _ & Hlenk).
    unfold handle_records, d. rewrite lookup_insert_ne by (intros [= <-]; done).
    rewrite Hh, Hlenk. by rewrite (mkdir_p_staging_records _ _ _ _ Hmk). }
  rewrite Hall', Hall0, Hk', Hk0. lia.
Qed.

(** ** C3: the aggregate and the per-jurisdiction archives *)

(** C3.  After a run of [tar_and_compress_all_json_files] that returns,
    ['all.tar'] is a plain tar with one member for each jurisdiction, in
    their order: the archive that the staging directory holds for that
    jurisdiction, a gzip archive of level 6; so the records in the
    aggregate are as many as the records of the archives of the
    jurisdictions, summed over the jurisdictions.  For [make_archive],
    when the keys of the jurisdictions are distinct strings other than
    ['all'] and no record is attached to a jurisdiction ['all']: a run
    that returns has added as many members to ['all.tar'] as to the tar
    files of the jurisdictions together; so when the counts agreed before
    the run (as they do when there was no tar file), they agree after
    it. *)
Theorem aggregate_counts_match_court_archives (t : string)
    (courts : list pyval) :
  (∀ s s',
     tar_and_compress_all_json_files t courts s = (Ok tt, s') →
     ∃ ms,
       lookup_path ["tmp"; t; "all.tar"] s' = Some (File (Tar None ms)) ∧
       Forall2 (court_member t s') courts ms ∧
       aggregate_records (File (Tar None ms))
       = sum_list (court_records t s' <$> courts)) ∧
  (∀ now obj_type court_attr api keys s s',
     court_keys courts keys → NoDup keys → "all" ∉ keys →
     (∀ item, item ∈ obj_type →
              deepgetattr item court_attr ≠ Ok (PyStr "all")) →
     make_archive queryset_generator now t obj_type court_attr api courts s
       = (Ok tt, s') →
     tar_records ["tmp"; t; "all.tar"] s'
       + sum_list ((λ k, tar_records ["tmp"; t; k ++ ".tar"] s) <$> keys)
     = tar_records ["tmp"; t; "all.tar"] s
       + sum_list ((λ k, tar_records ["tmp"; t; k ++ ".tar"] s') <$> keys) ∧
     (tar_records ["tmp"; t; "all.tar"] s
      = sum_list ((λ k, tar_records ["tmp"; t; k ++ ".tar"] s) <$> keys) →
      tar_records ["tmp"; t; "all.tar"] s'
      = sum_list ((λ k, tar_records ["tmp"; t; k ++ ".tar"] s') <$> keys))).
Proof.
  split.
  - intros s s'. apply tar_and_compress_members.
  - intros now obj_type court_attr api keys s s' Hkeys Hnd Hall Hitems Hrun.
    pose proof (make_archive_counts now t obj_type court_attr api courts keys
                  s s' Hkeys Hnd Hall Hitems Hrun) as Hcount.
    split; [done|]. lia.
Qed.

End MakeArchive.

Lemma aggregate_counts_match_court_archives_witness :
  (∃ ms,
     lookup_path ["tmp"; "document"; "all.tar"]
       (tar_and_compress_all_json_files "document" example_courts
          example_json_on_disk).2
     = Some (File (Tar None ms)) ∧
     Forall2 (court_member "document"
                (tar_and_compress_all_json_files "document" example_courts
                   example_json_on_disk).2) example_courts ms ∧
     aggregate_records (File (Tar None ms)) = 3) ∧
  tar_records ["tmp"; "document"; "all.tar"]
    (make_archive (λ qs, qs) 100 "document" example_documents
       "docket.court_id" example_api example_courts (Dir ∅)).2
  = 3.
Proof.
  destruct (aggregate_counts_match_court_archives (λ qs, qs)
              ltac:(done) "document" example_courts) as [Htar Hmake].
  split.
  - destruct (Htar example_json_on_disk
                (tar_and_compress_all_json_files "document" example_courts
                   example_json_on_disk).2) as (ms & Hall & Hms & Hcount).
    { vm_compute. reflexivity. }
    exists ms. split; [exact Hall|]. split; [exact Hms|].
    rewrite Hcount. vm_compute. reflexivity.
  - destruct (Hmake 100%Z example_documents "docket.court_id" example_api
                ["scotus"; "ca9"] (Dir ∅)
                (make_archive (λ qs, qs) 100 "document" example_documents
                   "docket.court_id" example_api example_courts (Dir ∅)).2)
      as [_ Hsame].
    + repeat constructor.
    + apply NoDup_cons. split; [|apply NoDup_singleton].
      intros Hin%list_elem_of_singleton. discriminate Hin.
    + intros Hin. repeat (apply elem_of_cons in Hin as [Hin|Hin];
                          [discriminate Hin|]).
      by apply elem_of_nil in Hin.
    + intros item Hitem. unfold example_documents in Hitem.
      repeat (apply elem_of_cons in Hitem as [->|Hitem]);
        [vm_compute; discriminate..|].
      by apply elem_of_nil in Hitem.
    + vm_compute. reflexivity.
    + rewrite Hsame; [|vm_compute; reflexivity]. vm_compute. reflexivity.
Defined.
(** ** Directories and files: what is kept *)

Lemma lookup_path_file q c : lookup_path q (File c) = match q with [] => Some (File c) | _ => None end.
Proof. by destruct q. Qed.

Lemma lookup_fresh_dirs_off p q :
  ¬ q `prefix_of` p → lookup_path q (fresh_dirs p) = None.
Proof.
  revert q. induction p as [|x p IH]; intros [|y q] Hq; cbn [fresh_dirs].
  - destruct Hq. by exists [].
  - by rewrite lookup_path_cons, lookup_empty.
  - destruct Hq. by eexists.
  - rewrite lookup_path_cons. destruct (decide (x = y)) as [->|Hne].
    + rewrite lookup_singleton_eq. apply IH. intros Hp. apply Hq.
      by apply prefix_cons.
    + by rewrite lookup_singleton_ne.
Qed.

(** What [os.makedirs] leaves alone: every path that is not an ancestor of
    the new directory (nor that directory). *)
Lemma makedirs_frame p q s s' :
  makedirs p s = inr s' → ¬ q `prefix_of` p →
  lookup_path q s' = lookup_path q s.
Proof.
  revert q s s'. induction p as [|x p IH]; intros q [c|kids] s' H Hq; try done.
  cbn in H. destruct q as [|y q].
  { destruct Hq. by eexists. }
  rewrite !lookup_path_cons.
  destruct (kids !! x) as [k|] eqn:Hk.
  - destruct (makedirs p k) as [|k'] eqn:Hm; [done|]. simplify_eq.
    rewrite lookup_path_cons. destruct (decide (x = y)) as [->|Hne].
    + rewrite lookup_insert_eq, Hk. eapply IH; [done|].
      intros Hp. apply Hq. by apply prefix_cons.
    + by rewrite lookup_insert_ne.
  - simplify_eq. rewrite lookup_path_cons.
    destruct (decide (x = y)) as [->|Hne].
    + rewrite lookup_insert_eq, Hk. apply lookup_fresh_dirs_off.
      intros Hp. apply Hq. by apply prefix_cons.
    + by rewrite lookup_insert_ne.
Qed.

(** The ancestors stay directories. *)
Lemma makedirs_result p s :
  match makedirs p s with
  | inr s' => ∀ q, q `prefix_of` p → ∃ k, lookup_path q s' = Some (Dir k)
  | inl e =>
      (e = EEXIST ∧ lexists p s = true) ∨
      (e = ENOTDIR ∧ ∃ q c, q `prefix_of` p ∧ q ≠ p ∧
                            lookup_path q s = Some (File c))
  end.
Proof.
  revert s. induction p as [|x p IH]; intros s.
  { cbn. left. split; [done|]. unfold lexists. by destruct s. }
  destruct s as [c|kids]; cbn [makedirs].
  { right. split; [done|]. exists [], c. split; [apply prefix_nil|]. done. }
  destruct (kids !! x) as [k|] eqn:Hk.
  - specialize (IH k). destruct (makedirs p k) as [e|k'].
    + destruct IH as [[-> He]|[-> (q & c & Hq & Hne & Hl)]].
      * left. split; [done|]. unfold lexists in *. rewrite lookup_path_cons, Hk.
        done.
      * right. split; [done|]. exists (x :: q), c.
        split; [by apply prefix_cons|]. split; [congruence|].
        by rewrite lookup_path_cons, Hk.
    + intros [|y q] Hq; [by eexists|].
      apply prefix_cons_inv_1 in Hq as Hxy. subst y.
      apply prefix_cons_inv_2 in Hq.
      rewrite lookup_path_cons, lookup_insert_eq. by apply IH.
  - intros [|y q] Hq; [by eexists|].
    apply prefix_cons_inv_1 in Hq as Hxy. subst y.
    apply prefix_cons_inv_2 in Hq.
    rewrite lookup_path_cons, lookup_insert_eq.
    clear -Hq. revert q Hq. induction p as [|z p IH]; intros q Hq.
    + apply prefix_nil_inv in Hq as ->. by eexists.
    + destruct q as [|w q]; [by eexists|].
      apply prefix_cons_inv_1 in Hq as Hzw. subst w.
      apply prefix_cons_inv_2 in Hq. cbn [fresh_dirs].
      rewrite lookup_path_cons, lookup_singleton_eq. by apply IH.
Qed.


Lemma makedirs_file_ancestor p q c s :
  q `prefix_of` p → q ≠ p → lookup_path q s = Some (File c) →
  makedirs p s = inl ENOTDIR.
Proof.
  revert q s. induction p as [|x p IH]; intros q s Hq Hne Hl.
  { apply prefix_nil_inv in Hq. done. }
  destruct s as [c'|kids]; [done|]. destruct q as [|y q]; [done|].
  apply prefix_cons_inv_1 in Hq as Hxy. subst y.
  apply prefix_cons_inv_2 in Hq. rewrite lookup_path_cons in Hl.
  cbn. destruct (kids !! x) as [k|]; [|done].
  rewrite (IH q k); [done..| |done]. congruence.
Qed.

Lemma mkdir_p_cases (p : path) (s : node) :
  (¬ file_on_path p s →
   ∃ s', mkdir_p p s = (Ok tt, s') ∧ isdir p s' = true) ∧
  (∀ c, lookup_path p s = Some (File c) →
        mkdir_p p s = (Raise (OSError EEXIST), s)) ∧
  (∀ q c, q `prefix_of` p → q ≠ p → lookup_path q s = Some (File c) →
          mkdir_p p s = (Raise (OSError ENOTDIR), s)).
Proof.
  unfold mkdir_p, mkdir_p_with, os_makedirs. split; [|split].
  - intros Hno. pose proof (makedirs_result p s) as Hres.
    destruct (makedirs p s) as [e|s'] eqn:Hm.
    + destruct Hres as [[-> He]|[-> (q & c & Hq & Hne & Hl)]].
      * rewrite bool_decide_eq_true_2 by done. cbn [andb].
        unfold lexists, isdir in *.
        destruct (lookup_path p s) as [[c|k]|] eqn:Hp; [| |done].
        -- destruct Hno. by exists p, c.
        -- exists s. by rewrite Hp.
      * destruct Hno. by exists q, c.
    + exists s'. split; [done|]. by eapply makedirs_isdir.
  - intros c Hp. rewrite makedirs_existing.
    + unfold isdir. rewrite Hp. by rewrite andb_false_r.
    + unfold lexists. by rewrite Hp.
  - intros q c Hq Hne Hl. by rewrite (makedirs_file_ancestor p q c s).
Qed.

(** X1.  [mkdir_p] does not get past a regular file.  For a path of plain
    names: when the path or one of its ancestors is a regular file the
    call raises; so a call that returns found no regular file on the
    path, and the path is a directory afterwards. *)
Theorem mkdir_p_stops_at_a_regular_file (p : path) (s : node) :
  Forall (λ x, plain_name x = true) p →
  (file_on_path p s → ∃ e s', mkdir_p p s = (Raise e, s')) ∧
  (∀ s', mkdir_p p s = (Ok tt, s') → ¬ file_on_path p s ∧ isdir p s' = true).
Proof.
  intros _. destruct (mkdir_p_cases p s) as (_ & Hfile & Hancestor).
  assert (Hraise : file_on_path p s → ∃ e s', mkdir_p p s = (Raise e, s')).
  { intros (q & c & Hq & Hl). destruct (decide (q = p)) as [->|Hne].
    - rewrite (Hfile c Hl). eauto.
    - rewrite (Hancestor q c Hq Hne Hl). eauto. }
  split; [done|]. intros s' Hrun. split.
  - intros Hon. destruct (Hraise Hon) as (e & s1 & He). congruence.
  - by eapply mkdir_p_ok_isdir.
Qed.



Lemma open_wb_cons2 x z p c kids :
  open_wb (x :: z :: p) c (Dir kids)
  = match kids !! x with
    | None => inl ENOENT
    | Some k => match open_wb (z :: p) c k with
                | inl e => inl e
                | inr k' => inr (Dir (<[x := k']> kids))
                end
    end.
Proof. done. Qed.

(** What a write leaves alone: every path that is not an ancestor of the
    file (nor the file). *)
Lemma open_wb_frame p q c s s' :
  open_wb p c s = inr s' → ¬ q `prefix_of` p →
  lookup_path q s' = lookup_path q s.
Proof.
  revert q s s'. induction p as [|x p IH]; intros q [c0|kids] s' H Hq; try done.
  { destruct (open_wb_on_file (x :: p) c c0) as [e He]. congruence. }
  destruct q as [|y q].
  { destruct Hq. apply prefix_nil. }
  destruct p as [|z p].
  - cbn in H.
    assert (s' = Dir (<[x := File c]> kids) ∧ ∀ k, kids !! x ≠ Some (Dir k))
      as [-> Hnd] by (by repeat case_match; simplify_eq).
    rewrite !lookup_path_cons. destruct (decide (x = y)) as [->|Hne].
    + rewrite lookup_insert_eq.
      destruct q as [|w q]. { destruct Hq. by exists []. }
      cbn. destruct (kids !! y) as [[c'|k]|] eqn:Hk; done.
    + by rewrite lookup_insert_ne.
  - rewrite open_wb_cons2 in H.
    destruct (kids !! x) as [k|] eqn:Hk; [|done].
    destruct (open_wb (z :: p) c k) as [|k'] eqn:Hm; [done|]. simplify_eq.
    rewrite !lookup_path_cons. destruct (decide (x = y)) as [->|Hne].
    + rewrite lookup_insert_eq, Hk. eapply IH; [done|].
      intros Hp. apply Hq. by apply prefix_cons.
    + by rewrite lookup_insert_ne.
Qed.

Lemma open_wb_written p c s s' :
  open_wb p c s = inr s' → lookup_path p s' = Some (File c).
Proof.
  revert s s'. induction p as [|x p IH]; intros [c0|kids] s' H; try done.
  { destruct (open_wb_on_file (x :: p) c c0) as [e He]. congruence. }
  destruct p as [|z p].
  - cbn in H.
    assert (s' = Dir (<[x := File c]> kids)) as ->
      by (by repeat case_match; simplify_eq).
    by rewrite lookup_path_cons, lookup_insert_eq.
  - rewrite open_wb_cons2 in H.
    destruct (kids !! x) as [k|] eqn:Hk; [|done].
    destruct (open_wb (z :: p) c k) as [|k'] eqn:Hm; [done|]. simplify_eq.
    rewrite lookup_path_cons, lookup_insert_eq. by eapply IH.
Qed.

(** A write needs its ancestors to be directories. *)
Lemma open_wb_ancestors p q c s s' :
  open_wb p c s = inr s' → q `prefix_of` p → q ≠ p →
  ∃ k, lookup_path q s = Some (Dir k).
Proof.
  revert q s s'. induction p as [|x p IH]; intros q [c0|kids] s' H Hq Hne; try done.
  { destruct (open_wb_on_file (x :: p) c c0) as [e He]. congruence. }
  destruct q as [|y q]; [by eexists|].
  apply prefix_cons_inv_1 in Hq as Hxy. subst y. apply prefix_cons_inv_2 in Hq.
  destruct p as [|z p].
  { apply prefix_nil_inv in Hq. by subst. }
  rewrite open_wb_cons2 in H.
  destruct (kids !! x) as [k|] eqn:Hk; [|done].
  destruct (open_wb (z :: p) c k) as [|k'] eqn:Hm; [done|].
  rewrite lookup_path_cons, Hk. eapply IH; [done..|]. congruence.
Qed.

(** A regular file other than the one written is left as it is. *)
Lemma open_wb_keeps_files p q c c' s s' :
  open_wb p c s = inr s' → q ≠ p →
  lookup_path q s = Some (File c') → lookup_path q s' = Some (File c').
Proof.
  intros H Hne Hq. destruct (decide (q `prefix_of` p)) as [Hpre|Hpre].
  - destruct (open_wb_ancestors _ _ _ _ _ H Hpre Hne) as [k Hk]. congruence.
  - by rewrite (open_wb_frame _ _ _ _ _ H Hpre).
Qed.

Lemma makedirs_keeps_files p q c s s' :
  makedirs p s = inr s' →
  lookup_path q s = Some (File c) → lookup_path q s' = Some (File c).
Proof.
  intros H Hq. destruct (decide (q `prefix_of` p)) as [Hpre|Hpre].
  - destruct (decide (q = p)) as [->|Hne].
    + rewrite makedirs_existing in H; [done|]. unfold lexists. by rewrite Hq.
    + by rewrite (makedirs_file_ancestor p q c s) in H.
  - by rewrite (makedirs_frame _ _ _ _ H Hpre).
Qed.

(** Invariants: the entry at a path off the paths a computation works
    on. *)
Lemma preserves_lookup_mkdir_p q v p :
  ¬ q `prefix_of` p → preserves (λ s, lookup_path q s = v) (mkdir_p p).
Proof.
  intros Hq. apply preserves_mkdir_p. intros s s' H <-.
  by apply makedirs_frame with p.
Qed.

Lemma preserves_lookup_write_file q v p c :
  ¬ q `prefix_of` p → preserves (λ s, lookup_path q s = v) (write_file p c).
Proof.
  intros Hq. apply preserves_write_file. intros s s' H <-.
  by apply open_wb_frame with p c.
Qed.

Lemma outside_staging_other_type t t' :
  t' ≠ t → outside_staging t ["tmp"; t'].
Proof.
  intros Hne rest Hpre. apply prefix_cons_inv_2 in Hpre.
  by apply prefix_cons_inv_1 in Hpre.
Qed.

Lemma outside_staging_top t x : x ≠ "tmp" → outside_staging t [x].
Proof. intros Hne rest Hpre. by apply prefix_cons_inv_1 in Hpre. Qed.

Section Frames.
Variable queryset_generator : list pyval → list pyval.

Lemma write_json_to_disk_frame now t obj_type court_attr api courts q v :
  outside_staging t q →
  preserves (λ s, lookup_path q s = v)
    (write_json_to_disk queryset_generator now t obj_type court_attr api courts).
Proof.
  intros Hq. unfold write_json_to_disk.
  apply preserves_bind; [apply preserves_test|]. intros b.
  apply preserves_bind.
  { apply preserves_for_each. intros court.
    repeat (apply preserves_bind; [apply preserves_lift|]; intros ?).
    apply preserves_lookup_mkdir_p, Hq. }
  intros _. apply preserves_bind; [apply preserves_lift|]. intros items.
  apply preserves_for_each. intros item.
  repeat (apply preserves_bind; [apply preserves_lift|]; intros ?).
  apply preserves_lookup_write_file, Hq.
Qed.

End Frames.

Lemma preserves_bind_val {A B} P (Q : A → Prop) (m : FS A) (k : A → FS B) :
  preserves P m → (∀ s a s', m s = (Ok a, s') → Q a) →
  (∀ a, Q a → preserves P (k a)) → preserves P (bind m k).
Proof.
  intros Hm HQ Hk s Hs. unfold bind. specialize (Hm s Hs).
  destruct (m s) as [[a|e] s1] eqn:Hms; cbn in *; [|done].
  exact (Hk a (HQ _ _ _ Hms) s1 Hm).
Qed.

Lemma fold_each_tar_name {A} (l : list A) tar (body : TarFile → A → FS TarFile)
    s tar' s' :
  (∀ acc x s a s', body acc x s = (Ok a, s') → tar_name a = tar_name acc) →
  fold_each l tar body s = (Ok tar', s') → tar_name tar' = tar_name tar.
Proof.
  intros Hbody. revert tar s. induction l as [|x l IH]; intros tar s H.
  { cbn in H. unfold ret in H. by simplify_eq. }
  cbn in H. apply bind_ok_inv in H as (tar1 & s1 & Hx & H).
  rewrite (IH _ _ H). by eapply Hbody.
Qed.

Lemma tar_add_name tar name arcname s a s' :
  tar_add tar name arcname s = (Ok a, s') → tar_name a = tar_name tar.
Proof.
  unfold tar_add. destruct (lookup_path name s); [|done]. by intros [= <- _].
Qed.

Lemma tarfile_open_w_name name level s tar s' :
  tarfile_open_w name level s = (Ok tar, s') → tar_name tar = name.
Proof.
  unfold tarfile_open_w. intros ([] & s1 & _ & Hret)%bind_ok_inv.
  unfold ret in Hret. by simplify_eq.
Qed.

Lemma tar_and_compress_frame t courts q v :
  outside_staging t q →
  preserves (λ s, lookup_path q s = v) (tar_and_compress_all_json_files t courts).
Proof.
  intros Hq. unfold tar_and_compress_all_json_files.
  assert (Hopen : ∀ x level,
    preserves (λ s, lookup_path q s = v) (tarfile_open_w ["tmp"; t; x] level)).
  { intros x level. unfold tarfile_open_w.
    apply preserves_bind; [apply preserves_lookup_write_file, Hq|].
    intros; apply preserves_ret. }
  assert (Hclose : ∀ x tar, tar_name tar = ["tmp"; t; x] →
    preserves (λ s, lookup_path q s = v) (tar_close tar)).
  { intros x tar Hname. unfold tar_close. rewrite Hname.
    apply preserves_lookup_write_file, Hq. }
  apply preserves_bind.
  { apply preserves_for_each. intros court.
    repeat (apply preserves_bind; [apply preserves_lift|]; intros ?).
    eapply (preserves_bind_val _ (λ tar, tar_name tar = _)); [apply Hopen| |].
    { intros s tar s'. apply tarfile_open_w_name. }
    intros tar Hname. apply preserves_bind; [apply preserves_lift|]. intros dir.
    apply preserves_bind; [apply preserves_get|]. intros s.
    eapply (preserves_bind_val _ (λ tar, tar_name tar = _)).
    - apply preserves_fold_each. intros; apply preserves_tar_add.
    - intros s0 tar' s' H. etrans; [|exact Hname].
      eapply fold_each_tar_name; [|exact H].
      intros acc x s1 a1 s2. apply tar_add_name.
    - intros tar' Hname'. by eapply Hclose. }
  intros _.
  eapply (preserves_bind_val _ (λ tar, tar_name tar = _)); [apply Hopen| |].
  { intros s tar s'. apply tarfile_open_w_name. }
  intros tar Hname.
  eapply (preserves_bind_val _ (λ tar, tar_name tar = _)).
  - apply preserves_fold_each. intros acc court.
    repeat (apply preserves_bind; [apply preserves_lift|]; intros ?).
    apply preserves_tar_add.
  - intros s0 tar' s' H. etrans; [|exact Hname].
    eapply fold_each_tar_name; [|exact H].
    intros acc court s1 a1 s2 Hb.
    apply bind_ok_inv in Hb as (pk & ? & [_ ->]%lift_ok_inv & Hb).
    apply bind_ok_inv in Hb as (stem & ? & [_ ->]%lift_ok_inv & Hb).
    by apply tar_add_name in Hb.
  - intros tar' Hname'. by eapply Hclose.
Qed.

Lemma mkdir_p_stops_at_a_regular_file_witness :
  ∃ e s', mkdir_p ["tmp"; "docket"; "ca9"] mkdir_p_example_fs = (Raise e, s').
Proof.
  destruct (mkdir_p_stops_at_a_regular_file ["tmp"; "docket"; "ca9"]
              mkdir_p_example_fs) as [Hraise _].
  { repeat constructor. }
  apply Hraise. exists ["tmp"; "docket"], (Bytes "x"). split.
  - by exists ["ca9"].
  - vm_compute. reflexivity.
Defined.


(** ** Attribute chains *)

Lemma split_dot_nonempty s : split_dot s ≠ [].
Proof.
  induction s as [|c s IH]; [done|]. cbn.
  destruct (Ascii.eqb c "."); [done|]. by destruct (split_dot s).
Qed.

Lemma split_dot_app a b :
  split_dot (a ++ "." ++ b) = (split_dot a ++ split_dot b)%list.
Proof.
  induction a as [|c a IH]; [done|].
  change (String c a ++ "." ++ b) with (String c (a ++ "." ++ b)).
  cbn [split_dot]. rewrite IH.
  destruct (Ascii.eqb c "."); [done|].
  pose proof (split_dot_nonempty a). by destruct (split_dot a).
Qed.

Lemma split_dot_no_dot attr : has_no_dot attr = true → split_dot attr = [attr].
Proof.
  unfold has_no_dot. induction attr as [|c attr IH]; [done|].
  cbn. intros [Hc Hrest]%andb_true_iff. apply negb_true_iff in Hc.
  rewrite Hc, IH; done.
Qed.

Lemma foldl_getattr_raise e l :
  foldl (λ acc a, match acc with Ok o => getattr o a | Raise e => Raise e end)
        (Raise e) l = Raise e.
Proof. by induction l. Qed.

(** X3.  [deepgetattr] reads an attribute chain from left to right: a name
    without a dot is read by [getattr]; for ['a.b'] the result is that of
    [deepgetattr] for [b] on what [deepgetattr] gives for [a], an exception
    of the first part being that of the whole. *)
Theorem deepgetattr_follows_the_chain (obj : pyval) :
  (∀ attr, has_no_dot attr = true → deepgetattr obj attr = getattr obj attr) ∧
  (∀ a b, deepgetattr obj (a ++ "." ++ b)
          = and_then (deepgetattr obj a) (λ o, deepgetattr o b)).
Proof.
  split.
  - intros attr H. unfold deepgetattr. by rewrite split_dot_no_dot.
  - intros a b. unfold deepgetattr, and_then. rewrite split_dot_app, foldl_app.
    destruct (foldl _ (Ok obj) (split_dot a)); [done|].
    apply foldl_getattr_raise.
Qed.

Lemma deepgetattr_follows_the_chain_witness :
  deepgetattr (document_row 1 "scotus" 10) "docket.court_id"
  = Ok (PyStr "scotus").
Proof.
  destruct (deepgetattr_follows_the_chain (document_row 1 "scotus" 10))
    as [_ Hchain].
  etrans; [exact (Hchain "docket" "court_id")|]. vm_compute. reflexivity.
Defined.

(** ** The judge importer: the rows of an import *)

Section ImportRows.
Variable load_json_file : string → outcome pyval.
Variable find_or_create_judge : pyval → pyval → nat → M (list pyval) pyval.
Variable process_positions : pyval → pyval → outcome (list kwargs).
Variable convert_date_to_gran_format : pyval → outcome pyval.
Variable GRANULARITY_DAY : pyval.
Variable Position_full_clean : kwargs → outcome unit.

#[local] Abbreviation prepare :=
  (prepare_position convert_date_to_gran_format GRANULARITY_DAY).
#[local] Abbreviation import_one :=
  (import_position convert_date_to_gran_format GRANULARITY_DAY
                   Position_full_clean).
#[local] Abbreviation import_all :=
  (import_ca_judges load_json_file find_or_create_judge process_positions
     convert_date_to_gran_format GRANULARITY_DAY Position_full_clean).

Ltac norm_lookup' :=
  repeat first
    [ rewrite lookup_insert_eq | rewrite lookup_delete_eq
    | rewrite lookup_insert_ne by congruence
    | rewrite lookup_delete_ne by congruence ].

Ltac norm_lookup_in' H :=
  repeat first
    [ rewrite lookup_insert_eq in H | rewrite lookup_delete_eq in H
    | rewrite lookup_insert_ne in H by discriminate
    | rewrite lookup_delete_ne in H by discriminate ].

Ltac step_pos' :=
  match goal with
  | H : context [match ?m !! ?k with _ => _ end] |- _ =>
      let E := fresh "E" in
      destruct (m !! k) eqn:E; norm_lookup_in' E; [|discriminate H]
  | H : context [if truthy ?v then _ else _] |- _ =>
      let E := fresh "T" in destruct (truthy v) eqn:E
  | H : context [match convert_date_to_gran_format ?v with _ => _ end] |- _ =>
      let E := fresh "C" in
      destruct (convert_date_to_gran_format v) eqn:E; [|discriminate H]
  end.

Ltac merge_lookups :=
  repeat match goal with
         | H1 : ?m !! ?k = Some ?a, H2 : ?m !! ?k = Some ?b |- _ =>
             assert (b = a) by congruence; subst b; clear H2
         end.

Lemma prepare_position_fields (pos pos' : kwargs) :
  prepare pos = (Ok tt, pos') →
  pos' !! "pending_status" = None ∧ pos' !! "inactive_status" = None ∧
  Forall (λ k, is_Some (pos !! k)) required_keys ∧
  (∀ k, k ∉ touched_keys → pos' !! k = pos !! k).
Proof.
  unfold prepare_position, bind, pos_del, pos_get, pos_set, when, lift, ret.
  intros H. repeat step_pos'.
  all: injection H as <-; merge_lookups.
  all: split; [by norm_lookup'|]; split; [by norm_lookup'|].
  all: split; [repeat constructor; eauto|].
  all: intros k Hk; unfold touched_keys in Hk.
  all: repeat (apply not_elem_of_cons in Hk as [? Hk]).
  all: by norm_lookup'.
Qed.

Lemma prepare_position_dates (pos pos' : kwargs) :
  prepare pos = (Ok tt, pos') →
  ∃ date_start date_termination,
    pos !! "date_start" = Some date_start ∧
    pos !! "date_termination" = Some date_termination ∧
    (if truthy date_start then
       ∃ d, convert_date_to_gran_format date_start = Ok d ∧
            pos' !! "date_start" = Some d ∧
            pos' !! "date_granularity_start" = Some GRANULARITY_DAY
     else
       pos' !! "date_start" = Some date_start ∧
       pos' !! "date_granularity_start" = pos !! "date_granularity_start") ∧
    (truthy date_termination = true →
     ∃ d, convert_date_to_gran_format date_termination = Ok d ∧
          pos' !! "date_termination" = Some d).
Proof.
  unfold prepare_position, bind, pos_del, pos_get, pos_set, when, lift, ret.
  intros H. repeat step_pos'.
  all: injection H as <-; merge_lookups.
  all: do 2 eexists; (split; [eassumption|]); (split; [eassumption|]).
  all: repeat match goal with T : truthy ?d = _ |- context [truthy ?d] => rewrite T end.
  all: split; [|try done; intros _].
  all: try (eexists; split; [eassumption|]).
  all: by norm_lookup'.
Qed.

Lemma import_position_cases judge pos db :
  match import_one judge pos db with
  | (Ok _, db') =>
      ∃ row, row_of prepare judge pos row ∧
             db' = mkDatabase (Person_objects db) (Position_objects db ++ [row])
  | (Raise e, db') => db' = db
  end.
Proof.
  unfold import_position.
  destruct (prepare pos) as [[[]|e] pos'] eqn:Hprep; [|done].
  unfold Position_objects_create.
  destruct (pos' !! "person") eqn:Hperson; [done|].
  destruct (Position_full_clean _); [|done].
  eexists. split; [|done]. by exists pos'.
Qed.

(** X5.  One processed position gives one row or none: when the statements
    of the loop body and the [create] call return, the table of positions
    has grown by exactly one row, whose [person] is the judge, the table of
    people is untouched, and the position had the six keys the loop body
    always reads ([required_keys]) and no [person] key of its own; when
    they raise, the database is left as it was. *)
Theorem import_position_all_or_nothing (judge : pyval) (pos : kwargs)
    (db : database) :
  match import_one judge pos db with
  | (Ok _, db') =>
      ∃ row, Position_objects db' = (Position_objects db ++ [row])%list ∧
             Person_objects db' = Person_objects db ∧
             row !! "person" = Some judge ∧
             Forall (λ k, is_Some (pos !! k)) required_keys ∧
             pos !! "person" = None
  | (Raise e, db') => db' = db
  end.
Proof.
  pose proof (import_position_cases judge pos db) as H.
  destruct (import_one judge pos db) as [[[]|e] db']; [|done].
  destruct H as (row & (pos' & Hprep & Hperson & ->) & ->).
  eexists. split; [done|]. split; [done|].
  split; [by rewrite lookup_insert_eq|].
  destruct (prepare_position_fields _ _ Hprep) as (_ & _ & Hreq & Hsame).
  split; [done|]. rewrite <- Hsame; [done|].
  unfold touched_keys. intros Hin.
  repeat (apply elem_of_cons in Hin as [Hin|Hin]; [discriminate Hin|]).
  by apply elem_of_nil in Hin.
Qed.

Lemma import_positions_rows judge l db db' :
  for_each l (import_one judge) db = (Ok tt, db') →
  ∃ rows, Forall2 (row_of prepare judge) l rows ∧
          db' = mkDatabase (Person_objects db) (Position_objects db ++ rows).
Proof.
  revert db. induction l as [|pos l IH]; intros db H.
  { cbn in H. unfold ret in H. simplify_eq. exists [].
    split; [constructor|]. rewrite app_nil_r. by destruct db'. }
  cbn [for_each] in H. apply bind_ok_inv in H as ([] & db1 & Hpos & H).
  pose proof (import_position_cases judge pos db) as Hc. rewrite Hpos in Hc.
  destruct Hc as (row & Hrow & ->).
  destruct (IH _ H) as (rows & Hrows & ->). cbn.
  exists (row :: rows). split; [by constructor|].
  by rewrite <- app_assoc.
Qed.

Lemma import_judge_rows counties entry db db' :
  import_judge find_or_create_judge process_positions
    convert_date_to_gran_format GRANULARITY_DAY Position_full_clean
    counties entry db = (Ok tt, db') →
  ∃ rows, judge_rows find_or_create_judge process_positions prepare counties entry rows ∧
          Position_objects db' = (Position_objects db ++ rows)%list.
Proof.
  destruct entry as [i info]. unfold import_judge. intros H.
  apply bind_ok_inv in H as (fullname & ? & [_ ->]%lift_ok_inv & H).
  apply bind_ok_inv in H as (positions & ? & [Hpos ->]%lift_ok_inv & H).
  apply bind_ok_inv in H as (judge & db1 & Hjudge & H).
  apply bind_ok_inv in H as (l & ? & [Hl ->]%lift_ok_inv & H).
  unfold on_people in Hjudge.
  destruct (find_or_create_judge info counties i (Person_objects db))
    as [r people'] eqn:Hfind. simplify_eq.
  destruct (import_positions_rows _ _ _ _ H) as (rows & Hrows & ->).
  exists rows. split; [|done].
  exists positions, judge, (Person_objects db), people', l. done.
Qed.

Lemma import_judges_rows counties entries db db' :
  for_each entries
    (import_judge find_or_create_judge process_positions
       convert_date_to_gran_format GRANULARITY_DAY Position_full_clean
       counties) db = (Ok tt, db') →
  ∃ groups, Forall2 (judge_rows find_or_create_judge process_positions prepare counties) entries groups ∧
            Position_objects db' = (Position_objects db ++ concat groups)%list.
Proof.
  revert db. induction entries as [|entry entries IH]; intros db H.
  { cbn in H. unfold ret in H. simplify_eq. exists [].
    split; [constructor|]. by rewrite app_nil_r. }
  cbn [for_each] in H. apply bind_ok_inv in H as ([] & db1 & Hentry & H).
  destruct (import_judge_rows _ _ _ _ Hentry) as (rows & Hrows & Hdb1).
  destruct (IH _ H) as (groups & Hgroups & Hdb').
  exists (rows :: groups). split; [by constructor|].
  cbn. by rewrite Hdb', Hdb1, <- app_assoc.
Qed.

(** X6.  An import that returns has read ['ca_counties.json'], found the
    keys ['count'] and ['judges'] in the document, and has handled the
    judge entries in their order: the rows added to the table of positions
    are, entry by entry, one row for each position that
    [process_positions] returned for the entry, in their order, each the
    prepared dictionary of that position with the judge that
    [find_or_create_judge] returned for the entry as [person]. *)
Theorem import_ca_judges_complete (log : bool) (file : pyval)
    (db db' : database) :
  import_all log file db = (Ok tt, db') →
  ∃ counties count judges infos groups,
    load_json_file "ca_counties.json" = Ok counties ∧
    getitem file "count" = Ok count ∧
    getitem file "judges" = Ok judges ∧ iterate judges = Ok infos ∧
    Forall2 (judge_rows find_or_create_judge process_positions prepare counties)
            (imap (λ i info, (i, info)) infos) groups ∧
    Position_objects db' = (Position_objects db ++ concat groups)%list.
Proof.
  unfold import_ca_judges. intros H.
  apply bind_ok_inv in H as (counties & ? & [Hc ->]%lift_ok_inv & H).
  apply bind_ok_inv in H as (count & ? & [Hcount ->]%lift_ok_inv & H).
  apply bind_ok_inv in H as (judges & ? & [Hj ->]%lift_ok_inv & H).
  apply bind_ok_inv in H as (infos & ? & [Hi ->]%lift_ok_inv & H).
  destruct (import_judges_rows _ _ _ _ H) as (groups & Hgroups & Hdb).
  by exists counties, count, judges, infos, groups.
Qed.

(** X7.  Whatever the outcome of the import, no row it creates has a
    [pending_status] or an [inactive_status] key, every row has a
    [person], and every key that the loop body neither deletes nor sets
    (every key but the nine [touched_keys] and [person]) has in the row the
    value it had in the processed position. *)
Theorem import_rows_keep_the_other_fields (log : bool) (file : pyval)
    (db : database) :
  ∃ rows,
    Position_objects (import_all log file db).2
    = (Position_objects db ++ rows)%list ∧
    Forall (λ row,
      row !! "pending_status" = None ∧ row !! "inactive_status" = None ∧
      is_Some (row !! "person") ∧
      ∃ pos, processed process_positions pos ∧
             ∀ k, k ∉ touched_keys → k ≠ "person" → row !! k = pos !! k) rows.
Proof.
  eapply extends_with_weaken; [|apply import_ca_judges_extends].
  intros row (pos & Hproc & pos' & judge & Hprep & Hperson & ->).
  destruct (prepare_position_fields _ _ Hprep) as (Hp & Hi & _ & Hsame).
  rewrite !lookup_insert_ne by discriminate. split; [done|]. split; [done|].
  rewrite lookup_insert_eq. split; [by eexists|].
  exists pos. split; [done|]. intros k Hk Hne.
  rewrite lookup_insert_ne by done. by apply Hsame.
Qed.

(** X8.  Whatever the outcome of the import, in every row it creates: when
    the processed position has a start date (one that [if] takes as true),
    [date_start] is that date converted by [convert_date_to_gran_format]
    and [date_granularity_start] is [GRANULARITY_DAY]; when the start date
    is empty it is stored as it is, with the granularity the position came
    with (unlike an empty termination date, an empty start date is not
    removed); a termination date that is present is stored converted. *)
Theorem import_rows_convert_the_dates (log : bool) (file : pyval)
    (db : database) :
  ∃ rows,
    Position_objects (import_all log file db).2
    = (Position_objects db ++ rows)%list ∧
    Forall (λ row,
      ∃ pos date_start date_termination,
        processed process_positions pos ∧
        pos !! "date_start" = Some date_start ∧
        pos !! "date_termination" = Some date_termination ∧
        (if truthy date_start then
           ∃ d, convert_date_to_gran_format date_start = Ok d ∧
                row !! "date_start" = Some d ∧
                row !! "date_granularity_start" = Some GRANULARITY_DAY
         else
           row !! "date_start" = Some date_start ∧
           row !! "date_granularity_start"
           = pos !! "date_granularity_start") ∧
        (truthy date_termination = true →
         ∃ d, convert_date_to_gran_format date_termination = Ok d ∧
              row !! "date_termination" = Some d)) rows.
Proof.
  eapply extends_with_weaken; [|apply import_ca_judges_extends].
  intros row (pos & Hproc & pos' & judge & Hprep & Hperson & ->).
  destruct (prepare_position_dates _ _ Hprep) as (ds & dt & Hds & Hdt & Hs & Ht).
  exists pos, ds, dt. split; [done|]. split; [done|]. split; [done|].
  rewrite !lookup_insert_ne by discriminate. done.
Qed.

(** ** C4: termination fields *)

Lemma row_of_termination_fields judge pos row :
  row_of prepare judge pos row → termination_fields GRANULARITY_DAY pos row.
Proof.
  intros (pos' & Hprep & _ & ->).
  destruct (prepare_position_spec _ _ _ _ Hprep) as (_ & _ & d & Hd & Hterm).
  exists d. split; [done|]. by rewrite !lookup_insert_ne by discriminate.
Qed.

Lemma judge_rows_lists counties (g : nat → nat) infos groups :
  Forall2 (judge_rows find_or_create_judge process_positions prepare counties)
          (imap (λ i info, (g i, info)) infos) groups →
  ∃ lists,
    Forall2 (λ info l, ∃ positions,
               getitem info "positions" = Ok positions ∧
               process_positions positions counties = Ok l) infos lists ∧
    Forall2 (termination_fields GRANULARITY_DAY) (concat lists) (concat groups).
Proof.
  revert g groups. induction infos as [|info infos IH]; intros g groups H.
  { apply Forall2_nil_inv_l in H as ->. exists []. split; constructor. }
  cbn [imap] in H.
  apply Forall2_cons_inv_l in H as (rows & groups' & Hrows & H & ->).
  destruct (IH (g ∘ S) _ H) as (lists & Hlists & Hall).
  destruct Hrows as (positions & judge & people & people' & l & Hpos & _ & Hl & Hrows).
  exists (l :: lists). split.
  - constructor; [|done]. by exists positions.
  - cbn. apply Forall2_app; [|done].
    eapply Forall2_impl; [exact Hrows|]. apply row_of_termination_fields.
Qed.

(** C4, as amended.  Whatever the outcome of the import, each row it creates comes from
    a processed position [pos] that has a [date_termination] entry [d]:
    when [d] is a date (true for [if]) the row has the
    [termination_reason] entry of [pos] and its
    [date_granularity_termination] is [GRANULARITY_DAY]; when [d] is
    empty the row has no [termination_reason] and no [date_termination]
    key, and its [date_granularity_termination] entry is the one [pos]
    came with (none when [process_positions] supplies none: the loop body
    neither sets nor deletes that key).  And an import that returns has
    created exactly one such row for each position that
    [process_positions] returned for the judge entries of the document,
    in their order. *)
Theorem import_termination_fields (log : bool) (file : pyval) (db : database) :
  (∃ rows,
     Position_objects (import_all log file db).2
     = (Position_objects db ++ rows)%list ∧
     Forall (λ row, ∃ pos, processed process_positions pos ∧
                           termination_fields GRANULARITY_DAY pos row) rows) ∧
  (∀ db', import_all log file db = (Ok tt, db') →
     ∃ counties judges infos lists rows,
       load_json_file "ca_counties.json" = Ok counties ∧
       getitem file "judges" = Ok judges ∧ iterate judges = Ok infos ∧
       Forall2 (λ info l, ∃ positions,
                  getitem info "positions" = Ok positions ∧
                  process_positions positions counties = Ok l) infos lists ∧
       Position_objects db' = (Position_objects db ++ rows)%list ∧
       Forall2 (termination_fields GRANULARITY_DAY) (concat lists) rows).
Proof.
  split.
  - eapply extends_with_weaken; [|apply import_ca_judges_extends].
    intros row (pos & Hproc & pos' & judge & Hprep & Hperson & ->).
    exists pos. split; [done|].
    apply (row_of_termination_fields judge). by exists pos'.
  - unfold import_ca_judges. intros db' H.
    apply bind_ok_inv in H as (counties & ? & [Hc ->]%lift_ok_inv & H).
    apply bind_ok_inv in H as (count & ? & [Hcount ->]%lift_ok_inv & H).
    apply bind_ok_inv in H as (judges & ? & [Hj ->]%lift_ok_inv & H).
    apply bind_ok_inv in H as (infos & ? & [Hi ->]%lift_ok_inv & H).
    destruct (import_judges_rows _ _ _ _ H) as (groups & Hgroups & Hdb).
    destruct (judge_rows_lists counties id infos groups Hgroups)
      as (lists & Hlists & Hall).
    by exists counties, judges, infos, lists, (concat groups).
Qed.

End ImportRows.

(** A helper that returns, for a position without a termination date, a
    dictionary with a [date_granularity_termination] of its own: the
    loop body removes [date_termination] and [termination_reason] only,
    and the row is stored with the granularity ['%Y']. *)
Lemma termination_fields_as_specified_fails : ¬ termination_fields_as_specified.
Proof.
  intros H.
  destruct (H (λ _, Ok (PyDict ∅)) example_find_or_create_judge
              example_process_position_year (λ d, Ok d) (PyStr "%Y-%m-%d")
              (λ _, Ok tt) false example_judges_json (mkDatabase [] []))
    as (rows & Hrows & Hall).
  assert (Hrow : ∃ row, rows = [row] ∧
                        row !! "date_granularity_termination"
                        = Some (PyStr "%Y")).
  { vm_compute in Hrows. subst rows. eexists. split; [reflexivity|].
    vm_compute. reflexivity. }
  destruct Hrow as (row & -> & Hgran).
  apply Forall_cons in Hall as [(pos & d & Hproc & Hd & Hterm) _].
  destruct Hproc as (positions & counties & l & [= <-] & Hin).
  apply list_elem_of_singleton in Hin as ->.
  vm_compute in Hd. injection Hd as <-. cbn in Hterm.
  destruct Hterm as [_ Hnone]. congruence.
Qed.

Lemma import_ca_judges_complete_witness :
  ∃ counties count judges infos groups,
    Ok (PyDict ∅) = Ok counties ∧
    getitem example_judges_json "count" = Ok count ∧
    getitem example_judges_json "judges" = Ok judges ∧
    iterate judges = Ok infos ∧
    Forall2 (judge_rows example_find_or_create_judge example_process_positions
               (prepare_position (λ d, Ok d) (PyStr "%Y-%m-%d")) counties)
            (imap (λ i info, (i, info)) infos) groups ∧
    Position_objects example_import.2 = ([] ++ concat groups)%list.
Proof.
  apply (import_ca_judges_complete (λ _, Ok (PyDict ∅))
           example_find_or_create_judge example_process_positions
           (λ d, Ok d) (PyStr "%Y-%m-%d") (λ _, Ok tt)
           false example_judges_json (mkDatabase [] []) example_import.2).
  vm_compute. reflexivity.
Defined.

Lemma import_termination_fields_witness :
  ∃ row1 row2,
    Position_objects example_import_two.2 = [row1; row2] ∧
    termination_fields (PyStr "%Y-%m-%d") example_position row1 ∧
    termination_fields (PyStr "%Y-%m-%d") example_position_terminated row2.
Proof.
  destruct (import_termination_fields (λ _, Ok (PyDict ∅))
              example_find_or_create_judge example_process_two_positions
              (λ d, Ok d) (PyStr "%Y-%m-%d") (λ _, Ok tt)
              false example_judges_json (mkDatabase [] [])) as [_ Hrows].
  destruct (Hrows example_import_two.2)
    as (counties & judges & infos & lists & rows & _ & Hj & Hi & Hl & Hdb & Hf).
  { vm_compute. reflexivity. }
  vm_compute in Hj. injection Hj as <-.
  vm_compute in Hi. injection Hi as <-.
  apply Forall2_cons_inv_l in Hl as (l & lists' & (positions & _ & Hp) & Hl & ->).
  apply Forall2_nil_inv_l in Hl as ->.
  injection Hp as <-. cbn [concat app] in Hf.
  apply Forall2_cons_inv_l in Hf as (row1 & rows' & H1 & Hf & ->).
  apply Forall2_cons_inv_l in Hf as (row2 & rows'' & H2 & Hf & ->).
  apply Forall2_nil_inv_l in Hf as ->.
  exists row1, row2. split; [exact Hdb|]. split; [exact H1|exact H2].
Defined.

(** ** The object types of an export *)

Lemma other_directory_outside t q : other_directory t q → outside_staging t q.
Proof.
  intros [(t' & Hne & ->)|(x & _ & Hne & ->)].
  - by apply outside_staging_other_type.
  - by apply outside_staging_top.
Qed.

Lemma lookup_assemble_other top tmpk t stg pub stg' pub' q :
  t ≠ "tmp" → other_directory t q →
  lookup_path q (assemble top tmpk t stg' pub')
  = lookup_path q (assemble top tmpk t stg pub).
Proof.
  intros Ht [(t' & Hne & ->)|(x & Hx & Hne & ->)]; unfold assemble.
  - rewrite !lookup_path_cons.
    rewrite !(lookup_insert_ne _ t "tmp"), !lookup_insert_eq by done.
    rewrite !lookup_path_cons. by rewrite !lookup_insert_ne by done.
  - rewrite !lookup_path_cons. by rewrite !lookup_insert_ne by done.
Qed.

Lemma swap_archives_frame t q v :
  t ≠ "tmp" → other_directory t q →
  preserves (λ s, lookup_path q s = v) (swap_archives t).
Proof.
  intros Ht Hq s <-. unfold swap_archives. unfold bind at 1.
  destruct (mkdir_p [t] s) as [[[]|e] s1] eqn:Hm.
  2:{ cbn. by apply mkdir_p_raise in Hm as ->. }
  assert (Hs1 : lookup_path q s1 = lookup_path q s).
  { pose proof (preserves_lookup_mkdir_p q (lookup_path q s) [t]) as Hp.
    specialize (Hp ltac:(destruct Hq as [(t' & Hne & ->)|(x & Hx & Hne & ->)];
      intros Hpre; apply prefix_cons_inv_1 in Hpre; congruence) s eq_refl).
    by rewrite Hm in Hp. }
  destruct (mkdir_p_published t s s1 Ht Hm) as ([pub Hpub] & _ & _).
  unfold bind, get. rewrite glob_staged.
  destruct (lookup_path ["tmp"; t] s1) as [[c|stg]|] eqn:Hl.
  2:{ destruct (assemble_intro s1 t stg pub Ht Hl Hpub) as (top & tmpk & ->).
      rewrite staged_assemble by done. fold (archive_names stg).
      rewrite moves_publish_all; first last.
      - intros x Hx. by apply elem_of_archive_names in Hx as [? _].
      - apply NoDup_archive_names.
      - done.
      - destruct (publish_all (archive_names stg) stg pub) as [r' [stg' pub']].
        cbn. rewrite <- Hs1. by apply lookup_assemble_other. }
  all: assert (He : staged t s1 = ∅) by (unfold staged, dir_entries; by rewrite Hl).
  all: rewrite He, map_to_list_empty; cbn; done.
Qed.

Section BodyFrame.
Variable queryset_generator : list pyval → list pyval.

Lemma do_everything_body_frame now courts t obj_type court_attr api q v :
  t ≠ "tmp" → other_directory t q →
  preserves (λ s, lookup_path q s = v)
    (do_everything_body queryset_generator now courts t obj_type court_attr api).
Proof.
  intros Ht Hq. unfold do_everything_body.
  apply preserves_bind.
  { by apply write_json_to_disk_frame, other_directory_outside. }
  intros _. apply preserves_bind.
  { by apply tar_and_compress_frame, other_directory_outside. }
  intros _. by apply swap_archives_frame.
Qed.

(** X9.  Exporting one object type (other than ['tmp']) leaves the others
    alone.  When the names the export makes its paths of are plain
    ([plain_export]) and so are the components of the path [q]: whatever
    their outcome, neither the body of [do_everything] for the type [t]
    nor [swap_archives t] changes what is at [q], the staging directory of
    another type or an entry of [BULK_DATA_DIR] other than ['tmp'] and the
    published directory of [t]. *)
Theorem do_everything_body_leaves_the_other_types (now : Z)
    (courts : list pyval) (t : string) (obj_type : list pyval)
    (court_attr : string) (api : pyval → outcome string) (s : node)
    (q : path) :
  t ≠ "tmp" →
  plain_export queryset_generator t courts court_attr obj_type →
  other_directory t q → Forall (λ x, plain_name x = true) q →
  lookup_path q
    (do_everything_body queryset_generator now courts t obj_type court_attr
       api s).2 = lookup_path q s ∧
  lookup_path q (swap_archives t s).2 = lookup_path q s.
Proof.
  intros Ht _ Hq _. split.
  - by apply (do_everything_body_frame now courts t obj_type court_attr api
                q (lookup_path q s)).
  - by apply (swap_archives_frame t q (lookup_path q s)).
Qed.

End BodyFrame.

Lemma incremental_at_staging t s s' :
  lookup_path ["tmp"; t] s' = lookup_path ["tmp"; t] s →
  incremental_at t s' = incremental_at t s.
Proof.
  intros H. unfold incremental_at, test_if_old_bulk_files_exist, glob, listdir.
  rewrite H.
  by match goal with
     | |- context [match ?l with [] => _ | _ :: _ => _ end] => destruct l
     end.
Qed.

Section Loop.
Variable queryset_generator : list pyval → list pyval.

#[local] Abbreviation entry :=
  (string * list pyval * string * (pyval → outcome string))%type.

Lemma for_each_entries_abort (now : string → Z) (courts : list pyval)
    (before after : list entry) t tbl court_attr api s :
  NoDup (((before ++ (t, tbl, court_attr, api) :: after)%list).*1.*1.*1) →
  "tmp" ∉ ((before ++ (t, tbl, court_attr, api) :: after)%list).*1.*1.*1 →
  select_qs (incremental_at t s) (now t) tbl = [] →
  ∃ e s',
    for_each (before ++ (t, tbl, court_attr, api) :: after)%list
      (λ '(obj_type_str, obj_type, court_attr, api_resource_obj),
        do_everything_body queryset_generator (now obj_type_str) courts
          obj_type_str obj_type court_attr api_resource_obj) s
    = (Raise e, s') ∧
    ∀ q, (∃ t2, t2 ∈ after.*1.*1.*1 ∧ (q = ["tmp"; t2] ∨ q = [t2])) →
         lookup_path q s' = lookup_path q s.
Proof.
  revert s. induction before as [|[[[t0 tbl0] ca0] api0] before IH];
    intros s Hnd Htmp Hsel.
  - cbn [app] in *. cbn [for_each]. unfold bind.
    rewrite !fmap_cons in Hnd, Htmp. cbn [fst] in Hnd, Htmp.
    apply NoDup_cons in Hnd as [Ht _].
    apply not_elem_of_cons in Htmp as [Htmp Htmp'].
    destruct (empty_selection_aborts queryset_generator (now t) t tbl court_attr
                api courts s) as [Hjson _].
    destruct (Hjson Hsel) as (e & s' & _ & Hbody & _).
    rewrite Hbody. exists e, s'. split; [done|].
    intros q (t2 & Hin & Hq).
    pose proof (do_everything_body_frame queryset_generator (now t) courts t
                  tbl court_attr api q (lookup_path q s)) as Hf.
    rewrite <- (Hf ltac:(congruence)); [by rewrite Hbody| |done].
    assert (t2 ≠ t) by (intros ->; done).
    assert (t2 ≠ "tmp") by (intros ->; done).
    destruct Hq as [->| ->]; [left|right]; eauto.
  - cbn [app] in *. cbn [for_each]. unfold bind.
    rewrite !fmap_cons in Hnd, Htmp. cbn [fst] in Hnd, Htmp.
    apply NoDup_cons in Hnd as [Ht0 Hnd].
    apply not_elem_of_cons in Htmp as [Htmp0 Htmp].
    assert (Hframe : ∀ t2, t2 ∈ ((before ++ (t, tbl, court_attr, api) :: after)%list).*1.*1.*1 →
              ∀ q, q = ["tmp"; t2] ∨ q = [t2] →
              lookup_path q
                (do_everything_body queryset_generator (now t0) courts t0 tbl0
                   ca0 api0 s).2 = lookup_path q s).
    { intros t2 Hin q Hq.
      apply (do_everything_body_frame queryset_generator (now t0) courts t0
               tbl0 ca0 api0 q (lookup_path q s)); [congruence| |done].
      assert (t2 ≠ t0) by (intros ->; done).
      assert (t2 ≠ "tmp") by (intros ->; done).
      destruct Hq as [->| ->]; [left|right]; eauto. }
    assert (Hafter : ∀ t2, t2 ∈ after.*1.*1.*1 →
              t2 ∈ ((before ++ (t, tbl, court_attr, api) :: after)%list).*1.*1.*1).
    { intros t2 Hin. rewrite !fmap_app, !fmap_cons.
      apply elem_of_app. right. by right. }
    destruct (do_everything_body queryset_generator (now t0) courts t0 tbl0 ca0
                api0 s) as [[[]|e] s1] eqn:Hbody; cbn [snd] in Hframe.
    + destruct (IH s1 Hnd Htmp) as (e & s' & Hrun & Hsame).
      { rewrite (incremental_at_staging t s s1); [done|].
        apply (Hframe t); [|by left].
        rewrite !fmap_app, !fmap_cons. apply elem_of_app. right. by left. }
      exists e, s'. split; [done|]. intros q (t2 & Hin & Hq).
      rewrite Hsame by eauto. eapply Hframe; eauto.
    + exists e, s1. split; [done|]. intros q (t2 & Hin & Hq).
      eapply Hframe; eauto.
Qed.

(** X10.  The loop of [do_everything] does not get past an object type whose
    selection is empty.  When the names the four exports make their paths
    of are plain ([plain_tables]) and for an entry of [arg_tuples] the
    selection is empty in the mode that the initial state decides for it
    (an empty table, or an incremental run with no row modified in the
    last 32 days), the loop raises, at that entry or before it, and the
    staging and published directories of the object types after it are as
    they were. *)
Theorem do_everything_loop_aborts_on_empty_selection (now : string → Z)
    (Document Audio Docket Court : list pyval)
    (DocumentResource AudioResource DocketResource JurisdictionResource
       : pyval → outcome string)
    (before after : list entry) (t : string) (tbl : list pyval)
    (court_attr : string) (api : pyval → outcome string) (s : node) :
  plain_tables queryset_generator Document Audio Docket Court →
  arg_tuples Document Audio Docket Court DocumentResource AudioResource
             DocketResource JurisdictionResource
  = (before ++ (t, tbl, court_attr, api) :: after)%list →
  select_qs (incremental_at t s) (now t) tbl = [] →
  ∃ e s',
    do_everything_loop queryset_generator now Document Audio Docket Court
      DocumentResource AudioResource DocketResource JurisdictionResource s
    = (Raise e, s') ∧
    ∀ t2, t2 ∈ after.*1.*1.*1 →
          lookup_path ["tmp"; t2] s' = lookup_path ["tmp"; t2] s ∧
          lookup_path [t2] s' = lookup_path [t2] s.
Proof.
  intros _ Hsplit Hsel. unfold do_everything_loop. cbv zeta.
  assert (Hnames : (arg_tuples Document Audio Docket Court DocumentResource
                      AudioResource DocketResource JurisdictionResource).*1.*1.*1
                   = ["document"; "audio"; "docket"; "jurisdiction"]) by done.
  rewrite Hsplit in Hnames |- *.
  destruct (for_each_entries_abort now Court before after t tbl court_attr api s)
    as (e & s' & Hrun & Hsame); [| |done|].
  - rewrite Hnames.
    apply (bool_decide_unpack (NoDup ["document"; "audio"; "docket"; "jurisdiction"])).
    vm_compute. exact I.
  - rewrite Hnames.
    apply (bool_decide_unpack ("tmp" ∉ ["document"; "audio"; "docket"; "jurisdiction"])).
    vm_compute. exact I.
  - exists e, s'. split; [done|]. intros t2 Hin. split; apply Hsame; eauto.
Qed.

End Loop.

Lemma do_everything_body_leaves_the_other_types_witness :
  lookup_path ["document"]
    (do_everything_body (λ qs, qs) 100 example_courts "audio" example_documents
       "docket.court_id" example_api swap_example_fs).2
  = lookup_path ["document"] swap_example_fs ∧
  lookup_path ["document"] (swap_archives "audio" swap_example_fs).2
  = lookup_path ["document"] swap_example_fs.
Proof.
  apply (do_everything_body_leaves_the_other_types (λ qs, qs) 100 example_courts
           "audio" example_documents "docket.court_id" example_api
           swap_example_fs ["document"]).
  - discriminate.
  - repeat split; vm_compute; done.
  - right. exists "document". repeat split; discriminate.
  - repeat constructor.
Defined.

Lemma do_everything_loop_aborts_on_empty_selection_witness :
  ∃ e s',
    do_everything_loop (λ qs, qs) (λ _, 100%Z) example_documents [] []
      example_courts example_api example_api example_api example_api (Dir ∅)
    = (Raise e, s') ∧
    ∀ t2, t2 ∈ ["docket"; "jurisdiction"] →
          lookup_path ["tmp"; t2] s' = lookup_path ["tmp"; t2] (Dir ∅) ∧
          lookup_path [t2] s' = lookup_path [t2] (Dir ∅).
Proof.
  apply (do_everything_loop_aborts_on_empty_selection (λ qs, qs) (λ _, 100%Z)
           example_documents [] [] example_courts example_api example_api
           example_api example_api
           [("document", example_documents, "docket.court_id", example_api)]
           [("docket", [], "court_id", example_api);
            ("jurisdiction", example_courts, "pk", example_api)]
           "audio" [] "docket.court_id" example_api (Dir ∅)).
  - repeat split; vm_compute; done.
  - reflexivity.
  - reflexivity.
Defined.

(** ** The records on disk *)

Lemma write_items (t court_attr : string) (api : pyval → outcome string)
    (items : list pyval) (s s' : node) :
  for_each items (λ item,
    json_str <- lift (api item) ;;
    court <- lift (deepgetattr item court_attr) ;;
    dir <- lift (as_str court) ;;
    pk <- lift (getattr item "pk") ;;
    stem <- lift (format_s pk) ;;
    write_file ["tmp"; t; dir; stem ++ ".json"] (Bytes json_str)) s
  = (Ok tt, s') →
  (∀ l1 item l2, items = (l1 ++ item :: l2)%list →
     ∃ p json, record_path t court_attr item = Ok p ∧ api item = Ok json ∧
       ((∀ i, i ∈ l2 → record_path t court_attr i ≠ Ok p) →
        lookup_path p s' = Some (File (Bytes json)))) ∧
  (∀ q c, lookup_path q s = Some (File c) →
          (∀ i, i ∈ items → record_path t court_attr i ≠ Ok q) →
          lookup_path q s' = Some (File c)).
Proof.
  revert s. induction items as [|item items IH]; intros s H.
  { cbn in H. unfold ret in H. simplify_eq. split; [|done].
    intros l1 item l2 Heq. by destruct l1. }
  cbn [for_each] in H. apply bind_ok_inv in H as ([] & s1 & Hitem & H).
  apply bind_ok_inv in Hitem as (json & ? & [Hjson ->]%lift_ok_inv & Hitem).
  apply bind_ok_inv in Hitem as (court & ? & [Hcourt ->]%lift_ok_inv & Hitem).
  apply bind_ok_inv in Hitem as (dir & ? & [Hdir ->]%lift_ok_inv & Hitem).
  apply bind_ok_inv in Hitem as (pk & ? & [Hpk ->]%lift_ok_inv & Hitem).
  apply bind_ok_inv in Hitem as (stem & ? & [Hstem ->]%lift_ok_inv & Hitem).
  apply write_file_ok_inv in Hitem.
  assert (Hp : record_path t court_attr item
               = Ok ["tmp"; t; dir; stem ++ ".json"]).
  { unfold record_path. rewrite Hcourt. cbn. rewrite Hdir. cbn.
    rewrite Hpk. cbn. by rewrite Hstem. }
  destruct (IH _ H) as [Hlast Hkeep]. split.
  - intros [|i0 l1] it l2 Heq; simplify_eq/=.
    + eexists _, json. split; [done|]. split; [done|]. intros Hl2.
      apply Hkeep; [|done]. by eapply open_wb_written.
    + by eapply Hlast.
  - intros q c Hq Hother. apply Hkeep.
    + eapply open_wb_keeps_files; [done| |done].
      intros ->. by apply (Hother item); [left|].
    + intros i Hi. apply Hother. by right.
Qed.

Lemma make_court_dirs_keeps_files t courts q c :
  preserves (λ s, lookup_path q s = Some (File c)) (make_court_dirs t courts).
Proof.
  apply preserves_for_each. intros court.
  repeat (apply preserves_bind; [apply preserves_lift|]; intros ?).
  apply preserves_mkdir_p. intros s s' Hm Hs. by eapply makedirs_keeps_files.
Qed.

Section WriteJson.
Variable queryset_generator : list pyval → list pyval.

(** X11.  When the names the export makes its paths of are plain
    ([plain_export]), a run of [write_json_to_disk] that returns has
    written, for every item of the selection, the file
    [tmp/<type>/<court>/<pk>.json]: the file holds the serialization of
    the item, unless a later item of the selection has the same path (the
    last one written stays); and every regular file at a path of plain
    names that is not the path of a selected item is left as it was, so
    the records written by earlier runs are never removed. *)
Theorem write_json_to_disk_writes_the_selection (now : Z) (t : string)
    (obj_type : list pyval) (court_attr : string)
    (api : pyval → outcome string) (courts : list pyval) (s s' : node) :
  plain_export queryset_generator t courts court_attr obj_type →
  write_json_to_disk queryset_generator now t obj_type court_attr api courts s
    = (Ok tt, s') →
  ∃ items,
    item_list_of queryset_generator
      (select_qs (incremental_at t s) now obj_type) = Ok items ∧
    (∀ l1 item l2, items = (l1 ++ item :: l2)%list →
       ∃ p json, record_path t court_attr item = Ok p ∧ api item = Ok json ∧
         ((∀ i, i ∈ l2 → record_path t court_attr i ≠ Ok p) →
          lookup_path p s' = Some (File (Bytes json)))) ∧
    (∀ q c, Forall (λ x, plain_name x = true) q →
            lookup_path q s = Some (File c) →
            (∀ i, i ∈ items → record_path t court_attr i ≠ Ok q) →
            lookup_path q s' = Some (File c)).
Proof.
  intros _ Hrun. unfold write_json_to_disk in Hrun.
  apply bind_ok_inv in Hrun as (b & s0 & Htest & Hrun).
  rewrite test_if_old_bulk_files_exist_run in Htest. simplify_eq.
  apply bind_ok_inv in Hrun as ([] & s1 & Hdirs & Hrun).
  fold (make_court_dirs t courts) in Hdirs.
  apply bind_ok_inv in Hrun as (items & ? & [Hitems ->]%lift_ok_inv & Hrun).
  exists items. split; [done|].
  destruct (write_items _ _ _ _ _ _ Hrun) as [Hlast Hkeep].
  split; [done|]. intros q c _ Hq Hother. apply Hkeep; [|done].
  pose proof (make_court_dirs_keeps_files t courts q c s0 Hq) as Hk.
  by rewrite Hdirs in Hk.
Qed.

End WriteJson.

(** Generic invariants of the first two stages. *)
Section Stages.
Variable queryset_generator : list pyval → list pyval.
Variable P : node → Prop.
Hypothesis P_write_file : ∀ p c, preserves P (write_file p c).
Hypothesis P_mkdir_p : ∀ p, preserves P (mkdir_p p).

Lemma write_json_to_disk_preserves now t obj_type court_attr api courts :
  preserves P
    (write_json_to_disk queryset_generator now t obj_type court_attr api courts).
Proof.
  unfold write_json_to_disk.
  apply preserves_bind; [apply preserves_test|]. intros b.
  apply preserves_bind.
  { apply preserves_for_each. intros court.
    repeat (apply preserves_bind; [apply preserves_lift|]; intros ?).
    apply P_mkdir_p. }
  intros _. apply preserves_bind; [apply preserves_lift|]. intros items.
  apply preserves_for_each. intros item.
  repeat (apply preserves_bind; [apply preserves_lift|]; intros ?).
  apply P_write_file.
Qed.

Lemma tar_and_compress_preserves t courts :
  preserves P (tar_and_compress_all_json_files t courts).
Proof.
  unfold tar_and_compress_all_json_files, tarfile_open_w, tar_close.
  apply preserves_bind.
  { apply preserves_for_each. intros court.
    repeat (apply preserves_bind; [apply preserves_lift|]; intros ?).
    apply preserves_bind.
    { apply preserves_bind; [apply P_write_file|].
      intros; apply preserves_ret. }
    intros tar. apply preserves_bind; [apply preserves_lift|]. intros dir.
    apply preserves_bind; [apply preserves_get|]. intros s.
    apply preserves_bind; [|intros; apply P_write_file].
    apply preserves_fold_each. intros; apply preserves_tar_add. }
  intros _. apply preserves_bind.
  { apply preserves_bind; [apply P_write_file|].
    intros; apply preserves_ret. }
  intros tar. apply preserves_bind; [|intros; apply P_write_file].
  apply preserves_fold_each. intros acc court.
  repeat (apply preserves_bind; [apply preserves_lift|]; intros ?).
  apply preserves_tar_add.
Qed.
End Stages.

Lemma preserves_file_at_write_file q p c : preserves (file_at q) (write_file p c).
Proof.
  apply preserves_write_file. intros s s' H [c' Hq].
  destruct (decide (q = p)) as [->|Hne].
  - exists c. by eapply open_wb_written.
  - exists c'. by eapply open_wb_keeps_files.
Qed.

Lemma preserves_file_at_mkdir_p q p : preserves (file_at q) (mkdir_p p).
Proof.
  apply preserves_mkdir_p. intros s s' H [c' Hq].
  exists c'. by eapply makedirs_keeps_files.
Qed.

Section NeverRemove.
Variable queryset_generator : list pyval → list pyval.

(** X12.  Neither [write_json_to_disk] nor
    [tar_and_compress_all_json_files] removes anything, whatever their
    outcome: every directory is still a directory and every regular file
    is still a regular file (its content may have been replaced). *)
Theorem json_and_archive_stages_remove_nothing (now : Z) (t : string)
    (obj_type : list pyval) (court_attr : string)
    (api : pyval → outcome string) (courts : list pyval) (s : node) :
  let s1 := (write_json_to_disk queryset_generator now t obj_type court_attr
               api courts s).2 in
  let s2 := (tar_and_compress_all_json_files t courts s).2 in
  (∀ q, isdir q s = true → isdir q s1 = true ∧ isdir q s2 = true) ∧
  (∀ q, file_at q s → file_at q s1 ∧ file_at q s2).
Proof.
  intros s1 s2. split.
  - intros q Hq. split.
    + apply (write_json_to_disk_preserves queryset_generator
               (λ s, isdir q s = true)); [|apply preserves_isdir_mkdir_p|done].
      intros p c. apply preserves_isdir_write_file.
    + by apply tar_and_compress_preserves_isdir.
  - intros q Hq. split.
    + apply (write_json_to_disk_preserves queryset_generator (file_at q));
        [apply preserves_file_at_write_file|apply preserves_file_at_mkdir_p|done].
    + apply (tar_and_compress_preserves (file_at q));
        [apply preserves_file_at_write_file|done].
Qed.
End NeverRemove.

Lemma write_json_to_disk_writes_the_selection_witness :
  lookup_path ["tmp"; "document"; "scotus"; "1.json"] example_json_on_disk
  = Some (File (Bytes "{}")).
Proof.
  destruct (write_json_to_disk_writes_the_selection (λ qs, qs) 100 "document"
              example_documents "docket.court_id" example_api example_courts
              (Dir ∅) example_json_on_disk)
    as (items & Hitems & Hlast & _).
  { repeat split; vm_compute; done. }
  { vm_compute. reflexivity. }
  vm_compute in Hitems. injection Hitems as <-.
  destruct (Hlast [] (document_row 1 "scotus" 10)
              [document_row 2 "ca9" 20; document_row 3 "scotus" 30] eq_refl)
    as (p & json & Hp & Hjson & Hfile).
  vm_compute in Hp. injection Hp as <-.
  vm_compute in Hjson. injection Hjson as <-.
  apply Hfile. intros i Hi.
  apply elem_of_cons in Hi as [->|Hi]; [vm_compute; discriminate|].
  apply elem_of_cons in Hi as [->|Hi]; [vm_compute; discriminate|].
  by apply elem_of_nil in Hi.
Defined.

(** ** The archives of the jurisdictions *)

Lemma lookup_path_app (p q : path) s :
  lookup_path (p ++ q)%list s = lookup_path p s ≫= lookup_path q.
Proof.
  revert s. induction p as [|x p IH]; intros s; [done|].
  destruct s as [c|kids]; [done|]. cbn [app]. rewrite !lookup_path_cons.
  destruct (kids !! x); [apply IH|done].
Qed.

Lemma basename_snoc (d : path) x : basename (d ++ [x])%list = x.
Proof. unfold basename. apply last_last. Qed.

Lemma open_wb_not_dir p c s s' :
  open_wb p c s = inr s' → ∀ k, lookup_path p s ≠ Some (Dir k).
Proof.
  revert s s'. induction p as [|x p IH]; intros [c0|kids] s' H k; try done.
  destruct p as [|z p].
  - cbn in H. rewrite lookup_path_cons.
    destruct (kids !! x) as [[c'|k']|]; cbn; congruence.
  - rewrite open_wb_cons2 in H. rewrite lookup_path_cons.
    destruct (kids !! x) as [k0|] eqn:Hk; [|done].
    destruct (open_wb (z :: p) c k0) as [|k'] eqn:Hm; [done|]. by eapply IH.
Qed.

(** A write into the staging directory leaves the listing of every
    directory of a jurisdiction as it was. *)
Lemma write_file_staged_dir_entries t x c s s' k :
  write_file ["tmp"; t; x] c s = (Ok tt, s') →
  dir_entries ["tmp"; t; k] s' = dir_entries ["tmp"; t; k] s.
Proof.
  intros H. unfold dir_entries. rewrite (write_file_staged _ _ k _ _ _ H).
  case_decide as Hx; [|done]. subst k.
  apply write_file_ok_inv in H.
  pose proof (open_wb_not_dir _ _ _ _ H) as Hnd.
  destruct (lookup_path ["tmp"; t; x] s) as [[c'|kids]|]; try done.
  by destruct (Hnd kids).
Qed.

Lemma write_file_staged_below t x c s s' k y :
  write_file ["tmp"; t; x] c s = (Ok tt, s') →
  lookup_path ["tmp"; t; k; y] s' = lookup_path ["tmp"; t; k; y] s.
Proof.
  intros H%write_file_ok_inv. apply (open_wb_frame _ _ _ _ _ H).
  intros Hpre. apply prefix_length in Hpre. cbn in Hpre. lia.
Qed.

Lemma fold_tar_add_members (d : path) (kids : gmap string node)
    (names : list string) tar s tar' s' :
  lookup_path d s = Some (Dir kids) →
  fold_each ((λ x, (d ++ [x])%list) <$> names) tar
    (λ tar name, tar_add tar name (basename name)) s = (Ok tar', s') →
  ∃ ms, tar_members tar' = (tar_members tar ++ ms)%list ∧ ms.*1 = names ∧
        ∀ x n, (x, n) ∈ ms → kids !! x = Some n.
Proof.
  intros Hd. revert tar. induction names as [|x names IH]; intros tar H.
  { cbn in H. unfold ret in H. simplify_eq. exists []. rewrite app_nil_r.
    split; [done|]. split; [done|]. intros x n Hin. by apply elem_of_nil in Hin. }
  rewrite fmap_cons in H. cbn [fold_each] in H.
  apply bind_ok_inv in H as (tar1 & s1 & Hadd & H).
  unfold tar_add in Hadd. rewrite lookup_path_app, Hd in Hadd. cbn in Hadd.
  destruct (kids !! x) as [n|] eqn:Hx; cbn in Hadd; [|done].
  rewrite basename_snoc in Hadd. simplify_eq.
  destruct (IH _ H) as (ms & Hms & Hnames & Hin).
  exists ((x, n) :: ms). cbn in Hms. rewrite Hms, <- app_assoc.
  split; [done|]. split; [by rewrite fmap_cons, Hnames|].
  intros y m [[= -> ->]|Hy]%elem_of_cons; [done|]. by apply Hin.
Qed.

Lemma glob_json_members t k s tar tar' s' :
  fold_each (glob ["tmp"; t; k] "*.json" s) tar
    (λ tar name, tar_add tar name (basename name)) s = (Ok tar', s') →
  ∃ ms, tar_members tar' = (tar_members tar ++ ms)%list ∧
        json_members (dir_entries ["tmp"; t; k] s) ms.
Proof.
  unfold glob, listdir, dir_entries.
  destruct (lookup_path ["tmp"; t; k] s) as [[c|kids]|] eqn:Hd.
  1,3: cbn; unfold ret; intros [= <- <-]; exists []; rewrite app_nil_r;
       (split; [done|]); (split; [constructor|]); intros x n;
       rewrite lookup_empty; split; [by intros ?%elem_of_nil|by intros [? _]].
  intros H. destruct (fold_tar_add_members _ _ _ _ _ _ _ Hd H)
    as (ms & Hms & Hnames & Hin).
  exists ms. split; [done|]. split.
  - rewrite Hnames. apply NoDup_glob1, NoDup_fst_map_to_list.
  - intros x n. split.
    + intros Hx. split; [by apply Hin|].
      assert (Hx' : x ∈ ms.*1) by (apply list_elem_of_fmap; by exists (x, n)).
      rewrite Hnames in Hx'. apply elem_of_glob1 in Hx' as (_ & Hdot & Hfn); [|done].
      unfold glob_match. by rewrite Hdot, Hfn.
    + intros [Hx Hmatch]. unfold glob_match in Hmatch.
      apply andb_true_iff in Hmatch as [Hdot Hfn]. cbn in Hdot.
      apply negb_true_iff in Hdot.
      assert (Hx' : x ∈ ms.*1).
      { rewrite Hnames. apply elem_of_glob1; [done|].
        split; [|done]. apply elem_of_listing. eauto. }
      apply list_elem_of_fmap in Hx' as ([x' n'] & -> & Hin').
      cbn in *. pose proof (Hin _ _ Hin') as Hn'. by simplify_eq.
Qed.

(** One jurisdiction: its archive holds the JSON entries of its
    directory; the other archives and the directories stay. *)
Lemma archive_court_spec t court s s' :
  archive_court t court s = (Ok tt, s') →
  ∃ k, getattr court "pk" = Ok (PyStr k) ∧
    archive_of t k (dir_entries ["tmp"; t; k] s) s' ∧
    (∀ y, y ≠ k ++ ".tar.gz" →
          lookup_path ["tmp"; t; y] s' = lookup_path ["tmp"; t; y] s) ∧
    (∀ k', dir_entries ["tmp"; t; k'] s' = dir_entries ["tmp"; t; k'] s) ∧
    (∀ k' y, lookup_path ["tmp"; t; k'; y] s' = lookup_path ["tmp"; t; k'; y] s).
Proof.
  intros H. unfold archive_court in H.
  apply bind_ok_inv in H as (pk & ? & [Hpk ->]%lift_ok_inv & H).
  apply bind_ok_inv in H as (stem & ? & [Hstem ->]%lift_ok_inv & H).
  apply bind_ok_inv in H as (tar & s1 & Hopen & H).
  unfold tarfile_open_w in Hopen.
  apply bind_ok_inv in Hopen as ([] & s1' & Hw1 & Hret). cbv [ret] in Hret.
  simplify_eq.
  apply bind_ok_inv in H as (dir & ? & [Hdir ->]%lift_ok_inv & H).
  destruct pk as [| | |k| | | |]; try done. cbn in Hstem, Hdir.
  injection Hstem as <-. injection Hdir as <-.
  apply bind_ok_inv in H as (s0 & ? & Hget & H). cbv [get] in Hget.
  injection Hget as <- <-.
  apply bind_ok_inv in H as (tar' & s2 & Hfold & Hclose).
  pose proof (fold_tar_add _ (λ name, (name, basename name)) _ _ _ _ Hfold)
    as (-> & Hname & Hlevel).
  apply glob_json_members in Hfold as (ms & Hms & Hjson).
  unfold tar_close in Hclose. rewrite Hname, Hlevel, Hms in Hclose.
  cbn in Hclose.
  exists k. split; [done|]. split; [|split; [|split]].
  - exists ms. split.
    + rewrite (write_file_staged t _ (k ++ ".tar.gz") _ _ _ Hclose).
      by rewrite decide_True.
    + by rewrite <- (write_file_staged_dir_entries _ _ _ _ _ k Hw1).
  - intros y Hy.
    rewrite (write_file_staged t _ y _ _ _ Hclose), decide_False by done.
    by rewrite (write_file_staged t _ y _ _ _ Hw1), decide_False.
  - intros k'.
    rewrite (write_file_staged_dir_entries _ _ _ _ _ k' Hclose).
    by rewrite (write_file_staged_dir_entries _ _ _ _ _ k' Hw1).
  - intros k' y.
    rewrite (write_file_staged_below _ _ _ _ _ k' y Hclose).
    by rewrite (write_file_staged_below _ _ _ _ _ k' y Hw1).
Qed.

Lemma archive_courts_spec t courts s0 s s' :
  for_each courts (archive_court t) s = (Ok tt, s') →
  (∀ k, dir_entries ["tmp"; t; k] s = dir_entries ["tmp"; t; k] s0) →
  (∀ court, court ∈ courts →
     ∃ k, getattr court "pk" = Ok (PyStr k) ∧
          archive_of t k (dir_entries ["tmp"; t; k] s0) s') ∧
  (∀ k, archive_of t k (dir_entries ["tmp"; t; k] s0) s →
        archive_of t k (dir_entries ["tmp"; t; k] s0) s') ∧
  (∀ k, dir_entries ["tmp"; t; k] s' = dir_entries ["tmp"; t; k] s0) ∧
  (∀ k y, lookup_path ["tmp"; t; k; y] s' = lookup_path ["tmp"; t; k; y] s).
Proof.
  revert s. induction courts as [|c courts IH]; intros s H Hdirs.
  { cbn in H. unfold ret in H. simplify_eq. repeat split; try done.
    intros court Hin. by apply elem_of_nil in Hin. }
  cbn [for_each] in H. apply bind_ok_inv in H as ([] & s1 & Hc & H).
  destruct (archive_court_spec _ _ _ _ Hc) as (k & Hpk & Hk & Hother & Hd1 & Hb1).
  destruct (IH s1 H) as (Hall & Hkeep & Hd' & Hb').
  { intros k'. by rewrite Hd1. }
  rewrite Hdirs in Hk.
  split; [|split; [|split]].
  - intros court [->|Hin]%elem_of_cons; [|by apply Hall].
    exists k. split; [done|]. by apply Hkeep.
  - intros k' Hk'. apply Hkeep.
    destruct (decide (k' ++ ".tar.gz" = k ++ ".tar.gz")) as [Heq|Hne].
    + apply string_app_inj_r in Heq. by subst k'.
    + destruct Hk' as (ms & Hms & Hjson). exists ms. split; [|done].
      by rewrite Hother.
  - done.
  - intros k' y. by rewrite Hb', Hb1.
Qed.

Lemma fold_each_state {A B} (l : list A) (acc : B) (body : B → A → FS B)
    s acc' s' :
  fold_each l acc body s = (Ok acc', s') →
  (∀ acc x s a s', body acc x s = (Ok a, s') → s' = s) → s' = s.
Proof.
  intros H Hbody. revert acc s H. induction l as [|x l IH]; intros acc s H.
  { cbn in H. unfold ret in H. by simplify_eq. }
  cbn in H. apply bind_ok_inv in H as (acc1 & s1 & Hx & H).
  rewrite (IH _ _ H). by eapply Hbody.
Qed.

Lemma tar_and_compress_spec (t : string) (courts : list pyval) (s s' : node) :
  tar_and_compress_all_json_files t courts s = (Ok tt, s') →
  (∀ court, court ∈ courts →
     ∃ k, getattr court "pk" = Ok (PyStr k) ∧
          archive_of t k (dir_entries ["tmp"; t; k] s) s') ∧
  (∀ k y, lookup_path ["tmp"; t; k; y] s' = lookup_path ["tmp"; t; k; y] s) ∧
  (∀ k, dir_entries ["tmp"; t; k] s' = dir_entries ["tmp"; t; k] s).
Proof.
  intros H. unfold tar_and_compress_all_json_files in H.
  apply bind_ok_inv in H as ([] & s1 & Hloop & H).
  change (for_each courts (archive_court t) s = (Ok tt, s1)) in Hloop.
  apply bind_ok_inv in H as (tar & s2 & Hopen & H).
  unfold tarfile_open_w in Hopen.
  apply bind_ok_inv in Hopen as ([] & s2' & Hw & Hret). cbv [ret] in Hret.
  simplify_eq.
  apply bind_ok_inv in H as (tar' & s3 & Hfold & Hclose).
  assert (Hstate : s3 = s2).
  { apply (fold_each_state _ _ _ _ _ _ Hfold).
    intros acc court s0 a s0' Hb.
    apply bind_ok_inv in Hb as (pk & ? & [_ ->]%lift_ok_inv & Hb).
    apply bind_ok_inv in Hb as (stem & ? & [_ ->]%lift_ok_inv & Hb).
    unfold tar_add in Hb. destruct (lookup_path _ s0); by simplify_eq. }
  assert (Hname : tar_name tar' = ["tmp"; t; "all.tar"]).
  { refine (fold_each_tar_name _ _ _ _ _ _ _ Hfold).
    intros acc court s0 a s0' Hb.
    apply bind_ok_inv in Hb as (pk & ? & [_ ->]%lift_ok_inv & Hb).
    apply bind_ok_inv in Hb as (stem & ? & [_ ->]%lift_ok_inv & Hb).
    by apply tar_add_name in Hb. }
  subst s3. unfold tar_close in Hclose. rewrite Hname in Hclose.
  destruct (archive_courts_spec t courts s s s1 Hloop ltac:(done))
    as (Hall & _ & Hdirs & Hbelow).
  split; [|split].
  - intros court Hin. destruct (Hall court Hin) as (k & Hpk & ms & Hms & Hjson).
    exists k. split; [done|]. exists ms. split; [|done].
    rewrite (write_file_staged t _ _ _ _ _ Hclose).
    rewrite decide_False by apply all_tar_not_targz.
    rewrite (write_file_staged t _ _ _ _ _ Hw).
    by rewrite decide_False by apply all_tar_not_targz.
  - intros k y.
    rewrite (write_file_staged_below _ _ _ _ _ k y Hclose).
    rewrite (write_file_staged_below _ _ _ _ _ k y Hw). apply Hbelow.
  - intros k.
    rewrite (write_file_staged_dir_entries _ _ _ _ _ k Hclose).
    rewrite (write_file_staged_dir_entries _ _ _ _ _ k Hw). apply Hdirs.
Qed.

(** X13.  When the object type and the keys of the jurisdictions are plain
    names and, in the staged directory of every jurisdiction, the entries
    that [glob] matches against ['*.json'] are regular files
    ([json_entries_are_files]; for a directory [tarfile.add] would add
    what it holds as well): after a run of
    [tar_and_compress_all_json_files] that returns, the key of every
    jurisdiction is a string [k], and [<k>.tar.gz] is a gzip archive of
    level 6 whose members are exactly the entries of the directory
    [tmp/<type>/<k>], as it was before the run, that [glob] matches
    against ['*.json'] (so none whose name begins with a dot), each once,
    under its file name; the entries of the directories, under plain
    names, are left in place. *)
Theorem tar_and_compress_archives_the_json (t : string) (courts : list pyval)
    (s s' : node) :
  plain_name t = true → forallb plain_court courts = true →
  json_entries_are_files t courts s = true →
  tar_and_compress_all_json_files t courts s = (Ok tt, s') →
  (∀ court, court ∈ courts →
     ∃ k ms, getattr court "pk" = Ok (PyStr k) ∧
       lookup_path ["tmp"; t; k ++ ".tar.gz"] s'
         = Some (File (Tar (Some 6) ms)) ∧
       json_members (dir_entries ["tmp"; t; k] s) ms) ∧
  (∀ k y, plain_name k = true → plain_name y = true →
          lookup_path ["tmp"; t; k; y] s' = lookup_path ["tmp"; t; k; y] s).
Proof.
  intros _ _ _ H. destruct (tar_and_compress_spec _ _ _ _ H) as (Hall & Hbelow & _).
  split; [|by intros k y _ _]. intros court Hin.
  destruct (Hall court Hin) as (k & Hpk & ms & Hms & Hjson).
  by exists k, ms.
Qed.

Lemma tar_and_compress_archives_the_json_witness :
  ∃ k ms,
    getattr (court_row "scotus" 0) "pk" = Ok (PyStr k) ∧
    lookup_path ["tmp"; "document"; k ++ ".tar.gz"]
      (tar_and_compress_all_json_files "document" example_courts
         example_json_on_disk).2
    = Some (File (Tar (Some 6) ms)) ∧
    json_members (dir_entries ["tmp"; "document"; k] example_json_on_disk) ms.
Proof.
  destruct (tar_and_compress_archives_the_json "document" example_courts
              example_json_on_disk
              (tar_and_compress_all_json_files "document" example_courts
                 example_json_on_disk).2) as [Harch _].
  { vm_compute. reflexivity. }
  { vm_compute. reflexivity. }
  { vm_compute. reflexivity. }
  { vm_compute. reflexivity. }
  apply Harch. left.
Defined.

(** ** Compressing the tar files *)

Lemma lookup_staged t x s : lookup_path ["tmp"; t; x] s = staged t s !! x.
Proof.
  unfold staged, dir_entries.
  change ["tmp"; t; x] with (["tmp"; t] ++ [x])%list. rewrite lookup_path_app.
  destruct (lookup_path ["tmp"; t] s) as [[c|kids]|]; cbn; try done.
  by destruct (kids !! x).
Qed.

Lemma open_rb_lookup p s :
  match lookup_path p s with
  | Some (File c) => open_rb p s = inr c
  | Some (Dir _) => open_rb p s = inl EISDIR
  | None => ∃ e, open_rb p s = inl e
  end.
Proof.
  revert s. induction p as [|x p IH]; intros [c|kids]; try done.
  { by exists ENOTDIR. }
  cbn [open_rb]. rewrite lookup_path_cons.
  destruct (kids !! x) as [k|]; [apply IH|by exists ENOENT].
Qed.

Lemma list_ascii_of_string_app (a b : string) :
  String.list_ascii_of_string (a ++ b)
  = (String.list_ascii_of_string a ++ String.list_ascii_of_string b)%list.
Proof.
  induction a as [|c a IH]; [done|].
  change (String c a ++ b) with (String c (a ++ b)). cbn. by rewrite IH.
Qed.

Lemma wild_star_inv pat s :
  wild ("*"%char :: pat) s = true → ∃ pre suf, s = (pre ++ suf)%list ∧ wild pat suf = true.
Proof.
  induction s as [|c s IH]; cbn.
  - rewrite orb_false_r. intros H. by exists [], [].
  - intros [H|H]%orb_true_iff.
    + by exists [], (c :: s).
    + destruct (IH H) as (pre & suf & -> & Hsuf). by exists (c :: pre), suf.
Qed.

Lemma wild_star_intro pat pre suf :
  wild pat suf = true → wild ("*"%char :: pat) (pre ++ suf)%list = true.
Proof.
  intros H. induction pre as [|c pre IH].
  - destruct suf; cbn; by rewrite H.
  - cbn [app]. cbn. cbn in IH. rewrite IH. apply orb_true_r.
Qed.

Lemma wild_literal pat s :
  Forall (λ c, Ascii.eqb c "*" = false ∧ Ascii.eqb c "?" = false) pat →
  wild pat s = true → s = pat.
Proof.
  intros Hpat. revert s. induction Hpat as [|c pat [H1 H2] _ IH]; intros s.
  { by destruct s. }
  cbn [wild]. rewrite H1, H2. destruct s as [|d s]; [done|].
  intros [->%Ascii.eqb_eq H]%andb_true_iff. f_equal. by apply IH.
Qed.

Lemma wild_dot_tar s :
  wild [".";"t";"a";"r"]%char s = true → s = [".";"t";"a";"r"]%char.
Proof. apply wild_literal. by repeat constructor. Qed.

Lemma fnmatch_tar_inv x :
  fnmatch x "*.tar" = true →
  ∃ pre, String.list_ascii_of_string x = (pre ++ [".";"t";"a";"r"]%char)%list.
Proof.
  unfold fnmatch. change (String.list_ascii_of_string "*.tar")
    with ("*"%char :: [".";"t";"a";"r"]%char).
  intros (pre & suf & -> & ->%wild_dot_tar)%wild_star_inv. by exists pre.
Qed.

Lemma tar_name_not_gz x y : fnmatch x "*.tar" = true → x ≠ y ++ ".gz".
Proof.
  intros [pre Hpre]%fnmatch_tar_inv ->.
  rewrite list_ascii_of_string_app in Hpre.
  apply (f_equal reverse) in Hpre. rewrite !reverse_app in Hpre.
  cbn in Hpre. discriminate Hpre.
Qed.

Lemma gz_path_staged t x : gz_path ["tmp"; t; x] = ["tmp"; t; x ++ ".gz"].
Proof. done. Qed.

Section GzipProperties.
Variable gzip_compress : content → content.

Lemma compress_loop t names s s' :
  (∀ x, x ∈ names → fnmatch x "*.tar" = true) →
  for_each ((λ x, (["tmp"; t] ++ [x])%list) <$> names) (λ tar_path,
    tar_file_in <- read_file tar_path ;;
    write_file (gz_path tar_path) (gzip_compress tar_file_in)) s = (Ok tt, s') →
  (∀ x, x ∈ names →
     ∃ c, staged t s !! x = Some (File c) ∧
          staged t s' !! (x ++ ".gz") = Some (File (gzip_compress c))) ∧
  (∀ y, (∀ x, x ∈ names → y ≠ x ++ ".gz") → staged t s' !! y = staged t s !! y).
Proof.
  revert s. induction names as [|x names IH]; intros s Hnames H.
  { cbn in H. unfold ret in H. simplify_eq. split; [|done].
    intros x Hx. by apply elem_of_nil in Hx. }
  rewrite fmap_cons in H. cbn [for_each app] in H.
  apply bind_ok_inv in H as ([] & s1 & Hx & H).
  apply bind_ok_inv in Hx as (c & s0 & Hread & Hwrite).
  unfold read_file in Hread.
  pose proof (open_rb_lookup ["tmp"; t; x] s) as Hopen.
  rewrite lookup_staged in Hopen.
  destruct (staged t s !! x) as [[c'|k]|] eqn:Hsx.
  2:{ rewrite Hopen in Hread. done. }
  2:{ destruct Hopen as [e He]. rewrite He in Hread. done. }
  rewrite Hopen in Hread.
  injection Hread as <- <-. rewrite gz_path_staged in Hwrite.
  assert (Hs1 : ∀ y, staged t s1 !! y
                     = if decide (x ++ ".gz" = y) then Some (File (gzip_compress c'))
                       else staged t s !! y).
  { intros y. rewrite <- !lookup_staged. by apply write_file_staged. }
  destruct (IH s1) as [Hdone Hother]; [|done|].
  { intros y Hy. apply Hnames. by right. }
  split.
  - intros y [->|Hy]%elem_of_cons.
    + exists c'. split; [done|].
      destruct (decide (x ∈ names)) as [Hin|Hout].
      * destruct (Hdone x Hin) as (c2 & Hc2 & ->).
        rewrite Hs1, decide_False in Hc2; [congruence|].
        intros Heq. symmetry in Heq. revert Heq. apply tar_name_not_gz.
        apply Hnames. by left.
      * rewrite Hother.
        -- by rewrite Hs1, decide_True.
        -- intros x2 Hx2 Heq%string_app_inj_r. by subst.
    + destruct (Hdone y Hy) as (c2 & Hc2 & Hgz). exists c2. split; [|done].
      rewrite Hs1, decide_False in Hc2; [done|].
      intros Heq. symmetry in Heq. revert Heq. apply tar_name_not_gz.
      apply Hnames. by right.
  - intros y Hy. rewrite Hother.
    + rewrite Hs1, decide_False; [done|]. intros <-. by apply (Hy x); [left|].
    + intros x2 Hx2. apply Hy. by right.
Qed.

(** X14.  [compress_all_archives]: after a run that returns, every regular
    file of the staging directory whose name [glob] matches against
    ['*.tar'] has beside it a file [<name>.gz] that holds its compressed
    content, and is itself still there, unchanged; every other entry of
    the staging directory is as it was.  When a directory of the staging
    directory has a matching name, the run raises. *)
Theorem compress_all_archives_adds_gzip_copies (t : string) (s : node) :
  (∀ s', compress_all_archives gzip_compress t s = (Ok tt, s') →
     (∀ x c, staged t s !! x = Some (File c) → glob_match "*.tar" x = true →
        staged t s' !! (x ++ ".gz") = Some (File (gzip_compress c)) ∧
        staged t s' !! x = Some (File c)) ∧
     (∀ y, (∀ x, is_Some (staged t s !! x) → glob_match "*.tar" x = true →
                 y ≠ x ++ ".gz") →
           staged t s' !! y = staged t s !! y)) ∧
  (∀ x k, staged t s !! x = Some (Dir k) → glob_match "*.tar" x = true →
          ∃ e s', compress_all_archives gzip_compress t s = (Raise e, s')).
Proof.
  assert (Hin : ∀ x, x ∈ glob1 (map_to_list (staged t s)).*1 "*.tar" ↔
                     is_Some (staged t s !! x) ∧ glob_match "*.tar" x = true).
  { intros x. rewrite elem_of_glob1 by done. rewrite elem_of_listing.
    unfold glob_match. change (starts_with_dot "*.tar") with false. cbn [orb].
    rewrite andb_true_iff, negb_true_iff. tauto. }
  assert (Hfn : ∀ x, x ∈ glob1 (map_to_list (staged t s)).*1 "*.tar" →
                     fnmatch x "*.tar" = true).
  { intros x [_ Hm]%Hin. unfold glob_match in Hm.
    by apply andb_true_iff in Hm as [_ ?]. }
  split.
  - intros s' Hrun. unfold compress_all_archives in Hrun.
    apply bind_ok_inv in Hrun as (s0 & ? & Hget & Hrun).
    cbv [get] in Hget. injection Hget as <- <-.
    rewrite glob_staged in Hrun.
    destruct (compress_loop _ _ _ _ Hfn Hrun) as [Hdone Hother].
    split.
    + intros x c Hx Hmatch.
      destruct (Hdone x) as (c' & Hc' & Hgz); [apply Hin; eauto|].
      rewrite Hx in Hc'. injection Hc' as <-. split; [done|].
      rewrite Hother; [done|]. intros x2 Hx2. apply tar_name_not_gz.
      unfold glob_match in Hmatch. by apply andb_true_iff in Hmatch as [_ ?].
    + intros y Hy. apply Hother. intros x [Hx Hm]%Hin. by apply Hy.
  - intros x k Hx Hmatch.
    destruct (compress_all_archives gzip_compress t s) as [[[]|e] s'] eqn:Hrun;
      [|by eauto].
    exfalso. unfold compress_all_archives in Hrun.
    apply bind_ok_inv in Hrun as (s0 & ? & Hget & Hrun).
    cbv [get] in Hget. injection Hget as <- <-.
    rewrite glob_staged in Hrun.
    destruct (compress_loop _ _ _ _ Hfn Hrun) as [Hdone _].
    destruct (Hdone x) as (c' & Hc' & _); [apply Hin; eauto|]. congruence.
Qed.

End GzipProperties.

Lemma compress_all_archives_adds_gzip_copies_witness :
  staged "document"
    (compress_all_archives example_gzip "document" example_tars_on_disk).2
    !! "ca9.tar.gz"
  = Some (File (Tar (Some 9) [("2.json", File (Bytes "{}"))])) ∧
  staged "document"
    (compress_all_archives example_gzip "document" example_tars_on_disk).2
    !! "ca9.tar"
  = Some (File (Tar None [("2.json", File (Bytes "{}"))])).
Proof.
  destruct (compress_all_archives_adds_gzip_copies example_gzip "document"
              example_tars_on_disk) as [Hrun _].
  destruct (Hrun (compress_all_archives example_gzip "document"
                    example_tars_on_disk).2) as [Hgz _].
  { vm_compute. reflexivity. }
  apply (Hgz "ca9.tar" (Tar None [("2.json", File (Bytes "{}"))])).
  - vm_compute. reflexivity.
  - vm_compute. reflexivity.
Defined.

(** ** [make_archive]: the members of the tar files *)

Lemma mkdir_p_staging_same t s s' :
  mkdir_p ["tmp"; t] s = (Ok tt, s') → staged t s' = staged t s.
Proof.
  unfold mkdir_p, mkdir_p_with, os_makedirs.
  destruct (makedirs ["tmp"; t] s) as [e|s1] eqn:Hm.
  - destruct (bool_decide _ && isdir _ s); [|done]. by intros [= <-].
  - intros [= <-]. apply map_eq. intros y. rewrite <- !lookup_staged.
    destruct (makedirs_child_absent _ y _ _ Hm) as [H1 H2].
    cbn [app] in H1, H2. by rewrite H1, H2.
Qed.

Lemma incremental_at_staged t s s' :
  staged t s' = staged t s → incremental_at t s' = incremental_at t s.
Proof.
  intros H. unfold incremental_at, test_if_old_bulk_files_exist.
  rewrite !glob_staged, H.
  by match goal with
     | |- context [match ?l with [] => _ | _ :: _ => _ end] => destruct l
     end.
Qed.

Lemma old_members_staged t y s s' :
  staged t s' !! y = staged t s !! y →
  old_members ["tmp"; t; y] s' = old_members ["tmp"; t; y] s.
Proof. unfold old_members. rewrite !lookup_staged. by intros ->. Qed.

Lemma tarfile_open_a_members t x s h s' :
  tarfile_open_a ["tmp"; t; x] s = (Ok h, s') →
  tar_name h = ["tmp"; t; x] ∧ tar_level h = None ∧
  tar_members h = old_members ["tmp"; t; x] s ∧
  ∀ y, old_members ["tmp"; t; y] s' = old_members ["tmp"; t; y] s.
Proof.
  unfold tarfile_open_a, old_members.
  destruct (lookup_path ["tmp"; t; x] s) as [[[| |[]]|]|] eqn:Hl; try done.
  - intros [= <- <-]. done.
  - intros ([] & s1 & Hw & Hret)%bind_ok_inv. unfold ret in Hret. simplify_eq.
    repeat split; try done. intros y.
    rewrite (write_file_staged t _ y _ _ _ Hw). case_decide; [|done].
    subst. by rewrite Hl.
Qed.

Lemma open_fold_members (t : string) (courts : list pyval)
    (keys : list string) (d : gmap (Z + string) TarFile) (s : node)
    (d' : gmap (Z + string) TarFile) (s' : node) :
  court_keys courts keys →
  fold_each courts d
    (λ tar_files court,
      pk <- lift (getattr court "pk") ;;
      key <- lift (dict_key pk) ;;
      stem <- lift (format_s pk) ;;
      tar <- tarfile_open_a ["tmp"; t; stem ++ ".tar"] ;;
      ret (<[key := tar]> tar_files)) s = (Ok d', s') →
  (∀ y, old_members ["tmp"; t; y] s' = old_members ["tmp"; t; y] s) ∧
  (∀ k, k ∈ keys →
     ∃ h, d' !! inr k = Some h ∧ tar_name h = ["tmp"; t; k ++ ".tar"] ∧
          tar_level h = None ∧
          tar_members h = old_members ["tmp"; t; k ++ ".tar"] s) ∧
  (∀ key, key ∉ (inr <$> keys : list (Z + string)) → d' !! key = d !! key).
Proof.
  intros Hkeys. revert d s.
  induction Hkeys as [|court k courts keys Hpk _ IH]; intros d s H.
  { cbn in H. unfold ret in H. simplify_eq. split; [done|]. split; [|done].
    intros k Hk. by apply elem_of_nil in Hk. }
  cbn [fold_each] in H. apply bind_ok_inv in H as (d1 & s1 & Hopen & H).
  apply bind_ok_inv in Hopen as (pk & ? & [Hpk' ->]%lift_ok_inv & Hopen).
  rewrite Hpk in Hpk'. injection Hpk' as <-.
  apply bind_ok_inv in Hopen as (key & ? & [Hkey ->]%lift_ok_inv & Hopen).
  apply bind_ok_inv in Hopen as (stem & ? & [Hstem ->]%lift_ok_inv & Hopen).
  cbn in Hkey, Hstem. simplify_eq.
  apply bind_ok_inv in Hopen as (h & s1' & Hopen & Hret).
  unfold ret in Hret. simplify_eq.
  destruct (tarfile_open_a_members _ _ _ _ _ Hopen) as (Hn & Hl & Hmem & Hrec).
  destruct (IH _ _ H) as (Hrec' & Hhandles & Hother).
  split; [|split].
  - intros y. by rewrite Hrec', Hrec.
  - intros k' Hk'.
    destruct (decide (k' ∈ keys)) as [Hin|Hout].
    + destruct (Hhandles k' Hin) as (h' & ? & ? & ? & Hmem').
      exists h'. repeat split; try done. by rewrite Hmem', Hrec.
    + apply elem_of_cons in Hk' as [->|]; [|done].
      exists h. rewrite Hother, lookup_insert_eq; [done|].
      intros (k' & [= <-] & Hin)%list_elem_of_fmap. done.
  - intros key' Hout. rewrite fmap_cons in Hout.
    apply not_elem_of_cons in Hout as [Hne Hout].
    rewrite (Hother _ Hout). by rewrite lookup_insert_ne.
Qed.

Lemma in_court_true court_attr k item :
  in_court court_attr k item = true ↔ deepgetattr item court_attr = Ok (PyStr k).
Proof.
  unfold in_court. destruct (deepgetattr item court_attr) as [[]|]; try done.
  rewrite String.eqb_eq. split; congruence.
Qed.

Lemma items_fold_members (court_attr : string)
    (api : pyval → outcome string) (keys : list string) (items : list pyval)
    (d : gmap (Z + string) TarFile) (s : node)
    (d' : gmap (Z + string) TarFile) (s' : node) :
  NoDup keys → "all" ∉ keys →
  (∀ item, item ∈ items → deepgetattr item court_attr ≠ Ok (PyStr "all")) →
  known_keys d keys →
  fold_each items d
    (λ tar_files item,
      json_str <- lift (api item) ;;
      pk <- lift (getattr item "pk") ;;
      stem <- lift (format_s pk) ;;
      _ <- lift (getattr item "date_modified") ;;
      court <- lift (deepgetattr item court_attr) ;;
      key <- lift (dict_key court) ;;
      tar <- dict_get tar_files key ;;
      let tar_files :=
        <[key := tar_addfile tar (stem ++ ".json") json_str]> tar_files in
      tar <- dict_get tar_files (inr "all") ;;
      ret (<[inr "all" := tar_addfile tar (stem ++ ".json") json_str]>
             tar_files)) s = (Ok d', s') →
  s' = s ∧ same_handles d d' ∧
  (∀ item, item ∈ items →
     ∃ k, k ∈ keys ∧ deepgetattr item court_attr = Ok (PyStr k)) ∧
  (∀ k, k ∈ keys →
     ∃ ms, handle_members d' (inr k) = (handle_members d (inr k) ++ ms)%list ∧
           records_of api (filter (λ item, in_court court_attr k item = true) items) ms) ∧
  (∃ ms, handle_members d' (inr "all")
         = (handle_members d (inr "all") ++ ms)%list ∧
         records_of api items ms).
Proof.
  intros Hnd Hall. revert d s.
  induction items as [|item items IH]; intros d s Hitems Hknown H.
  { cbn in H. unfold ret in H. simplify_eq. split; [done|].
    split; [apply same_handles_refl|]. split.
    { intros item Hin. by apply elem_of_nil in Hin. }
    split.
    - intros k _. exists []. rewrite app_nil_r. split; [done|]. constructor.
    - exists []. rewrite app_nil_r. split; [done|]. constructor. }
  cbn [fold_each] in H. apply bind_ok_inv in H as (d1 & s1 & Hitem & H).
  apply bind_ok_inv in Hitem as (json & ? & [Hjson ->]%lift_ok_inv & Hitem).
  apply bind_ok_inv in Hitem as (pk & ? & [Hpk ->]%lift_ok_inv & Hitem).
  apply bind_ok_inv in Hitem as (stem & ? & [Hstem ->]%lift_ok_inv & Hitem).
  apply bind_ok_inv in Hitem as (? & ? & [_ ->]%lift_ok_inv & Hitem).
  apply bind_ok_inv in Hitem as (court & ? & [Hcourt ->]%lift_ok_inv & Hitem).
  apply bind_ok_inv in Hitem as (key & ? & [Hkey ->]%lift_ok_inv & Hitem).
  apply bind_ok_inv in Hitem as (h & ? & [Hh ->]%dict_get_ok_inv & Hitem).
  cbv zeta in Hitem.
  apply bind_ok_inv in Hitem as (ha & ? & [Hha ->]%dict_get_ok_inv & Hret).
  unfold ret in Hret. simplify_eq.
  assert (Hrec : tar_record api item = Ok (stem ++ ".json", File (Bytes json))).
  { unfold tar_record. rewrite Hjson. cbn. rewrite Hpk. cbn. by rewrite Hstem. }
  destruct (Hknown key ltac:(eauto)) as [->|(k & Hk & ->)].
  { exfalso. apply (Hitems item ltac:(left)).
    destruct court; cbn in Hkey; by simplify_eq. }
  assert (Hck : deepgetattr item court_attr = Ok (PyStr k)).
  { destruct court; cbn in Hkey; by simplify_eq. }
  assert (Hne : (inr k : Z + string) ≠ inr "all") by (intros [= ->]; done).
  rewrite lookup_insert_ne in Hha by done.
  set (d1 := <[inr k := tar_addfile h (stem ++ ".json") json]> d) in *.
  set (d2 := <[inr "all" := tar_addfile ha (stem ++ ".json") json]> d1) in *.
  assert (Hs1 : same_handles d d1) by (by apply same_handles_addfile).
  assert (Hs2 : same_handles d1 d2).
  { apply same_handles_addfile. unfold d1. by rewrite lookup_insert_ne. }
  assert (Hitems' : ∀ i, i ∈ items →
                         deepgetattr i court_attr ≠ Ok (PyStr "all")).
  { intros i Hi. apply Hitems. by right. }
  assert (Hknown2 : known_keys d2 keys).
  { eapply known_keys_same; [|exact Hknown]. by eapply same_handles_trans. }
  destruct (IH _ _ Hitems' Hknown2 H) as (-> & Hs3 & Hin & Hper & Hagg).
  split; [done|]. split.
  { eapply same_handles_trans; [|exact Hs3]. by eapply same_handles_trans. }
  split.
  { intros i [->|Hi]%elem_of_cons; [eauto|by apply Hin]. }
  split.
  - intros k' Hk'. destruct (Hper k' Hk') as (ms & Hms & Hrecs).
    rewrite filter_cons. destruct (decide (k' = k)) as [->|Hkk].
    + rewrite decide_True by (by apply in_court_true).
      exists ((stem ++ ".json", File (Bytes json)) :: ms). split.
      * rewrite Hms. unfold handle_members, d2, d1.
        rewrite lookup_insert_ne, lookup_insert_eq, Hh by done. cbn.
        by rewrite <- app_assoc.
      * by constructor.
    + rewrite decide_False.
      2:{ rewrite in_court_true, Hck. congruence. }
      exists ms. split; [|done]. rewrite Hms. unfold handle_members, d2, d1.
      rewrite lookup_insert_ne by (intros [= <-]; done).
      by rewrite lookup_insert_ne by congruence.
  - destruct Hagg as (ms & Hms & Hrecs).
    exists ((stem ++ ".json", File (Bytes json)) :: ms). split.
    + rewrite Hms. unfold handle_members, d2.
      rewrite lookup_insert_eq. cbn.
      unfold d1 in Hha. rewrite Hha.
      by rewrite <- app_assoc.
    + by constructor.
Qed.

Lemma close_fold_members (t : string) (courts : list pyval) (keys : list string)
    (d : gmap (Z + string) TarFile) (s s' : node) :
  court_keys courts keys → NoDup keys →
  (∀ k, k ∈ keys → ∃ h, d !! inr k = Some h ∧
                        tar_name h = ["tmp"; t; k ++ ".tar"] ∧
                        tar_level h = None) →
  for_each courts (λ court,
    pk <- lift (getattr court "pk") ;;
    key <- lift (dict_key pk) ;;
    tar <- dict_get d key ;;
    tar_close tar) s = (Ok tt, s') →
  (∀ k, k ∈ keys →
        lookup_path ["tmp"; t; k ++ ".tar"] s'
        = Some (File (Tar None (handle_members d (inr k))))) ∧
  (∀ y, (∀ k, k ∈ keys → y ≠ k ++ ".tar") →
        lookup_path ["tmp"; t; y] s' = lookup_path ["tmp"; t; y] s).
Proof.
  intros Hkeys. revert s.
  induction Hkeys as [|court k courts keys Hpk _ IH]; intros s Hnd Hd H.
  { cbn in H. unfold ret in H. simplify_eq. split; [|done].
    intros k Hk. by apply elem_of_nil in Hk. }
  apply NoDup_cons in Hnd as [Hk Hnd].
  cbn [for_each] in H. apply bind_ok_inv in H as ([] & s1 & Hclose & H).
  apply bind_ok_inv in Hclose as (pk & ? & [Hpk' ->]%lift_ok_inv & Hclose).
  rewrite Hpk in Hpk'. injection Hpk' as <-.
  apply bind_ok_inv in Hclose as (key & ? & [Hkey ->]%lift_ok_inv & Hclose).
  cbn in Hkey. injection Hkey as <-.
  apply bind_ok_inv in Hclose as (h & ? & [Hh ->]%dict_get_ok_inv & Hclose).
  destruct (Hd k ltac:(left)) as (h' & Hh' & Hname & Hlevel).
  rewrite Hh in Hh'. injection Hh' as <-.
  pose proof (tar_close_records t _ h _ _ (k ++ ".tar") Hname Hclose) as Hk1.
  rewrite decide_True in Hk1 by done.
  destruct (IH s1 Hnd) as [Hrec Hother]; [|done|].
  { intros k' Hk'. apply Hd. by right. }
  split.
  - intros k' [->|Hk']%elem_of_cons; [|by apply Hrec].
    rewrite Hother, Hk1.
    + unfold handle_members. by rewrite Hh, Hlevel.
    + intros k' Hk' ->%string_app_inj_r. done.
  - intros y Hy. rewrite Hother.
    + rewrite (tar_close_records t _ h _ _ y Hname Hclose).
      rewrite decide_False; [done|]. intros <-. by apply (Hy k); [left|].
    + intros k' Hk'. apply Hy. by right.
Qed.

Section MakeArchiveAppends.
Variable queryset_generator : list pyval → list pyval.
Hypothesis queryset_generator_yields :
  ∀ qs x, x ∈ queryset_generator qs → x ∈ qs.

(** X15.  [make_archive] appends.  When the object type is a plain name, the
    keys of the jurisdictions are distinct plain names other than ['all'],
    no record is attached to a jurisdiction ['all'] and
    [queryset_generator] hands out rows of the query set only: after a run
    that returns, every selected item is attached to one of the
    jurisdictions, the tar file of each jurisdiction holds the members it
    held before the run followed by one member [<pk>.json] for each
    selected item of that jurisdiction, in the order of the selection, and
    ['all.tar'] holds its old members followed by one member for each
    selected item. *)
Theorem make_archive_appends_the_selection (now : Z) (t : string)
    (obj_type : list pyval) (court_attr : string)
    (api : pyval → outcome string) (courts : list pyval) (keys : list string)
    (s s' : node) :
  plain_name t = true → Forall (λ k, plain_name k = true) keys →
  court_keys courts keys → NoDup keys → "all" ∉ keys →
  (∀ item, item ∈ obj_type → deepgetattr item court_attr ≠ Ok (PyStr "all")) →
  make_archive queryset_generator now t obj_type court_attr api courts s
    = (Ok tt, s') →
  ∃ items,
    item_list_of queryset_generator
      (select_qs (incremental_at t s) now obj_type) = Ok items ∧
    (∀ item, item ∈ items →
       ∃ k, k ∈ keys ∧ deepgetattr item court_attr = Ok (PyStr k)) ∧
    (∀ k, k ∈ keys →
       ∃ ms,
         lookup_path ["tmp"; t; k ++ ".tar"] s'
         = Some (File (Tar None (old_members ["tmp"; t; k ++ ".tar"] s ++ ms))) ∧
         records_of api
           (filter (λ item, in_court court_attr k item = true) items) ms) ∧
    (∃ ms,
       lookup_path ["tmp"; t; "all.tar"] s'
       = Some (File (Tar None (old_members ["tmp"; t; "all.tar"] s ++ ms))) ∧
       records_of api items ms).
Proof.
  intros _ _ Hkeys Hnd Hall Hitems H. unfold make_archive in H.
  apply bind_ok_inv in H as ([] & s1 & Hmk & H).
  apply bind_ok_inv in H as (b & ? & Htest & H).
  rewrite test_if_old_bulk_files_exist_run in Htest. injection Htest as <- <-.
  apply bind_ok_inv in H as (d0 & s2 & Hopen & H).
  apply bind_ok_inv in H as (hall & s3 & Hopen_all & H). cbv zeta in H.
  apply bind_ok_inv in H as (items & ? & [Hil ->]%lift_ok_inv & H).
  apply bind_ok_inv in H as (d1 & s3' & Hfold & H).
  apply bind_ok_inv in H as ([] & s4 & Hclose & H).
  apply bind_ok_inv in H as (hall' & ? & [Hhall' ->]%dict_get_ok_inv & Hclose_all).
  pose proof (mkdir_p_staging_same _ _ _ Hmk) as Hstaged.
  rewrite (incremental_at_staged _ _ _ Hstaged) in Hil.
  exists items. split; [done|].
  (* opening *)
  destruct (open_fold_members _ _ _ _ _ _ _ Hkeys Hopen) as (Hrec2 & Hhandles & Hdom).
  destruct (tarfile_open_a_members _ _ _ _ _ Hopen_all) as (Hn & Hl & Hmem & Hrec3).
  assert (Hold : ∀ y, old_members ["tmp"; t; y] s1 = old_members ["tmp"; t; y] s).
  { intros y. apply old_members_staged. by rewrite Hstaged. }
  set (d := <[inr "all" := hall]> d0) in *.
  assert (Hknown : known_keys d keys).
  { intros key [h Hh]. destruct (decide (key = inr "all")) as [|Hne]; [by left|].
    right. unfold d in Hh. rewrite lookup_insert_ne in Hh by done.
    destruct (decide (key ∈ (inr <$> keys : list (Z + string)))) as [Hin|Hout].
    - apply list_elem_of_fmap in Hin as (k & -> & Hk). eauto.
    - rewrite (Hdom _ Hout), lookup_empty in Hh. done. }
  (* adding the records *)
  destruct (items_fold_members _ _ _ _ _ _ _ _ Hnd Hall
              ltac:(intros i Hi; eapply Hitems, select_qs_subseteq,
                    item_list_of_subseteq; eauto) Hknown Hfold)
    as (-> & Hsame & Hin & Hper & Hagg).
  split; [done|].
  (* closing *)
  assert (Hd1 : ∀ k, k ∈ keys → ∃ h, d1 !! inr k = Some h ∧
                                   tar_name h = ["tmp"; t; k ++ ".tar"] ∧
                                   tar_level h = None).
  { intros k Hk. destruct (Hhandles k Hk) as (h & Hh & Hname & Hlevel & _).
    specialize (Hsame (inr k)). unfold d in Hsame.
    rewrite lookup_insert_ne, Hh in Hsame by (intros [= <-]; done).
    destruct (d1 !! inr k) as [h'|]; [|done]. exists h'.
    destruct Hsame. repeat split; congruence. }
  destruct (close_fold_members _ _ _ _ _ _ Hkeys Hnd Hd1 Hclose) as [Hrec4 Hother4].
  assert (Hname' : tar_name hall' = ["tmp"; t; "all" ++ ".tar"] ∧
                   tar_level hall' = None).
  { specialize (Hsame (inr "all")). unfold d in Hsame.
    rewrite lookup_insert_eq, Hhall' in Hsame. destruct Hsame as [-> ->].
    done. }
  destruct Hname' as [Hname' Hlevel'].
  pose proof (λ y, tar_close_records t _ hall' _ _ y Hname' Hclose_all) as Hfinal.
  split.
  - intros k Hk. destruct (Hper k Hk) as (ms & Hms & Hrecs).
    exists ms. split; [|done].
    rewrite Hfinal, decide_False.
    2:{ intros Heq. apply (string_app_inj_r "all" k ".tar") in Heq. by subst. }
    rewrite (Hrec4 k Hk), Hms. do 3 f_equal.
    destruct (Hhandles k Hk) as (h & Hh & _ & _ & Hmemk).
    unfold handle_members, d. rewrite lookup_insert_ne by (intros [= <-]; done).
    by rewrite Hh, Hmemk, Hold.
  - destruct Hagg as (ms & Hms & Hrecs). exists ms. split; [|done].
    rewrite Hfinal, decide_True by done. rewrite Hlevel'.
    unfold handle_members in Hms. rewrite Hhall' in Hms. rewrite Hms.
    do 3 f_equal. unfold d. rewrite lookup_insert_eq.
    by rewrite Hmem, Hrec2, Hold.
Qed.

End MakeArchiveAppends.

Lemma make_archive_appends_the_selection_witness :
  ∃ items,
    item_list_of (λ qs, qs)
      (select_qs (incremental_at "document" (Dir ∅)) 100 example_documents)
    = Ok items ∧
    (∀ item, item ∈ items →
       ∃ k, k ∈ ["scotus"; "ca9"] ∧
            deepgetattr item "docket.court_id" = Ok (PyStr k)) ∧
    (∀ k, k ∈ ["scotus"; "ca9"] →
       ∃ ms,
         lookup_path ["tmp"; "document"; k ++ ".tar"] example_tars_on_disk
         = Some (File (Tar None
                   (old_members ["tmp"; "document"; k ++ ".tar"] (Dir ∅) ++ ms))) ∧
         records_of example_api
           (filter (λ item, in_court "docket.court_id" k item = true) items) ms) ∧
    (∃ ms,
       lookup_path ["tmp"; "document"; "all.tar"] example_tars_on_disk
       = Some (File (Tar None
                 (old_members ["tmp"; "document"; "all.tar"] (Dir ∅) ++ ms))) ∧
       records_of example_api items ms).
Proof.
  apply (make_archive_appends_the_selection (λ qs, qs) ltac:(done) 100
           "document" example_documents "docket.court_id" example_api
           example_courts ["scotus"; "ca9"] (Dir ∅) example_tars_on_disk).
  - vm_compute. reflexivity.
  - repeat constructor.
  - repeat constructor.
  - apply NoDup_cons. split; [|apply NoDup_singleton].
    intros Hin%list_elem_of_singleton. discriminate Hin.
  - intros Hin. repeat (apply elem_of_cons in Hin as [Hin|Hin];
                        [discriminate Hin|]).
    by apply elem_of_nil in Hin.
  - intros item Hitem. unfold example_documents in Hitem.
    repeat (apply elem_of_cons in Hitem as [->|Hitem]);
      [vm_compute; discriminate..|].
    by apply elem_of_nil in Hitem.
  - vm_compute. reflexivity.
Defined.

(** ** A completed export *)

Lemma fnmatch_suffix (pre suf pat : string) :
  wild (String.list_ascii_of_string pat) (String.list_ascii_of_string suf) = true →
  fnmatch (pre ++ suf) (String "*" pat) = true.
Proof.
  intros H. unfold fnmatch. rewrite list_ascii_of_string_app.
  change (String.list_ascii_of_string (String "*" pat))
    with ("*"%char :: String.list_ascii_of_string pat).
  by apply wild_star_intro.
Qed.

Lemma fnmatch_json stem : fnmatch (stem ++ ".json") "*.json" = true.
Proof. apply (fnmatch_suffix stem ".json" ".json"). reflexivity. Qed.

Lemma fnmatch_tar_gz k : fnmatch (k ++ ".tar.gz") "*.tar*" = true.
Proof. apply (fnmatch_suffix k ".tar.gz" ".tar*"). reflexivity. Qed.

Lemma starts_with_dot_app a b :
  starts_with_dot a = false → a ≠ "" → starts_with_dot (a ++ b) = false.
Proof. by destruct a. Qed.

Lemma dir_entries_lookup (d : path) x s n :
  lookup_path (d ++ [x])%list s = Some n → dir_entries d s !! x = Some n.
Proof.
  rewrite lookup_path_app. unfold dir_entries.
  destruct (lookup_path d s) as [[c|kids]|]; cbn; try done.
  by destruct (kids !! x).
Qed.

Lemma record_path_inv t court_attr item p :
  record_path t court_attr item = Ok p →
  ∃ k stem, p = ["tmp"; t; k; stem ++ ".json"] ∧
            deepgetattr item court_attr = Ok (PyStr k).
Proof.
  unfold record_path, and_then.
  destruct (deepgetattr item court_attr) as [court|]; [|done].
  destruct court; try done. cbn.
  destruct (getattr item "pk") as [pk|]; [|done].
  destruct (format_s pk) as [stem|]; [|done]. intros [= <-]. eauto.
Qed.

Section EndToEnd.
Variable queryset_generator : list pyval → list pyval.

(** The three stages of the body of [do_everything]: the archive that is
    published for a jurisdiction holds the JSON entries that its staging
    directory held when the records were written. *)
Lemma export_archives (now : Z) (courts : list pyval) (t : string)
    (obj_type : list pyval) (court_attr : string)
    (api : pyval → outcome string) (s s' : node) :
  t ≠ "tmp" →
  do_everything_body queryset_generator now courts t obj_type court_attr api s
    = (Ok tt, s') →
  ∃ s1,
    write_json_to_disk queryset_generator now t obj_type court_attr api courts s
      = (Ok tt, s1) ∧
    ∀ court, court ∈ courts →
      ∃ k, getattr court "pk" = Ok (PyStr k) ∧
        (k ≠ "" → starts_with_dot k = false →
         (∀ d, published t s !! (k ++ ".tar.gz") ≠ Some (Dir d)) →
         ∃ ms,
           published t s' !! (k ++ ".tar.gz") = Some (File (Tar (Some 6) ms)) ∧
           json_members (dir_entries ["tmp"; t; k] s1) ms ∧
           (glob_match "*.tar*" k = false →
            dir_entries ["tmp"; t; k] s' = dir_entries ["tmp"; t; k] s1)).
Proof.
  intros Ht Hrun. unfold do_everything_body in Hrun.
  apply bind_ok_inv in Hrun as ([] & s1 & Hjson & Hrun).
  apply bind_ok_inv in Hrun as ([] & s2 & Htar & Hswap).
  exists s1. split; [done|].
  pose proof (write_json_to_disk_frame queryset_generator now t obj_type
                court_attr api courts [t] (lookup_path [t] s)
                (outside_staging_top t t Ht) s eq_refl) as Hpub1.
  rewrite Hjson in Hpub1. cbn [snd] in Hpub1.
  destruct (tar_and_compress_spec _ _ _ _ Htar) as (Harch & _ & Hdirs2).
  pose proof (tar_and_compress_frame t courts [t] (lookup_path [t] s1)
                (outside_staging_top t t Ht) s1 eq_refl) as Hpub2.
  rewrite Htar in Hpub2. cbn [snd] in Hpub2.
  assert (Hpub : published t s2 = published t s).
  { unfold published, dir_entries. by rewrite Hpub2, Hpub1. }
  destruct (swap_archives_run t s2 _ _ Ht Hswap) as [[_ ?]|(s3 & _ & _ & Hp)]; [done|].
  intros court Hin.
  destruct (Harch court Hin) as (k & Hpk & ms & Hms & Hmembers).
  exists k. split; [done|]. intros Hk0 Hdot Hnodir. exists ms.
  assert (Hmatch : glob_match "*.tar*" (k ++ ".tar.gz") = true).
  { unfold glob_match. rewrite fnmatch_tar_gz.
    by rewrite starts_with_dot_app. }
  rewrite lookup_staged in Hms.
  assert (Hnames : k ++ ".tar.gz" ∈ archive_names (staged t s2)).
  { apply elem_of_archive_names. eauto. }
  split; [|split; [done|]].
  - destruct (publish_all_cases _ _ _ _ _ _ _ (NoDup_archive_names _) Hp Hnames)
      as [(n & v & Hn & Hl & _ & Hv)|[? _]]; [|done].
    rewrite Hms in Hn. injection Hn as <-. rewrite Hv. f_equal.
    unfold landing in Hl. rewrite Hpub in Hl.
    destruct (published t s !! (k ++ ".tar.gz")) as [[c|d]|] eqn:Hold;
      [by simplify_eq| |by simplify_eq].
    by destruct (Hnodir d).
  - intros Hk. rewrite <- Hdirs2. unfold dir_entries. rewrite !lookup_staged.
    by rewrite (swap_archives_staging_frame t s2 _ s' k Ht Hswap Hk).
Qed.

Lemma write_json_to_disk_items now t obj_type court_attr
    (api : pyval → outcome string) courts s s1 :
  write_json_to_disk queryset_generator now t obj_type court_attr api courts s
    = (Ok tt, s1) →
  ∃ items s0,
    item_list_of queryset_generator
      (select_qs (incremental_at t s) now obj_type) = Ok items ∧
    make_court_dirs t courts s = (Ok tt, s0) ∧
    for_each items (λ item,
      json_str <- lift (api item) ;;
      court <- lift (deepgetattr item court_attr) ;;
      dir <- lift (as_str court) ;;
      pk <- lift (getattr item "pk") ;;
      stem <- lift (format_s pk) ;;
      write_file ["tmp"; t; dir; stem ++ ".json"] (Bytes json_str)) s0
    = (Ok tt, s1).
Proof.
  intros Hjson. unfold write_json_to_disk in Hjson.
  apply bind_ok_inv in Hjson as (b & s0 & Htest & Hjson).
  rewrite test_if_old_bulk_files_exist_run in Htest. injection Htest as <- <-.
  apply bind_ok_inv in Hjson as ([] & s0' & Hdirs & Hjson).
  apply bind_ok_inv in Hjson as (items & ? & [Hitems ->]%lift_ok_inv & Hjson).
  by exists items, s0'.
Qed.

(** X16.  A completed export of one object type publishes the selected
    records.  When the names the export makes its paths of are plain
    ([plain_export]) and the JSON entries staged before the run are
    regular files ([json_entries_are_files]): after a run of the body of
    [do_everything] that returns, for every jurisdiction whose key [k]
    does not begin with a dot, and under whose archive name no directory
    was published: the published [<k>.tar.gz] is a gzip archive of level
    6; it holds, under the name [<pk>.json], the serialization of every
    selected item of the jurisdiction (the last one written to that name,
    provided the name does not begin with a dot); and when [glob] does not
    match [k] against ['*.tar*'], its members are exactly the JSON entries
    that the staging directory of [k] holds after the run. *)
Theorem do_everything_body_publishes_the_records (now : Z)
    (courts : list pyval) (t : string) (obj_type : list pyval)
    (court_attr : string) (api : pyval → outcome string) (s s' : node) :
  t ≠ "tmp" →
  plain_export queryset_generator t courts court_attr obj_type →
  json_entries_are_files t courts s = true →
  do_everything_body queryset_generator now courts t obj_type court_attr api s
    = (Ok tt, s') →
  ∃ items,
    item_list_of queryset_generator
      (select_qs (incremental_at t s) now obj_type) = Ok items ∧
    ∀ court, court ∈ courts →
      ∃ k, getattr court "pk" = Ok (PyStr k) ∧
        (k ≠ "" → starts_with_dot k = false →
         (∀ d, published t s !! (k ++ ".tar.gz") ≠ Some (Dir d)) →
         ∃ ms,
           published t s' !! (k ++ ".tar.gz") = Some (File (Tar (Some 6) ms)) ∧
           (∀ l1 item l2 x,
              items = (l1 ++ item :: l2)%list →
              record_path t court_attr item = Ok ["tmp"; t; k; x] →
              (∀ i, i ∈ l2 → record_path t court_attr i ≠ Ok ["tmp"; t; k; x]) →
              starts_with_dot x = false →
              ∃ json, api item = Ok json ∧ (x, File (Bytes json)) ∈ ms) ∧
           (glob_match "*.tar*" k = false →
            json_members (dir_entries ["tmp"; t; k] s') ms)).
Proof.
  intros Ht _ _ Hrun.
  destruct (export_archives _ _ _ _ _ _ _ _ Ht Hrun) as (s1 & Hjson & Harch).
  destruct (write_json_to_disk_items _ _ _ _ _ _ _ _ Hjson)
    as (items & s0 & Hitems & _ & Hloop).
  destruct (write_items _ _ _ _ _ _ Hloop) as [Hlast _].
  exists items. split; [done|]. intros court Hin.
  destruct (Harch court Hin) as (k & Hpk & Hk). exists k. split; [done|].
  intros Hk0 Hdot Hnodir.
  destruct (Hk Hk0 Hdot Hnodir) as (ms & Hpub & Hmembers & Hsame).
  exists ms. split; [done|]. split.
  - intros l1 item l2 x Hsplit Hpath Hl2 Hx.
    destruct (Hlast l1 item l2 Hsplit) as (p & json & Hp' & Hapi & Hfile).
    rewrite Hpath in Hp'. injection Hp' as <-.
    exists json. split; [done|].
    destruct Hmembers as [_ Hmem]. apply Hmem. split.
    + apply (dir_entries_lookup ["tmp"; t; k]). cbn [app]. by apply Hfile.
    + destruct (record_path_inv _ _ _ _ Hpath) as (k' & stem & [= <- ->] & _).
      unfold glob_match. by rewrite fnmatch_json, Hx.
  - intros Hmatch. by rewrite (Hsame Hmatch).
Qed.

(** X17.  An export does not drop what was exported before.  When the names
    the export makes its paths of are plain ([plain_export]): after a run
    of the body of [do_everything] that returns, every regular file that
    the staging directory of a jurisdiction held before the run under a
    plain name that [glob] matches against ['*.json'] is a member of the
    archive published for the jurisdiction (for keys and published names
    as in X16), with the content it had unless the run has selected a
    record with that path.  So the archives of an incremental run hold the
    records of the earlier runs beside those of the last 32 days. *)
Theorem export_keeps_the_earlier_records (now : Z)
    (courts : list pyval) (t : string) (obj_type : list pyval)
    (court_attr : string) (api : pyval → outcome string) (s s' : node) :
  t ≠ "tmp" →
  plain_export queryset_generator t courts court_attr obj_type →
  do_everything_body queryset_generator now courts t obj_type court_attr api s
    = (Ok tt, s') →
  ∃ items,
    item_list_of queryset_generator
      (select_qs (incremental_at t s) now obj_type) = Ok items ∧
    ∀ court, court ∈ courts →
      ∃ k, getattr court "pk" = Ok (PyStr k) ∧
        (k ≠ "" → starts_with_dot k = false →
         (∀ d, published t s !! (k ++ ".tar.gz") ≠ Some (Dir d)) →
         ∃ ms,
           published t s' !! (k ++ ".tar.gz") = Some (File (Tar (Some 6) ms)) ∧
           ∀ x c,
             plain_name x = true →
             lookup_path ["tmp"; t; k; x] s = Some (File c) →
             glob_match "*.json" x = true →
             ∃ c', (x, File c') ∈ ms ∧
                   ((∀ i, i ∈ items →
                          record_path t court_attr i ≠ Ok ["tmp"; t; k; x]) →
                    c' = c)).
Proof.
  intros Ht _ Hrun.
  destruct (export_archives _ _ _ _ _ _ _ _ Ht Hrun) as (s1 & Hjson & Harch).
  destruct (write_json_to_disk_items _ _ _ _ _ _ _ _ Hjson)
    as (items & s0 & Hitems & Hdirs & Hloop).
  destruct (write_items _ _ _ _ _ _ Hloop) as [_ Hkeep].
  exists items. split; [done|]. intros court Hin.
  destruct (Harch court Hin) as (k & Hpk & Hk). exists k. split; [done|].
  intros Hk0 Hdot Hnodir.
  destruct (Hk Hk0 Hdot Hnodir) as (ms & Hpub & [_ Hmem] & _).
  exists ms. split; [done|]. intros x c _ Hx Hmatch.
  assert (Hfile : file_at ["tmp"; t; k; x] s1).
  { pose proof (write_json_to_disk_preserves queryset_generator
                  (file_at ["tmp"; t; k; x])
                  (preserves_file_at_write_file _) (preserves_file_at_mkdir_p _)
                  now t obj_type court_attr api courts s) as Hp.
    rewrite Hjson in Hp. apply Hp. by exists c. }
  destruct Hfile as [c' Hc']. exists c'. split.
  - apply Hmem. split; [|done].
    by apply (dir_entries_lookup ["tmp"; t; k]).
  - intros Hother.
    pose proof (make_court_dirs_keeps_files t courts _ c s Hx) as Hs0.
    rewrite Hdirs in Hs0. cbn [snd] in Hs0.
    pose proof (Hkeep _ _ Hs0 Hother) as Hs1. congruence.
Qed.

End EndToEnd.

Lemma do_everything_body_publishes_the_records_witness :
  ∃ items,
    item_list_of (λ qs, qs)
      (select_qs (incremental_at "document" (Dir ∅)) 100 example_documents)
    = Ok items ∧
    ∀ court, court ∈ example_courts →
      ∃ k, getattr court "pk" = Ok (PyStr k) ∧
        (k ≠ "" → starts_with_dot k = false →
         (∀ d, published "document" (Dir ∅) !! (k ++ ".tar.gz") ≠ Some (Dir d)) →
         ∃ ms,
           published "document" example_export.2 !! (k ++ ".tar.gz")
           = Some (File (Tar (Some 6) ms)) ∧
           (∀ l1 item l2 x,
              items = (l1 ++ item :: l2)%list →
              record_path "document" "docket.court_id" item
              = Ok ["tmp"; "document"; k; x] →
              (∀ i, i ∈ l2 → record_path "document" "docket.court_id" i
                             ≠ Ok ["tmp"; "document"; k; x]) →
              starts_with_dot x = false →
              ∃ json, example_api item = Ok json ∧
                      (x, File (Bytes json)) ∈ ms) ∧
           (glob_match "*.tar*" k = false →
            json_members (dir_entries ["tmp"; "document"; k] example_export.2)
                         ms)).
Proof.
  apply (do_everything_body_publishes_the_records (λ qs, qs) 100 example_courts
           "document" example_documents "docket.court_id" example_api (Dir ∅)
           example_export.2).
  - discriminate.
  - repeat split; vm_compute; done.
  - vm_compute. reflexivity.
  - vm_compute. reflexivity.
Defined.

Lemma export_keeps_the_earlier_records_witness :
  ∃ items,
    item_list_of (λ qs, qs)
      (select_qs (incremental_at "document" example_stale_fs) 100
         example_documents) = Ok items ∧
    ∀ court, court ∈ example_courts →
      ∃ k, getattr court "pk" = Ok (PyStr k) ∧
        (k ≠ "" → starts_with_dot k = false →
         (∀ d, published "document" example_stale_fs !! (k ++ ".tar.gz")
               ≠ Some (Dir d)) →
         ∃ ms,
           published "document" example_second_export.2 !! (k ++ ".tar.gz")
           = Some (File (Tar (Some 6) ms)) ∧
           ∀ x c,
             plain_name x = true →
             lookup_path ["tmp"; "document"; k; x] example_stale_fs
             = Some (File c) →
             glob_match "*.json" x = true →
             ∃ c', (x, File c') ∈ ms ∧
                   ((∀ i, i ∈ items →
                          record_path "document" "docket.court_id" i
                          ≠ Ok ["tmp"; "document"; k; x]) →
                    c' = c)).
Proof.
  apply (export_keeps_the_earlier_records (λ qs, qs) 100 example_courts
           "document" example_documents "docket.court_id" example_api
           example_stale_fs example_second_export.2).
  - discriminate.
  - repeat split; vm_compute; done.
  - vm_compute. reflexivity.
Defined.

(** ** The loop over the object types *)

Section LoopComposition.
Variable queryset_generator : list pyval → list pyval.

#[local] Abbreviation entry :=
  (string * list pyval * string * (pyval → outcome string))%type.

Lemma body_same_directories now courts t0 tbl0 ca0 api0 t s :
  t0 ≠ "tmp" → t ≠ t0 → t ≠ "tmp" →
  same_directories t
    (do_everything_body queryset_generator now courts t0 tbl0 ca0 api0 s).2 s.
Proof.
  intros Ht0 Hne Ht. split.
  - apply (do_everything_body_frame queryset_generator now courts t0 tbl0 ca0
             api0 [t] (lookup_path [t] s)); [done| |done].
    right. eauto.
  - apply (do_everything_body_frame queryset_generator now courts t0 tbl0 ca0
             api0 ["tmp"; t] (lookup_path ["tmp"; t] s)); [done| |done].
    left. eauto.
Qed.

Lemma for_each_entries_alone (now : string → Z) (courts : list pyval)
    (entries : list entry) (s s' : node) :
  NoDup entries.*1.*1.*1 → "tmp" ∉ entries.*1.*1.*1 →
  for_each entries
    (λ '(obj_type_str, obj_type, court_attr, api_resource_obj),
      do_everything_body queryset_generator (now obj_type_str) courts
        obj_type_str obj_type court_attr api_resource_obj) s = (Ok tt, s') →
  (∀ t, t ∉ entries.*1.*1.*1 → t ≠ "tmp" → same_directories t s' s) ∧
  ∀ t tbl court_attr api, (t, tbl, court_attr, api) ∈ entries →
    ∃ s1 s2,
      same_directories t s1 s ∧
      do_everything_body queryset_generator (now t) courts t tbl court_attr
        api s1 = (Ok tt, s2) ∧
      same_directories t s' s2.
Proof.
  revert s. induction entries as [|[[[t0 tbl0] ca0] api0] entries IH];
    intros s Hnd Htmp H.
  { cbn in H. unfold ret in H. simplify_eq. split; [done|].
    intros t tbl ca api Hin. by apply elem_of_nil in Hin. }
  rewrite !fmap_cons in Hnd, Htmp. cbn [fst] in Hnd, Htmp.
  apply NoDup_cons in Hnd as [Ht0 Hnd].
  apply not_elem_of_cons in Htmp as [Htmp0 Htmp].
  cbn [for_each] in H. apply bind_ok_inv in H as ([] & s1 & Hbody & H).
  destruct (IH s1 Hnd Htmp H) as [Hout Hin].
  assert (Hhead : ∀ t, t ≠ t0 → t ≠ "tmp" → same_directories t s1 s).
  { intros t Hne Ht.
    pose proof (body_same_directories (now t0) courts t0 tbl0 ca0 api0 t s
                  ltac:(congruence) Hne Ht) as Hs.
    by rewrite Hbody in Hs. }
  split.
  - intros t Ht Hne. rewrite !fmap_cons in Ht. cbn [fst] in Ht.
    apply not_elem_of_cons in Ht as [Hne0 Ht].
    destruct (Hout t Ht Hne) as [H1 H2], (Hhead t Hne0 Hne) as [H3 H4].
    split; congruence.
  - intros t tbl ca api [[= -> -> -> ->]|Hmem]%elem_of_cons.
    + exists s, s1. split; [done|]. split; [done|].
      apply Hout; [done|congruence].
    + destruct (Hin t tbl ca api Hmem) as (sa & sb & Hsa & Hrun & Hsb).
      exists sa, sb. split; [|done].
      assert (Ht : t ∈ entries.*1.*1.*1).
      { apply list_elem_of_fmap. exists (t, tbl). split; [done|].
        apply list_elem_of_fmap. exists (t, tbl, ca). split; [done|].
        apply list_elem_of_fmap. by exists (t, tbl, ca, api). }
      destruct Hsa as [H1 H2].
      destruct (Hhead t) as [H3 H4]; [by intros ->|by intros ->|].
      split; congruence.
Qed.

(** X18.  When the names the four exports make their paths of are plain
    ([plain_tables]): in a loop of [do_everything] that returns, every
    object type of [arg_tuples] has been exported by a run of the body
    that returned, started in a state that holds the published and the
    staging directory of the type as the initial state holds them; and the
    final state holds the two directories as that run left them: the
    exports of the other types do not interfere. *)
Theorem do_everything_loop_exports_each_type_alone (now : string → Z)
    (Document Audio Docket Court : list pyval)
    (DocumentResource AudioResource DocketResource JurisdictionResource
       : pyval → outcome string) (s s' : node) :
  plain_tables queryset_generator Document Audio Docket Court →
  do_everything_loop queryset_generator now Document Audio Docket Court
    DocumentResource AudioResource DocketResource JurisdictionResource s
  = (Ok tt, s') →
  ∀ t tbl court_attr api,
    (t, tbl, court_attr, api)
      ∈ arg_tuples Document Audio Docket Court DocumentResource AudioResource
                   DocketResource JurisdictionResource →
    ∃ s1 s2,
      same_directories t s1 s ∧
      do_everything_body queryset_generator (now t) Court t tbl court_attr api
        s1 = (Ok tt, s2) ∧
      same_directories t s' s2.
Proof.
  intros _ Hrun. unfold do_everything_loop in Hrun. cbv zeta in Hrun.
  apply (for_each_entries_alone now Court _ s s'); [| |done].
  - apply (bool_decide_unpack
             (NoDup ["document"; "audio"; "docket"; "jurisdiction"])).
    vm_compute. exact I.
  - apply (bool_decide_unpack
             ("tmp" ∉ ["document"; "audio"; "docket"; "jurisdiction"])).
    vm_compute. exact I.
Qed.

End LoopComposition.

Lemma do_everything_loop_exports_each_type_alone_witness :
  ∃ s1 s2,
    same_directories "docket" s1 (Dir ∅) ∧
    do_everything_body (λ qs, qs) 100 example_courts "docket" example_dockets
      "court_id" example_api s1 = (Ok tt, s2) ∧
    same_directories "docket" example_loop.2 s2.
Proof.
  apply (do_everything_loop_exports_each_type_alone (λ qs, qs) (λ _, 100%Z)
           example_documents [document_row 9 "scotus" 5] example_dockets
           example_courts example_api example_api example_api example_api
           (Dir ∅) example_loop.2).
  - repeat split; vm_compute; done.
  - vm_compute. reflexivity.
  - right. right. left.
Defined.

